(** * Universal AI Chat Styler: the CSS loading pipeline

    A shallow embedding of the three userscript variants of the repository
    (v2.2 "Berry Browser Fix", v3.0 "jsDelivr Optimized", v4.0 "jsDelivr CDN
    Edition") and the properties of their fetch / cache / inject pipeline.

    Conventions of the embedding:
    - a JavaScript string is the list of its UTF-16 code units;
    - [null] and [undefined] results are [None];
    - an [async] function is a resumable computation ([task]) that suspends at
      each [await]: on something external (a network request, a timer, a DOM
      event) until the environment answers, and for one turn of the job queue
      ([Tick]) on a call of one of the script's own functions or on
      [response.text()]; everything between two suspensions runs atomically,
      as on the page's single thread;
    - [console.log] output (utils.log) has no effect on the pipeline and is
      left out, and with it the [ai_styler_error_...] entries that v3.0 on
      Berry Browser adds to localStorage for its error-level messages, which
      the pipeline never reads. *)

From Stdlib Require Import ZArith List Bool Lia String Ascii.
From stdpp Require Import base option list gmap.

Open Scope Z_scope.

(** ** JavaScript strings *)

Abbreviation jsstring := (list N).

(** The code units of an ASCII literal. *)
Definition js (s : string) : jsstring :=
  map N_of_ascii (list_ascii_of_string s).
Global Arguments js : simpl never.

(** WhiteSpace and LineTerminator code units, the ones [String.prototype.trim]
    strips. *)
Definition is_ws (c : N) : bool :=
  ((9 <=? c) && (c <=? 13) || (c =? 32) || (c =? 160) || (c =? 5760)
   || (8192 <=? c) && (c <=? 8202) || (c =? 8232) || (c =? 8233)
   || (c =? 8239) || (c =? 8287) || (c =? 12288) || (c =? 65279))%N.

Fixpoint trimStart (s : jsstring) : jsstring :=
  match s with
  | c :: s' => if is_ws c then trimStart s' else s
  | [] => []
  end.

Definition trimEnd (s : jsstring) : jsstring := rev (trimStart (rev s)).

Definition trim (s : jsstring) : jsstring := trimEnd (trimStart s).
Global Arguments trim : simpl never.

(** [s.length] *)
Definition jslength (s : jsstring) : Z := Z.of_nat (length s).
Global Arguments jslength : simpl never.

Definition jseqb (a b : jsstring) : bool := bool_decide (a = b).

Fixpoint startsWith (s p : jsstring) {struct p} : bool :=
  match p, s with
  | [], _ => true
  | c :: p', d :: s' => (c =? d)%N && startsWith s' p'
  | _ :: _, [] => false
  end.

(** [s.includes(p)] *)
Fixpoint includes (s p : jsstring) : bool :=
  startsWith s p ||
  match s with
  | [] => false
  | _ :: s' => includes s' p
  end.

(** [encodeURIComponent]: unreserved characters are kept, every other code
    point becomes the percent-encoded bytes of its UTF-8 form; a lone
    surrogate is a URIError ([None]). *)
Definition unreserved (c : N) : bool :=
  ((65 <=? c) && (c <=? 90) || (97 <=? c) && (c <=? 122) || (48 <=? c) && (c <=? 57)
   || (c =? 45) || (c =? 95) || (c =? 46) || (c =? 33) || (c =? 126)
   || (c =? 42) || (c =? 39) || (c =? 40) || (c =? 41))%N.

Definition hexDigit (n : N) : N := (if n <? 10 then 48 + n else 55 + n)%N.

Definition percent (byte : N) : jsstring :=
  [37; hexDigit (byte / 16); hexDigit (byte mod 16)]%N.

Definition utf8 (cp : N) : list N :=
  (if cp <? 128 then [cp]
   else if cp <? 2048 then [192 + cp / 64; 128 + cp mod 64]
   else if cp <? 65536 then [224 + cp / 4096; 128 + (cp / 64) mod 64; 128 + cp mod 64]
   else [240 + cp / 262144; 128 + (cp / 4096) mod 64; 128 + (cp / 64) mod 64;
         128 + cp mod 64])%N.

Definition is_high_surrogate (c : N) : bool := ((55296 <=? c) && (c <=? 56319))%N.
Definition is_low_surrogate (c : N) : bool := ((56320 <=? c) && (c <=? 57343))%N.

Fixpoint encodeURIComponent (s : jsstring) : option jsstring :=
  match s with
  | [] => Some []
  | c :: rest =>
      if unreserved c then (c ::.) <$> encodeURIComponent rest
      else if is_low_surrogate c then None
      else if is_high_surrogate c then
        match rest with
        | d :: rest' =>
            if is_low_surrogate d then
              (λ t, concat (map percent (utf8 ((c - 55296) * 1024 + (d - 56320) + 65536)%N)) ++ t)
                <$> encodeURIComponent rest'
            else None
        | [] => None
        end
      else (λ t, concat (map percent (utf8 c)) ++ t) <$> encodeURIComponent rest
  end.

(** Truthiness of a value that is a string or null/undefined: the empty
    string is falsy. *)
Definition truthy (o : option jsstring) : bool :=
  match o with
  | Some (_ :: _) => true
  | _ => false
  end.

(** ** Thrown values *)

Inductive failure := NetworkFailure | Timeout | Blocked.

Inductive exn :=
| Error (msg : string)
| HttpError (status : Z)
| TransportError (f : failure)
| TypeError (msg : string)
| URIError
| StorageError (msg : string).

(** ** Asynchronous computations

    [step] is what a call of an async function is at any moment: finished
    with a value, finished with a thrown value, or suspended on an event
    with the rest of the function as a continuation.  The continuation
    receives the event's answer and the state as it is when the function is
    resumed. *)

Section Task.
Context {E : Type → Type} {St : Type}.

Inductive step (A : Type) : Type :=
| Return (a : A) (s : St)
| Raise (e : exn) (s : St)
| Await {X : Type} (ev : E X) (s : St) (k : X → St → step A).

Global Arguments Return {A} a s.
Global Arguments Raise {A} e s.
Global Arguments Await {A X} ev s k.

Definition task (A : Type) : Type := St → step A.

Definition ret {A} (a : A) : task A := λ s, Return a s.
Definition throw {A} (e : exn) : task A := λ s, Raise e s.
Definition await {X} (ev : E X) : task X := λ s, Await ev s (λ x s', Return x s').

Definition gets {A} (f : St → A) : task A := λ s, Return (f s) s.
Definition modify (f : St → St) : task unit := λ s, Return tt (f s).
(** The value or the throw of a computation without effect. *)
Definition lift {A} (r : exn + A) : task A :=
  match r with
  | inl e => throw e
  | inr a => ret a
  end.

(** A synchronous function on the state, called from a task. *)
Definition call {A} (f : St → A * St) : task A :=
  λ s, let (a, s') := f s in Return a s'.

Fixpoint bind_step {A B} (p : step A) (f : A → task B) : step B :=
  match p with
  | Return a s => f a s
  | Raise e s => Raise e s
  | Await ev s k => Await ev s (λ x s', bind_step (k x s') f)
  end.

Definition bind {A B} (m : task A) (f : A → task B) : task B :=
  λ s, bind_step (m s) f.

(** [try { m } catch (e) { h e }] *)
Fixpoint catch_step {A} (p : step A) (h : exn → task A) : step A :=
  match p with
  | Return a s => Return a s
  | Raise e s => h e s
  | Await ev s k => Await ev s (λ x s', catch_step (k x s') h)
  end.

Definition try_catch {A} (m : task A) (h : exn → task A) : task A :=
  λ s, catch_step (m s) h.

(** The states at which a call can be found suspended, when the state may
    change by [I] while it waits. *)
Fixpoint suspended {A} (I : St → St → Prop) (p : step A) (s : St) : Prop :=
  match p with
  | Await ev s0 k => s = s0 ∨ ∃ x s', I s0 s' ∧ suspended I (k x s') s
  | _ => False
  end.

(** A call that finishes at once, without ever suspending. *)
Definition immediate {A} (p : step A) : bool :=
  match p with
  | Await _ _ _ => false
  | _ => true
  end.
End Task.

Global Arguments step : clear implicits.
Global Arguments task : clear implicits.

Notation "'let*' x ':=' m 'in' k" := (bind m (λ x, k))
  (at level 10, x pattern, m at level 100, k at level 200, only parsing).

(** ** The environment of a run

    The state of a running script is a pair of the script's own variables
    and the world outside it (storage, document, clock).  The environment
    answers the [n]-th event of a run and says what the world has become
    meanwhile; it cannot touch the script's variables. *)

Section Run.
Context {E : Type → Type} {V W A : Type}.

Definition environment : Type := nat → ∀ X, E X → W → X * W.

Inductive outcome := Ok (a : A) | Thrown (e : exn).

Fixpoint run_from (env : environment) (n : nat) (p : step E (V * W) A)
  : outcome * (V * W) :=
  match p with
  | Return a s => (Ok a, s)
  | Raise e s => (Thrown e, s)
  | Await ev s k =>
      let '(x, w') := env n _ ev (snd s) in
      run_from env (S n) (k x (fst s, w'))
  end.

Definition run (env : environment) (m : task E (V * W) A) (s : V * W) :=
  run_from env 0%nat (m s).

(** The events a run goes through, in order. *)
Fixpoint events_from (env : environment) (n : nat) (p : step E (V * W) A)
  : list { X : Type & E X } :=
  match p with
  | Return _ _ | Raise _ _ => []
  | Await ev s k =>
      let '(x, w') := env n _ ev (snd s) in
      existT _ ev :: events_from env (S n) (k x (fst s, w'))
  end.
End Run.

Global Arguments environment : clear implicits.

(** While a call waits, the script's variables stay as they are: what an
    environment alone can do. *)
Definition script_kept {V W : Type} (s s' : V * W) : Prop := fst s' = fst s.

(** No assumption on the environment's answers. *)
Definition anything {E : Type → Type} (X : Type) (ev : E X) (x : X) : Prop := True.
Global Arguments outcome : clear implicits.

(** ** Reasoning about tasks

    [always G I P Q R p]: in every execution of the call [p] in which the
    environment's answers satisfy [G] and the state at each resumption is
    related by [I] to the state at the suspension, the state satisfies [P]
    each time the call suspends, [Q] when it returns and [R] when it
    throws. *)

Section Always.
Context {E : Type → Type} {St : Type}.
Variable G : ∀ X, E X → X → Prop.
Variable I : St → St → Prop.
Variable P : St → Prop.

Fixpoint always {A} (Q : A → St → Prop) (R : exn → St → Prop)
    (p : step E St A) : Prop :=
  match p with
  | Return a s => Q a s
  | Raise e s => R e s
  | Await ev s k => P s ∧ ∀ x s', G _ ev x → I s s' → always Q R (k x s')
  end.
End Always.

(** A task that keeps [P]: started in a state with [P] and resumed in states
    with [P], it suspends, returns and throws in states with [P]. *)
Definition preserves {E : Type → Type} {St A : Type} (G : ∀ X, E X → X → Prop)
    (P : St → Prop) (t : task E St A) : Prop :=
  ∀ s, P s → always G (λ _, P) P (λ _, P) (λ _, P) (t s).

(** ** The network

    A request either fails in transport (the promise rejects, [onerror] or
    [ontimeout] fires, the abort timer cuts it) or comes back with a status
    and a body.  A reply whose body cannot be read counts as a failure in
    transport. *)

Inductive response :=
| Failed (f : failure)
| Http (status : Z) (body : jsstring).

Inductive fetchMode := cors | no_cors.
Inductive cacheMode := cache_default | no_store | reload | no_cache.

Inductive transport :=
| ViaFetch (mode : fetchMode) (cache : cacheMode)
| ViaXHR
| ViaGM.

(** [response.ok], and the same test written out on [xhr.status] *)
Definition status_ok (status : Z) : bool := (200 <=? status) && (status <? 300).

(** How a stylesheet link settles for the script that waits on it. *)
Inductive linkOutcome := Loaded | Errored | TimedOut (hasSheet : bool).

(** What the scripts wait on: a network request, a timer, the page getting
    ready (the polling loops of waitForElement and waitForChatGPTReady, one
    event each, answered by whether the page got ready before the time-out),
    a stylesheet link settling, and [Tick]: the turn that passes before an
    [await] on a promise of the script itself, or on [response.text()], goes
    on. *)
Inductive event : Type → Type :=
| Request (url : jsstring) (via : transport) : event response
| Sleep (ms : Z) : event unit
| WaitForElement (selector : jsstring) (timeout : Z) : event bool
| LinkSettles (node : nat) : event linkOutcome
| Tick : event unit.

(** [await t()] for an async function [t] of the script: when [t] has
    returned or thrown, the caller goes on one turn later. *)
Fixpoint a_turn_later {St A} (p : step event St A) : step event St A :=
  match p with
  | Return a s => Await Tick s (λ _ s', Return a s')
  | Raise e s => Await Tick s (λ _ s', Raise e s')
  | Await ev s k => Await ev s (λ x s', a_turn_later (k x s'))
  end.

Definition awaited {St A} (t : task event St A) : task event St A :=
  λ s, a_turn_later (t s).

Definition request_of (e : { X : Type & event X }) : option (jsstring * transport) :=
  match projT2 e with
  | Request url via => Some (url, via)
  | _ => None
  end.

(** The network requests of a run, in order. *)
Definition requests_from {V W A} (env : environment event W) (n : nat)
    (p : step event (V * W) A) : list (jsstring * transport) :=
  omap request_of (events_from env n p).

(** A run that works through [plan]: the requests it makes are the first
    ones of [plan], in order, and the whole of [plan] when it ends with
    nothing ([None]); it does not throw. *)
Definition works_through {V W A} (env : environment event W) (n : nat)
    (p : step event (V * W) (option A)) (plan : list (jsstring * transport)) : Prop :=
  requests_from env n p `prefix_of` plan
  ∧ match fst (run_from env n p) with
    | Ok None => requests_from env n p = plan
    | Ok (Some _) => True
    | Thrown _ => False
    end.

(** A run that asks for [plan]: the requests it makes are the first ones of
    [plan], in order, and the whole of [plan] when it gives up, by a throw
    or by returning something that [gives] nothing. *)
Definition asks_for {V W A} (gives : A → bool) (env : environment event W) (n : nat)
    (p : step event (V * W) A) (plan : list (jsstring * transport)) : Prop :=
  requests_from env n p `prefix_of` plan
  ∧ match fst (run_from env n p) with
    | Ok a => gives a = false → requests_from env n p = plan
    | Thrown _ => requests_from env n p = plan
    end.

(** ** Persistent storage

    A stored text is represented by what [JSON.parse] makes of it: a syntax
    error or a value.  [JSON.stringify] of a value is the text that parses
    back to it.  Access can be refused altogether (SecurityError) and a write
    can hit the quota (QuotaExceededError); both are properties of the
    world. *)

Section Storage.
Context {V : Type}.

Inductive text := Malformed | Json (v : V).

Record Storage := mkStorage {
  items : gmap jsstring text;
  denied : bool;
  quotaExceeded : bool
}.

Definition JSON_stringify (v : V) : text := Json v.

Definition JSON_parse (t : text) : exn + V :=
  match t with
  | Malformed => inl (Error "SyntaxError")
  | Json v => inr v
  end.

Definition getItem (key : jsstring) (st : Storage) : exn + option text :=
  if denied st then inl (StorageError "SecurityError")
  else inr (items st !! key).

Definition setItem (key : jsstring) (t : text) (st : Storage) : exn + Storage :=
  if denied st then inl (StorageError "SecurityError")
  else if quotaExceeded st then inl (StorageError "QuotaExceededError")
  else inr (mkStorage (<[key := t]> (items st)) (denied st) (quotaExceeded st)).

Definition removeItem (key : jsstring) (st : Storage) : exn + Storage :=
  if denied st then inl (StorageError "SecurityError")
  else inr (mkStorage (delete key (items st)) (denied st) (quotaExceeded st)).
End Storage.

Global Arguments text : clear implicits.
Global Arguments Storage : clear implicits.

(** ** The document

    The document is the sequence of its elements in tree order, split by the
    container they sit in: [head], [body], and what was appended to the root
    element after them.  [head] and [body] are absent until the parser has
    created them.  Elements are leaves and carry an identity ([node]), since
    the scripts keep references to the elements they create. *)

Inductive tag := LINK | STYLE | OTHER.

Record element := mkElement {
  node : nat;
  tagName : tag;
  id : jsstring;
  href : jsstring;
  textContent : jsstring;
  attributes : gmap jsstring jsstring
}.

(** [e.tagName === 'LINK'] *)
Definition is_link (e : element) : bool :=
  match tagName e with
  | LINK => true
  | _ => false
  end.

Inductive readyState := loading | interactive | complete.

Record Document := mkDocument {
  head : option (list element);
  body : option (list element);
  root : list element;
  ready : readyState;
  fresh : nat;
  objectURLs : list jsstring
}.

Definition all_elements (d : Document) : list element :=
  default [] (head d) ++ default [] (body d) ++ root d.

Definition getElementById (i : jsstring) (d : Document) : option element :=
  find (λ e, jseqb (id e) i) (all_elements d).

Definition hasAttribute (a : jsstring) (e : element) : bool :=
  bool_decide (is_Some (attributes e !! a)).

Definition getAttribute (a : jsstring) (e : element) : option jsstring :=
  attributes e !! a.

Definition setAttribute (a v : jsstring) (e : element) : element :=
  mkElement (node e) (tagName e) (id e) (href e) (textContent e)
    (<[a := v]> (attributes e)).

Definition without (n : nat) (l : list element) : list element :=
  filter (λ e, node e ≠ n) l.

(** [el.remove()] / [parent.removeChild(el)] for the element with identity
    [n]; nothing happens when it is not in the document. *)
Definition removeNode (n : nat) (d : Document) : Document :=
  mkDocument (without n <$> head d) (without n <$> body d) (without n (root d))
    (ready d) (fresh d) (objectURLs d).

(** [document.createElement]: a new element, not yet in the document. *)
Definition createElement (t : tag) (d : Document) : element * Document :=
  (mkElement (fresh d) t [] [] [] ∅,
   mkDocument (head d) (body d) (root d) (ready d) (S (fresh d)) (objectURLs d)).

Inductive container := Head | Body | Root.

Definition available (c : container) (d : Document) : bool :=
  match c with
  | Head => bool_decide (is_Some (head d))
  | Body => bool_decide (is_Some (body d))
  | Root => true
  end.

(** [c.appendChild(e)]; appending an element moves it if it is already in
    the document. *)
Definition appendChild (c : container) (e : element) (d : Document) : Document :=
  let d := removeNode (node e) d in
  match c with
  | Head => mkDocument ((λ l, l ++ [e]) <$> head d) (body d) (root d)
              (ready d) (fresh d) (objectURLs d)
  | Body => mkDocument (head d) ((λ l, l ++ [e]) <$> body d) (root d)
              (ready d) (fresh d) (objectURLs d)
  | Root => mkDocument (head d) (body d) (root d ++ [e])
              (ready d) (fresh d) (objectURLs d)
  end.

(** [URL.createObjectURL(blob)]: a new "blob:" URL, registered until it is
    revoked. *)
Definition createObjectURL (d : Document) : jsstring * Document :=
  let u := js "blob:" ++ [N.of_nat (fresh d)] in
  (u, mkDocument (head d) (body d) (root d) (ready d) (S (fresh d))
        (u :: objectURLs d)).

Definition revokeObjectURL (u : jsstring) (d : Document) : Document :=
  mkDocument (head d) (body d) (root d) (ready d) (fresh d)
    (filter (λ v, v ≠ u) (objectURLs d)).

(** * v4.0: "jsDelivr CDN Edition" (multi-CDN loader) *)

Module V4.

Definition CACHE_DURATION : Z := 24 * 60 * 60 * 1000.
Definition CACHE_KEY_PREFIX : jsstring := js "css_cache_v4_".
Definition FETCH_TIMEOUT : Z := 8000.
Definition MAX_RETRIES : nat := 2.

Record SiteProfile := mkSite {
  name : jsstring;
  cdnURLs : list jsstring;
  styleID : jsstring;
  enabledKey : jsstring
}.

Definition chatgpt : SiteProfile := {|
  name := js "ChatGPT";
  cdnURLs := [
    js "https://cdn.jsdelivr.net/gh/yfjuu4/ai-chat-styles@main/ChatGpt_style.css";
    js "https://cdn.statically.io/gh/yfjuu4/ai-chat-styles/main/ChatGpt_style.css";
    js "https://raw.githack.com/yfjuu4/ai-chat-styles/main/ChatGpt_style.css";
    js "https://combinatronics.io/yfjuu4/ai-chat-styles/main/ChatGpt_style.css";
    js "https://raw.githubusercontent.com/yfjuu4/ai-chat-styles/main/ChatGpt_style.css" ];
  styleID := js "chatgpt-enhanced-styles";
  enabledKey := js "chatgpt_styles_enabled"
|}.

Definition claude : SiteProfile := {|
  name := js "Claude AI";
  cdnURLs := [
    js "https://cdn.jsdelivr.net/gh/yfjuu4/ai-chat-styles@main/Claude_AI_style.css";
    js "https://cdn.statically.io/gh/yfjuu4/ai-chat-styles/main/Claude_AI_style.css";
    js "https://raw.githack.com/yfjuu4/ai-chat-styles/main/Claude_AI_style.css";
    js "https://combinatronics.io/yfjuu4/ai-chat-styles/main/Claude_AI_style.css";
    js "https://raw.githubusercontent.com/yfjuu4/ai-chat-styles/main/Claude_AI_style.css" ];
  styleID := js "claude-enhanced-styles";
  enabledKey := js "claude_styles_enabled"
|}.

(** What the script writes to storage: the cache record and the enabled
    flag. *)
Record cacheData := mkCache {
  css : jsstring;
  timestamp : Z;
  cdnURL : jsstring
}.

Inductive value := VBool (b : bool) | VCache (d : cacheData).

Definition truthy_value (v : value) : bool :=
  match v with
  | VBool b => b
  | VCache _ => true
  end.

Inductive method := fetch | xhr.

Definition methods : list method := [fetch; xhr].

(** One entry of [state.fetchAttempts]; the CDN display name and the
    duration, which only feed the log, are left out. *)
Record attempt := mkAttempt {
  url : jsstring;
  via : method;
  success : bool;
  error : option exn;
  size : option Z
}.

Record state := mkState {
  cssContent : option jsstring;
  isEnabled : value;
  isFetching : bool;
  successfulCDN : option jsstring;
  fetchAttempts : list attempt;
  (** the stylesheets waiting for DOMContentLoaded to be injected *)
  pendingInjections : list jsstring
}.

Definition initial_state : state :=
  mkState None (VBool true) false None [] [].

Record world := mkWorld {
  localStorage : Storage value;
  document : Document;
  now : Z
}.

Definition set_cssContent (c : option jsstring) (σ : state) : state :=
  mkState c (isEnabled σ) (isFetching σ) (successfulCDN σ) (fetchAttempts σ)
    (pendingInjections σ).
Definition set_isEnabled (v : value) (σ : state) : state :=
  mkState (cssContent σ) v (isFetching σ) (successfulCDN σ) (fetchAttempts σ)
    (pendingInjections σ).
Definition set_isFetching (b : bool) (σ : state) : state :=
  mkState (cssContent σ) (isEnabled σ) b (successfulCDN σ) (fetchAttempts σ)
    (pendingInjections σ).
Definition set_successfulCDN (u : option jsstring) (σ : state) : state :=
  mkState (cssContent σ) (isEnabled σ) (isFetching σ) u (fetchAttempts σ)
    (pendingInjections σ).
Definition set_fetchAttempts (l : list attempt) (σ : state) : state :=
  mkState (cssContent σ) (isEnabled σ) (isFetching σ) (successfulCDN σ) l
    (pendingInjections σ).
Definition set_pendingInjections (l : list jsstring) (σ : state) : state :=
  mkState (cssContent σ) (isEnabled σ) (isFetching σ) (successfulCDN σ)
    (fetchAttempts σ) l.

Definition set_localStorage (l : Storage value) (w : world) : world :=
  mkWorld l (document w) (now w).
Definition set_document (d : Document) (w : world) : world :=
  mkWorld (localStorage w) d (now w).

Abbreviation St := (state * world)%type.
Abbreviation Task := (task event St).

Definition on_state (f : state → state) : Task unit :=
  modify (λ s : St, (f (fst s), snd s)).
Definition on_world (f : world → world) : Task unit :=
  modify (λ s : St, (fst s, f (snd s))).

Section Site.
Variable currentSite : SiteProfile.

Definition cacheKey : jsstring := CACHE_KEY_PREFIX ++ name currentSite.

(** *** utils *)

Definition getFromCache (s : St) : option jsstring * St :=
  match getItem cacheKey (localStorage (snd s)) with
  | inl _ => (None, s)                        (* catch *)
  | inr None => (None, s)                     (* if (!cached) return null *)
  | inr (Some t) =>
      match JSON_parse t with
      | inl _ => (None, s)                    (* catch *)
      | inr (VBool _) => (None, s)            (* css is undefined: css.length throws *)
      | inr (VCache d) =>
          if now (snd s) - timestamp d >? CACHE_DURATION then (None, s)
          else (Some (css d), (set_successfulCDN (Some (cdnURL d)) (fst s), snd s))
      end
  end.

Definition saveToCache (c u : jsstring) (s : St) : St :=
  let cacheData := mkCache c (now (snd s)) u in
  match setItem cacheKey (JSON_stringify (VCache cacheData)) (localStorage (snd s)) with
  | inl _ => s                                (* catch: logged only *)
  | inr ls => (fst s, set_localStorage ls (snd s))
  end.

Definition getEnabled (w : world) : value :=
  match getItem (enabledKey currentSite) (localStorage w) with
  | inl _ => VBool true                       (* catch *)
  | inr None => VBool true                    (* value === null *)
  | inr (Some t) =>
      match JSON_parse t with
      | inl _ => VBool true                   (* catch *)
      | inr v => v
      end
  end.

Definition setEnabled (enabled : bool) (s : St) : St :=
  match setItem (enabledKey currentSite) (JSON_stringify (VBool enabled))
          (localStorage (snd s)) with
  | inl _ => s
  | inr ls => (set_isEnabled (VBool enabled) (fst s), set_localStorage ls (snd s))
  end.

(** *** cssFetcher *)

(** [urls.indexOf(u)] *)
Fixpoint indexOf (u : jsstring) (urls : list jsstring) : option nat :=
  match urls with
  | [] => None
  | v :: rest => if jseqb v u then Some O else S <$> indexOf u rest
  end.

Definition getOptimizedCDNOrder (σ : state) : list jsstring :=
  let urls := cdnURLs currentSite in
  if truthy (successfulCDN σ) then
    match successfulCDN σ with
    | Some u =>
        match indexOf u urls with
        | Some (S i) => u :: delete (S i) urls  (* splice, then unshift *)
        | _ => urls
        end
    | None => urls
    end
  else urls.

Definition transport_of (m : method) : transport :=
  match m with
  | fetch => ViaFetch cors cache_default
  | xhr => ViaXHR
  end.

Definition push_attempt (a : attempt) (σ : state) : state :=
  set_fetchAttempts (fetchAttempts σ ++ [a]) σ.

(** What the chosen method makes of the transport's answer: the response
    text, or the error it throws. *)
Definition receive (m : method) (r : response) : exn + jsstring :=
  match m, r with
  | fetch, Failed f => inl (TransportError f)
  | fetch, Http status body =>
      if negb (status_ok status) then inl (HttpError status) else inr body
  | xhr, Failed Timeout => inl (Error "Timeout")
  | xhr, Failed _ => inl (Error "Network error")
  | xhr, Http status body =>
      if status_ok status then inr body else inl (HttpError status)
  end.

(** The checks on the text; [Some e] is [throw e]. *)
Definition validate (c : jsstring) : option exn :=
  if negb (truthy (Some c)) || (jslength (trim c) =? 0)
  then Some (Error "Empty response")
  else if (jslength c <? 10) || negb (includes c (js "{"))
  then Some (Error "Invalid CSS content")
  else None.

Definition fetchFromURL (u : jsstring) (m : method) : Task (jsstring * jsstring) :=
  try_catch
    (let* r := await (Request u (transport_of m)) in
     let* c := lift (receive m r) in
     let* _ := match m with
               | fetch => await Tick            (* await response.text() *)
               | xhr => ret tt
               end in
     match validate c with
     | Some e => throw e
     | None =>
         let* _ := on_state (push_attempt (mkAttempt u m true None (Some (jslength c)))) in
         let* _ := on_state (set_successfulCDN (Some u)) in
         ret (c, u)
     end)
    (λ err,
       let* _ := on_state (push_attempt (mkAttempt u m false (Some err) None)) in
       throw err).

(** The body of [for (const method of methods)] for one CDN: [Some css] is
    the function's [return css], [None] is the loop running to its end. *)
Fixpoint try_methods (u : jsstring) (ms : list method) : Task (option jsstring) :=
  match ms with
  | [] => ret None
  | m :: rest =>
      let* r :=
        try_catch
          (let* (c, successURL) := awaited (fetchFromURL u m) in
           if truthy (Some c) then
             let* _ := modify (saveToCache c successURL) in
             let* _ := on_state (set_cssContent (Some c)) in
             let* _ := on_state (set_isFetching false) in
             ret (Some c)
           else ret None)
          (λ _, ret None) in
      match r with
      | Some c => ret (Some c)
      | None => try_methods u rest
      end
  end.

Fixpoint try_urls (urls : list jsstring) : Task (option jsstring) :=
  match urls with
  | [] => ret None
  | u :: rest =>
      let* r := try_methods u methods in
      match r with
      | Some c => ret (Some c)
      | None => try_urls rest
      end
  end.

(** [for (let retry = 0; retry < CONFIG.MAX_RETRIES; retry++)], over the
    values [retry] still has to take. *)
Fixpoint try_passes (urls : list jsstring) (retries : list nat)
  : Task (option jsstring) :=
  match retries with
  | [] => ret None
  | retry :: rest =>
      let* r := try_urls urls in
      match r with
      | Some c => ret (Some c)
      | None =>
          let* _ :=
            if (retry <? MAX_RETRIES - 1)%nat
            then await (Sleep (1000 * (Z.of_nat retry + 1)))
            else ret tt in
          try_passes urls rest
      end
  end.

Definition fetchCSS : Task (option jsstring) :=
  let* busy := gets (λ s : St, isFetching (fst s)) in
  if busy then ret None
  else
    let* _ := on_state (set_isFetching true) in
    let* _ := on_state (set_fetchAttempts []) in
    let* cached := call getFromCache in
    if truthy cached then
      let* _ := on_state (set_cssContent cached) in
      let* _ := on_state (set_isFetching false) in
      ret cached
    else
      let* urls := gets (λ s : St, getOptimizedCDNOrder (fst s)) in
      let* r := try_passes urls (seq 0 MAX_RETRIES) in
      match r with
      | Some c => ret (Some c)
      | None =>
          let* _ := on_state (set_isFetching false) in
          ret None
      end.
(** *** styleInjector *)

(** [document.getElementById(currentSite.styleID)], the presence test the
    script uses (watchNavigation). *)
Definition styleElement (d : Document) : option element :=
  getElementById (styleID currentSite) d.

Definition remove (d : Document) : Document :=
  match styleElement d with
  | Some element => removeNode (node element) d
  | None => d
  end.

Definition inject (c : option jsstring) (s : St) : bool * St :=
  if negb (truthy c) || (jslength (trim (default [] c)) =? 0) then (false, s)
  else
    let d := remove (document (snd s)) in
    let (style, d) := createElement STYLE d in
    let style :=
      mkElement (node style) STYLE (styleID currentSite) [] (default [] c)
        (<[js "data-cdn" :=
             if truthy (successfulCDN (fst s))
             then default [] (successfulCDN (fst s)) else js "cached"]>
           (<[js "data-source" := js "berry-styler-cdn"]>
              (<[js "type" := js "text/css"]> ∅))) in
    let target := if available Head d then Head else Root in
    (true, (fst s, set_document (appendChild target style d) (snd s))).

(** *** app (the toast and the floating buttons are left out) *)

Definition loadAndApplyCSS : Task unit :=
  try_catch
    (let* c := awaited fetchCSS in
     if truthy c then
       let* _ := on_state (set_cssContent c) in
       let* state_ := gets (λ s : St, ready (document (snd s))) in
       match state_ with
       | loading =>
           on_state (λ σ, set_pendingInjections
                            (pendingInjections σ ++ [default [] c]) σ)
       | _ => let* _ := call (inject c) in ret tt
       end
     else ret tt)
    (λ _, ret tt).

(** The DOMContentLoaded listeners registered by [loadAndApplyCSS]. *)
Definition onDOMContentLoaded (s : St) : St :=
  let s' := fold_left (λ s c, snd (inject (Some c) s)) (pendingInjections (fst s)) s in
  (set_pendingInjections [] (fst s'), snd s').

Definition toggle : Task unit :=
  let* _ := on_state (λ σ, set_isEnabled (VBool (negb (truthy_value (isEnabled σ)))) σ) in
  let* enabled := gets (λ s : St, truthy_value (isEnabled (fst s))) in
  let* _ := modify (setEnabled enabled) in
  let* now_enabled := gets (λ s : St, truthy_value (isEnabled (fst s))) in
  if now_enabled then
    let* c := gets (λ s : St, cssContent (fst s)) in
    if truthy c then let* _ := call (inject c) in ret tt
    else
      (* loadAndApplyCSS() is started and not awaited *)
      loadAndApplyCSS
  else on_world (λ w, set_document (remove (document w)) w).

Definition clearCacheForRefresh (s : St) : St :=
  match removeItem cacheKey (localStorage (snd s)) with
  | inl _ => s                                  (* catch: logged only *)
  | inr ls => (set_successfulCDN None (fst s), set_localStorage ls (snd s))
  end.

Definition refresh : Task unit :=
  let* _ := modify clearCacheForRefresh in
  let* _ := on_state (set_cssContent None) in
  let* _ := on_world (λ w, set_document (remove (document w)) w) in
  let* enabled := gets (λ s : St, truthy_value (isEnabled (fst s))) in
  if enabled then awaited loadAndApplyCSS else ret tt.

Definition init : Task unit :=
  let* _ := modify (λ s : St, (set_isEnabled (getEnabled (snd s)) (fst s), snd s)) in
  let* enabled := gets (λ s : St, truthy_value (isEnabled (fst s))) in
  if negb enabled then ret tt
  else awaited loadAndApplyCSS.
(** *** Vocabulary of the properties *)

(** The in-flight flag is set. *)
Definition fetching (s : St) : Prop := isFetching (fst s) = true.

(** A reply that [fetchFromURL] counts as a success for the method. *)
Definition accepted (m : method) (r : response) : bool :=
  match receive m r with
  | inr c => bool_decide (validate c = None)
  | inl _ => false
  end.

(** The state of one attempt after its reply. *)
Definition after_success (u : jsstring) (m : method) (c : jsstring) (s : St) : St :=
  (set_successfulCDN (Some u)
     (push_attempt (mkAttempt u m true None (Some (jslength c))) (fst s)), snd s).
Definition after_failure (u : jsstring) (m : method) (e : exn) (s : St) : St :=
  (push_attempt (mkAttempt u m false (Some e) None) (fst s), snd s).

(** The error an unaccepted reply ends in. *)
Definition rejection (m : method) (r : response) : exn :=
  match receive m r with
  | inl e => e
  | inr c => default (Error "") (validate c)
  end.

(** An environment answer that is not a reply accepted by any method. *)
Definition refused (X : Type) (ev : event X) : X → Prop :=
  match ev in event X return X → Prop with
  | Request _ t => λ r, ∀ m, t = transport_of m → accepted m r = false
  | _ => λ _, True
  end.
(** The state in which [fetchCSS] returns after an accepted reply, from the
    state [s] in which it goes on after [fetchFromURL] has returned. *)
Definition finish (u c : jsstring) (s : St) : St :=
  let s1 := saveToCache c u s in
  (set_isFetching false (set_cssContent (Some c) (fst s1)), snd s1).

(** A stylesheet [c] obtained from the network, under answers satisfying [G]
    and resumptions within [I]: some reply was accepted, [fetchFromURL]
    returned in the state [after_success], and [fetchCSS] finished from the
    state it was resumed in. *)
Definition fetched (G : ∀ X, event X → X → Prop) (I : St → St → Prop)
    (c : jsstring) (s : St) : Prop :=
  ∃ u m rsp s1 s2,
    G _ (Request u (transport_of m)) rsp ∧ accepted m rsp = true
    ∧ receive m rsp = inr c
    ∧ I (after_success u m c s1) s2 ∧ s = finish u c s2.

(** What holds when a fetch cycle ends with result [r]: the flag is down,
    and a stylesheet comes from the cache or from an accepted reply. *)
Definition cycle_done (G : ∀ X, event X → X → Prop) (I : St → St → Prop)
    (cached : option jsstring) (r : option jsstring) (s : St) : Prop :=
  isFetching (fst s) = false ∧
  match r with
  | None => True
  | Some c =>
      cssContent (fst s) = Some c ∧
      ((cached = Some c ∧ truthy cached = true ∧ fetchAttempts (fst s) = [])
       ∨ fetched G I c s)
  end.

(** What holds when the walk over CDNs and methods stops with [r]: a
    stylesheet from an accepted reply, or nothing and the cycle goes on. *)
Definition walk_done (G : ∀ X, event X → X → Prop) (I : St → St → Prop)
    (r : option jsstring) (s : St) : Prop :=
  match r with
  | None => fetching s
  | Some c => fetched G I c s
  end.

(** The cache holds the record [d]. *)
Definition stored (w : world) (d : cacheData) : Prop :=
  items (localStorage w) !! cacheKey = Some (JSON_stringify (VCache d)).

Definition readable (w : world) : Prop := denied (localStorage w) = false.

Definition writable (w : world) : Prop :=
  denied (localStorage w) = false ∧ quotaExceeded (localStorage w) = false.

(** No enabled flag can be read: none was ever written, or reading fails. *)
Definition flag_missing (w : world) : Prop :=
  denied (localStorage w) = true
  ∨ items (localStorage w) !! enabledKey currentSite = None
  ∨ items (localStorage w) !! enabledKey currentSite = Some Malformed.
(** What else runs while a fetch cycle waits leaves the in-flight flag as it
    is (only [fetchCSS] writes it). *)
Definition flag_kept (s s' : St) : Prop := isFetching (fst s') = isFetching (fst s).

(** The cache has no entry for the profile. *)
Definition cache_cleared (w : world) : Prop :=
  items (localStorage w) !! cacheKey = None.

(** The first network request of a call, if it makes one before anything
    else. *)
Definition first_request {A} (p : step event St A) : option (jsstring * transport) :=
  match p with
  | Await ev _ _ => request_of (existT _ ev)
  | _ => None
  end.
(** At most one element bears the artifact id. *)
Definition at_most_one (d : Document) : Prop :=
  (length (filter (λ el, id el = styleID currentSite) (all_elements d)) ≤ 1)%nat.

(** *** Vocabulary of the further properties *)

(** The requests of one pass over the CDNs [urls]: each CDN with each
    method. *)
Definition pass (urls : list jsstring) : list (jsstring * transport) :=
  flat_map (λ u, map (λ m, (u, transport_of m)) methods) urls.

(** What the attempts log records as requested. *)
Definition logged (σ : state) : list (jsstring * transport) :=
  map (λ a, (url a, transport_of (via a))) (fetchAttempts σ).

(** A part of the walk, run from [s]: it works through [plan] and logs each
    request it makes. *)
Definition walked {A} (env : environment event world) (n : nat)
    (p : step event St (option A)) (s : St)
    (plan : list (jsstring * transport)) : Prop :=
  works_through env n p plan
  ∧ logged (fst (snd (run_from env n p))) = logged (fst s) ++ requests_from env n p.

End Site.

End V4.

(** * v2.2: "Berry Browser Fix" *)

Module V2.

Definition CACHE_DURATION : Z := 12 * 60 * 60 * 1000.
Definition BERRY_INITIAL_DELAY : Z := 3000.
Definition BERRY_MAX_WAIT : Z := 10000.

Inductive injectionPoint := point_body | point_head.

Record SiteProfile := mkSite {
  (** the key of the profile in SITES: [window.location.hostname] *)
  domain : jsstring;
  name : jsstring;
  styleURL : jsstring;
  backupStyleURL : jsstring;
  styleID : jsstring;
  berryReadySelector : jsstring;
  berryInjectionPoint : injectionPoint;
  requiresFullReady : bool;
  berryFallbackCSS : option jsstring
}.

Definition chatgpt : SiteProfile := {|
  domain := js "chatgpt.com";
  name := js "ChatGPT";
  styleURL := js "https://raw.githubusercontent.com/yfjuu4/ai-chat-styles/refs/heads/main/ChatGpt%20style.css";
  backupStyleURL := js "https://cdn.jsdelivr.net/gh/yfjuu4/ai-chat-styles@main/ChatGpt%20style.css";
  styleID := js "chatgpt-enhanced-styles";
  berryReadySelector :=
    js "#__next, main, [data-testid^=" ++ [34%N] ++ js "conversation" ++ [34%N]
    ++ js "], .flex-1";
  berryInjectionPoint := point_body;
  requiresFullReady := true;
  berryFallbackCSS :=
    Some (js "body { background-color: red !important; border: 5px green solid; }")
|}.

Definition claude : SiteProfile := {|
  domain := js "claude.ai";
  name := js "Claude AI";
  styleURL := js "https://raw.githubusercontent.com/yfjuu4/ai-chat-styles/refs/heads/main/Claude%20AI%20style.css";
  backupStyleURL := js "https://cdn.jsdelivr.net/gh/yfjuu4/ai-chat-styles@main/Claude%20AI%20style.css";
  styleID := js "claude-enhanced-styles";
  berryReadySelector := js "body";
  berryInjectionPoint := point_head;
  requiresFullReady := false;
  berryFallbackCSS := None
|}.

Record cacheData := mkCache {
  css : jsstring;
  timestamp : Z;
  url : jsstring
}.

Record state := mkState {
  styleElement : option nat;
  isBerryBrowser : bool
}.

Record world := mkWorld {
  localStorage : Storage cacheData;
  document : Document;
  now : Z
}.

Definition set_styleElement (e : option nat) (σ : state) : state :=
  mkState e (isBerryBrowser σ).
Definition set_localStorage (l : Storage cacheData) (w : world) : world :=
  mkWorld l (document w) (now w).
Definition set_document (d : Document) (w : world) : world :=
  mkWorld (localStorage w) d (now w).

Abbreviation St := (state * world)%type.
Abbreviation Task := (task event St).

Definition on_state (f : state → state) : Task unit :=
  modify (λ s : St, (f (fst s), snd s)).
Definition on_world (f : world → world) : Task unit :=
  modify (λ s : St, (fst s, f (snd s))).

Section Site.
Variable currentSite : SiteProfile.

(** *** utils *)

Definition cacheKey : jsstring := js "css_cache_" ++ name currentSite.

Definition getCachedCSS (w : world) : option jsstring * world :=
  match getItem cacheKey (localStorage w) with
  | inl _ => (None, w)                          (* catch *)
  | inr None => (None, w)                       (* if (!cached) return null *)
  | inr (Some t) =>
      match JSON_parse t with
      | inl _ => (None, w)                      (* catch *)
      | inr data =>
          if now w - timestamp data >? CACHE_DURATION then
            match removeItem cacheKey (localStorage w) with
            | inl _ => (None, w)                (* catch *)
            | inr ls => (None, set_localStorage ls w)
            end
          else (Some (css data), w)
      end
  end.

Definition setCachedCSS (c : jsstring) (w : world) : bool * world :=
  let data := mkCache c (now w) (styleURL currentSite) in
  match setItem cacheKey (JSON_stringify data) (localStorage w) with
  | inl _ => (false, w)                         (* catch *)
  | inr ls => (true, set_localStorage ls w)
  end.

Definition waitForElement (selector : jsstring) : Task bool :=
  await (WaitForElement selector BERRY_MAX_WAIT).

(** The checks of the polling loop are the selectors of the ChatGPT
    profile's [berryReadySelector], and a count of the children of [body]. *)
Definition waitForChatGPTReady : Task bool :=
  if negb (jseqb (domain currentSite) (js "chatgpt.com"))
     || negb (requiresFullReady currentSite)
  then ret true
  else
    let* ready := await (WaitForElement (berryReadySelector currentSite) BERRY_MAX_WAIT) in
    if ready : bool then
      let* berry := gets (λ s : St, isBerryBrowser (fst s)) in
      let* _ := if berry : bool then await (Sleep BERRY_INITIAL_DELAY) else ret tt in
      ret true
    else ret false.

(** The URLs to try; [None] when [encodeURIComponent] throws. *)
Definition candidates (berry : bool) : option (list jsstring) :=
  let urls := [styleURL currentSite; backupStyleURL currentSite] in
  if berry then
    match encodeURIComponent (styleURL currentSite) with
    | None => None
    | Some target =>
        Some (urls ++ [js "https://api.allorigins.win/raw?url=" ++ target;
                       js "https://corsproxy.io/?" ++ target])
    end
  else Some urls.

(** The loop over the URLs: [Some css] is [return css]. *)
Fixpoint try_urls (urls : list jsstring) : Task (option jsstring) :=
  match urls with
  | [] => ret None
  | u :: rest =>
      let* r :=
        try_catch
          (let* r := await (Request u (ViaFetch cors no_cache)) in
           let* c :=
             match r with
             | Failed f => throw (TransportError f)
             | Http status body =>
                 if negb (status_ok status) then throw (HttpError status)
                 else ret body
             end in
           let* _ := await Tick in              (* await response.text() *)
           if truthy (Some c) && (jslength (trim c) >? 0) then
             let* _ := on_world (λ w, snd (setCachedCSS c w)) in
             ret (Some c)
           else ret None)
          (λ _, ret None) in
      match r with
      | Some c => ret (Some c)
      | None => try_urls rest
      end
  end.

Definition fetchCSS : Task jsstring :=
  let* cached := call (λ s : St,
                   let (c, w) := getCachedCSS (snd s) in (c, (fst s, w))) in
  if truthy cached then ret (default [] cached)
  else
    let* berry := gets (λ s : St, isBerryBrowser (fst s)) in
    match candidates berry with
    | None => throw URIError
    | Some urls =>
        let* r := try_urls urls in
        match r with
        | Some c => ret c
        | None =>
            if truthy (berryFallbackCSS currentSite)
            then ret (default [] (berryFallbackCSS currentSite))
            else throw (Error "All fetch attempts failed")
        end
    end.

(** *** styleManager *)

Definition injected_by_styler (el : element) : bool :=
  bool_decide (getAttribute (js "data-injected-by") el = Some (js "ai-styler"))
  || bool_decide (getAttribute (js "data-injected-by") el = Some (js "ai-styler-blob")).

Definition remove (s : St) : St :=
  let d := document (snd s) in
  let d :=
    match styleElement (fst s) with
    | Some n => removeNode n d                  (* no parentNode: nothing to do *)
    | None => d
    end in
  let styles := filter (λ el, injected_by_styler el = true) (all_elements d) in
  let d := fold_left (λ d el, removeNode (node el) d) styles d in
  (set_styleElement None (fst s), set_document d (snd s)).

(** No DOM operation of the model throws, so the [catch] of [injectCSS]
    (with its Blob URL last resort) is never entered. *)
Definition injectCSS (cssContent : jsstring) (s : St) : bool * St :=
  let (e, d) := createElement STYLE (document (snd s)) in
  let style :=
    mkElement (node e) STYLE (styleID currentSite) [] cssContent
      (list_to_map [(js "type", js "text/css");
                    (js "data-injected-by", js "ai-styler")]) in
  let target :=
    match berryInjectionPoint currentSite with
    | point_body => if available Body d then Body else Root
    | point_head => if available Head d then Head else Root
    end in
  (true, (set_styleElement (Some (node e)) (fst s),
          set_document (appendChild target style d) (snd s))).

Definition applyBerryFallback : Task bool :=
  let* berry := gets (λ s : St, isBerryBrowser (fst s)) in
  if negb (jseqb (domain currentSite) (js "chatgpt.com")) || negb berry
  then ret false
  else if truthy (berryFallbackCSS currentSite) then
    let* hasBody := gets (λ s : St, available Body (document (snd s))) in
    if negb hasBody then throw (TypeError "document.body is null")
    else
      let* _ := modify (λ s : St,
                  let (e, d) := createElement STYLE (document (snd s)) in
                  let style := mkElement (node e) STYLE [] []
                                 (default [] (berryFallbackCSS currentSite)) ∅ in
                  (set_styleElement (Some (node e)) (fst s),
                   set_document (appendChild Body style d) (snd s))) in
      ret true
  else ret false.

Definition apply : Task bool :=
  let* _ := modify remove in
  let* _ := if requiresFullReady currentSite then awaited waitForChatGPTReady
            else awaited (waitForElement (berryReadySelector currentSite)) in
  try_catch
    (let* fetched :=
       try_catch
         (let* c := awaited fetchCSS in ret (inr c))
         (λ _,
            let* berry := gets (λ s : St, isBerryBrowser (fst s)) in
            if berry && jseqb (domain currentSite) (js "chatgpt.com")
            then let* b := applyBerryFallback in ret (inl b)
            else ret (inl false)) in
     match fetched with
     | inl b => ret b                           (* the returns of the inner catch *)
     | inr cssContent =>
         if negb (truthy (Some cssContent)) || (jslength (trim cssContent) =? 0)
         then throw (Error "Empty CSS content")
         else call (injectCSS cssContent)
     end)
    (λ _, ret false).
(** *** Vocabulary of the properties *)

(** The cache holds the record [d]. *)
Definition stored (w : world) (d : cacheData) : Prop :=
  items (localStorage w) !! cacheKey = Some (JSON_stringify d).

(** The storage can be read. *)
Definition readable (w : world) : Prop := denied (localStorage w) = false.
(** A reply [fetchCSS] returns as the stylesheet. *)
Definition usable (r : response) : bool :=
  match r with
  | Failed _ => false
  | Http status body =>
      status_ok status && truthy (Some body) && (jslength (trim body) >? 0)
  end.

(** An environment answer that is not a usable reply. *)
Definition refused (X : Type) (ev : event X) : X → Prop :=
  match ev in event X return X → Prop with
  | Request _ _ => λ r, usable r = false
  | _ => λ _, True
  end.

(** The cache read gives nothing to return. *)
Definition cache_miss (w : world) : Prop := truthy (fst (getCachedCSS w)) = false.

(** *** Vocabulary of the further properties *)

(** The storage can be written. *)
Definition writable (w : world) : Prop :=
  denied (localStorage w) = false ∧ quotaExceeded (localStorage w) = false.

(** The requests [fetchCSS] has for the URLs [urls]. *)
Definition requests_for (urls : list jsstring) : list (jsstring * transport) :=
  map (λ u, (u, ViaFetch cors no_cache)) urls.

End Site.

End V2.

(** * v3.0: "jsDelivr Optimized" *)

Module V3.

Definition RETRY_DELAY : Z := 300.
Definition MAX_RETRIES : nat := 20.
Definition CACHE_DURATION : Z := 12 * 60 * 60 * 1000.
Definition CACHE_KEY_PREFIX : jsstring := js "css_cache_v3_".
Definition BERRY_INITIAL_DELAY : Z := 4000.

Record SiteProfile := mkSite {
  (** the key of the profile in SITES: [window.location.hostname] *)
  domain : jsstring;
  name : jsstring;
  styleURL : jsstring;
  fallbackURL : option jsstring;
  styleID : jsstring;
  enabledKey : jsstring;
  needsReadyCheck : bool;
  readySelector : jsstring;
  aggressiveReapply : bool;
  version : jsstring
}.

Definition chatgpt : SiteProfile := {|
  domain := js "chatgpt.com";
  name := js "ChatGPT";
  styleURL := js "https://cdn.jsdelivr.net/gh/yfjuu4/ai-chat-styles@main/ChatGpt_style.css";
  fallbackURL := Some (js "https://raw.githubusercontent.com/yfjuu4/ai-chat-styles/main/ChatGpt_style.css");
  styleID := js "chatgpt-enhanced-styles";
  enabledKey := js "chatgpt_styles_enabled";
  needsReadyCheck := true;
  readySelector :=
    js "main, [class*=" ++ [34%N] ++ js "conversation" ++ [34%N] ++ js "], #__next";
  aggressiveReapply := true;
  version := js "v3.0"
|}.

Definition claude : SiteProfile := {|
  domain := js "claude.ai";
  name := js "Claude AI";
  styleURL := js "https://cdn.jsdelivr.net/gh/yfjuu4/ai-chat-styles@main/Claude_AI_style.css";
  fallbackURL := Some (js "https://raw.githubusercontent.com/yfjuu4/ai-chat-styles/main/Claude_AI_style.css");
  styleID := js "claude-enhanced-styles";
  enabledKey := js "claude_styles_enabled";
  needsReadyCheck := false;
  readySelector := js "body";
  aggressiveReapply := false;
  version := js "v3.0"
|}.

Record cacheData := mkCache {
  css : jsstring;
  timestamp : Z;
  url : jsstring;
  version_ : jsstring;
  size : Z
}.

(** The values the script reads from and writes to storage. *)
Inductive value := VNull | VBool (b : bool) | VCache (d : cacheData).

Definition truthy_value (v : value) : bool :=
  match v with
  | VNull => false
  | VBool b => b
  | VCache _ => true
  end.

Inductive injection := blob_link | style_element | external_link.

Record state := mkState {
  styleElement : option nat;
  isLoading : bool;
  hasGrants : bool;
  isBerryBrowser : bool;
  cssContent : option jsstring;
  appliedMethod : option injection;
  lastApplyTime : Z;
  cdnStatus : jsstring;
  fetchAttempts : nat
}.

(** The world: [localStorage], the userscript manager's value store (absent
    when GM_getValue / GM_setValue are not granted), whether
    GM_xmlhttpRequest is defined, the document and the clock. *)
Record world := mkWorld {
  localStorage : Storage value;
  GM_values : option (Storage value);
  GM_xmlhttpRequest : bool;
  document : Document;
  now : Z
}.

Definition initial_state (w : world) (berry : bool) : state :=
  mkState None false (GM_xmlhttpRequest w) berry None None 0 (js "unknown") 0.

Definition set_styleElement (e : option nat) (σ : state) : state :=
  mkState e (isLoading σ) (hasGrants σ) (isBerryBrowser σ) (cssContent σ)
    (appliedMethod σ) (lastApplyTime σ) (cdnStatus σ) (fetchAttempts σ).
Definition set_isLoading (b : bool) (σ : state) : state :=
  mkState (styleElement σ) b (hasGrants σ) (isBerryBrowser σ) (cssContent σ)
    (appliedMethod σ) (lastApplyTime σ) (cdnStatus σ) (fetchAttempts σ).
Definition set_cssContent (c : option jsstring) (σ : state) : state :=
  mkState (styleElement σ) (isLoading σ) (hasGrants σ) (isBerryBrowser σ) c
    (appliedMethod σ) (lastApplyTime σ) (cdnStatus σ) (fetchAttempts σ).
Definition set_appliedMethod (m : option injection) (σ : state) : state :=
  mkState (styleElement σ) (isLoading σ) (hasGrants σ) (isBerryBrowser σ)
    (cssContent σ) m (lastApplyTime σ) (cdnStatus σ) (fetchAttempts σ).
Definition set_lastApplyTime (t : Z) (σ : state) : state :=
  mkState (styleElement σ) (isLoading σ) (hasGrants σ) (isBerryBrowser σ)
    (cssContent σ) (appliedMethod σ) t (cdnStatus σ) (fetchAttempts σ).
Definition set_cdnStatus (c : jsstring) (σ : state) : state :=
  mkState (styleElement σ) (isLoading σ) (hasGrants σ) (isBerryBrowser σ)
    (cssContent σ) (appliedMethod σ) (lastApplyTime σ) c (fetchAttempts σ).
Definition set_fetchAttempts (n : nat) (σ : state) : state :=
  mkState (styleElement σ) (isLoading σ) (hasGrants σ) (isBerryBrowser σ)
    (cssContent σ) (appliedMethod σ) (lastApplyTime σ) (cdnStatus σ) n.

Definition set_localStorage (l : Storage value) (w : world) : world :=
  mkWorld l (GM_values w) (GM_xmlhttpRequest w) (document w) (now w).
Definition set_GM_values (g : option (Storage value)) (w : world) : world :=
  mkWorld (localStorage w) g (GM_xmlhttpRequest w) (document w) (now w).
Definition set_document (d : Document) (w : world) : world :=
  mkWorld (localStorage w) (GM_values w) (GM_xmlhttpRequest w) d (now w).

Abbreviation St := (state * world)%type.
Abbreviation Task := (task event St).

Definition on_state (f : state → state) : Task unit :=
  modify (λ s : St, (f (fst s), snd s)).
Definition on_world (f : world → world) : Task unit :=
  modify (λ s : St, (fst s, f (snd s))).

Section Site.
Variable site : SiteProfile.

(** *** utils *)

(** [GM_getValue(key, defaultValue)]; [inl] when the call throws. *)
Definition GM_getValue (key : jsstring) (defaultValue : value) (g : Storage value)
  : exn + value :=
  match getItem key g with
  | inl e => inl e
  | inr (Some (Json v)) => inr v
  | inr _ => inr defaultValue
  end.

Definition getValue (key : jsstring) (defaultValue : value) (w : world) : value :=
  match GM_values w with
  | Some g =>
      match GM_getValue key defaultValue g with
      | inl _ => defaultValue                   (* safeCall's fallback *)
      | inr v => v
      end
  | None =>
      match getItem key (localStorage w) with
      | inl _ => defaultValue                   (* catch *)
      | inr None => defaultValue                (* item === null *)
      | inr (Some t) =>
          match JSON_parse t with
          | inl _ => defaultValue               (* catch *)
          | inr v => v
          end
      end
  end.

Definition setValue (key : jsstring) (v : value) (w : world) : bool * world :=
  match GM_values w with
  | Some g =>
      match setItem key (Json v) g with
      | inl _ => (false, w)                     (* safeCall's fallback *)
      | inr g' => (true, set_GM_values (Some g') w)
      end
  | None =>
      match setItem key (JSON_stringify v) (localStorage w) with
      | inl _ => (false, w)                     (* catch *)
      | inr ls => (true, set_localStorage ls w)
      end
  end.

Definition getCurrentSiteEnabled (w : world) : value :=
  getValue (enabledKey site) (VBool true) w.

Definition setCurrentSiteEnabled (enabled : bool) (w : world) : bool * world :=
  setValue (enabledKey site) (VBool enabled) w.

Definition cacheKey : jsstring := CACHE_KEY_PREFIX ++ name site.

Definition getCachedCSS (w : world) : option jsstring :=
  let cacheData := getValue cacheKey VNull w in
  if negb (truthy_value cacheData) then None
  else
    match cacheData with
    | VCache d =>
        if negb (jseqb (url d) (styleURL site)) then None
        else if now w - timestamp d >? CACHE_DURATION then None
        else if negb (jseqb (version_ d) (version site)) then None
        else Some (css d)
    | _ => None                                 (* url is undefined *)
    end.

Definition setCachedCSS (c : jsstring) (w : world) : bool * world :=
  setValue cacheKey
    (VCache (mkCache c (now w) (styleURL site) (version site) (jslength c))) w.
(** *** cssLoader *)

(** [response.text()] of a settled fetch; a rejected fetch throws. *)
Definition text_of (r : response) : exn + jsstring :=
  match r with
  | Failed f => inl (TransportError f)
  | Http _ body => inr body
  end.

(** [response.text()] after the [if (!response.ok) throw] test. *)
Definition ok_text_of (r : response) : exn + jsstring :=
  match r with
  | Failed f => inl (TransportError f)
  | Http status body =>
      if negb (status_ok status) then inl (HttpError status) else inr body
  end.

Definition fetchViaGM : Task jsstring :=
  let* r := await (Request (styleURL site) ViaGM) in
  match r with
  | Failed Timeout => throw (Error "jsDelivr request timeout")
  | Failed _ => throw (Error "Network error with jsDelivr")
  | Http status body =>
      if status_ok status then
        if truthy (Some body) && (jslength (trim body) >? 0) then ret body
        else throw (Error "Empty response from jsDelivr")
      else throw (HttpError status)
  end.

Definition fetchDirect : Task jsstring :=
  let* r := await (Request (styleURL site) (ViaFetch cors no_store)) in
  let* c := lift (ok_text_of r) in
  let* _ := await Tick in                       (* await response.text() *)
  if negb (truthy (Some c)) || (jslength (trim c) =? 0)
  then throw (Error "Empty CSS response from jsDelivr")
  else ret c.

Definition strategies : list (fetchMode * cacheMode) :=
  [(cors, reload); (no_cors, reload); (cors, no_cache); (no_cors, no_cache)].

(** The loop over the Berry strategies: [Some css] is [return css]. *)
Fixpoint berry_strategies (l : list (fetchMode * cacheMode)) : Task (option jsstring) :=
  match l with
  | [] => ret None
  | (mode, cache) :: rest =>
      let* r :=
        try_catch
          (let* r := await (Request (styleURL site) (ViaFetch mode cache)) in
           let* c := lift (text_of r) in
           let* _ := await Tick in              (* await response.text() *)
           if truthy (Some c) && (jslength (trim c) >? 10) then ret (Some c)
           else ret None)
          (λ _, ret None) in
      match r with
      | Some c => ret (Some c)
      | None => berry_strategies rest
      end
  end.

Definition fetchForBerryBrowser : Task jsstring :=
  let* _ := on_state (set_cdnStatus (js "berry_optimized")) in
  let* r := berry_strategies strategies in
  match r with
  | Some c => ret c
  | None =>
      let* r :=
        if truthy (fallbackURL site) then
          try_catch
            (let* r := await (Request (default [] (fallbackURL site))
                                (ViaFetch no_cors reload)) in
             let* c := lift (text_of r) in
             let* _ := await Tick in            (* await response.text() *)
             if truthy (Some c) && (jslength (trim c) >? 10) then
               let* _ := on_state (set_cdnStatus (js "github_fallback_berry")) in
               ret (Some c)
             else ret None)
            (λ _, ret None)
        else ret None in
      match r with
      | Some c => ret c
      | None => throw (Error "Berry Browser: All fetch methods failed")
      end
  end.

Definition fetchGitHubFallback : Task jsstring :=
  if negb (truthy (fallbackURL site))
  then throw (Error "No fallback URL configured")
  else
    let* r := await (Request (default [] (fallbackURL site)) (ViaFetch cors no_store)) in
    let* c := lift (ok_text_of r) in
    let* _ := await Tick in                     (* await response.text() *)
    if negb (truthy (Some c)) || (jslength (trim c) =? 0)
    then throw (Error "Empty CSS from GitHub")
    else ret c.

Definition proxies (target : jsstring) : list jsstring :=
  [js "https://corsproxy.io/?" ++ target;
   js "https://api.codetabs.com/v1/proxy?quest=" ++ target;
   js "https://api.allorigins.win/raw?url=" ++ target].

(** One proxied request: the text when it is usable, [None] when the body is
    empty, a throw otherwise. *)
Definition fetchProxied (proxyUrl : jsstring) : Task (option jsstring) :=
  let* r := await (Request proxyUrl (ViaFetch cors no_cache)) in
  let* c := lift (ok_text_of r) in
  let* _ := await Tick in                       (* await response.text() *)
  if truthy (Some c) && (jslength (trim c) >? 0) then ret (Some c) else ret None.

Fixpoint primary_proxies (l : list jsstring) : Task (option jsstring) :=
  match l with
  | [] => ret None
  | proxyUrl :: rest =>
      let* r := try_catch (fetchProxied proxyUrl) (λ _, ret None) in
      match r with
      | Some c => ret (Some c)
      | None => primary_proxies rest
      end
  end.

(** The second loop rethrows the error of its last proxy. *)
Fixpoint fallback_proxies (l : list jsstring) : Task (option jsstring) :=
  match l with
  | [] => ret None
  | proxyUrl :: rest =>
      let* r :=
        try_catch (fetchProxied proxyUrl)
          (λ err, match rest with
                  | [] => throw err
                  | _ => ret None
                  end) in
      match r with
      | Some c => ret (Some c)
      | None => fallback_proxies rest
      end
  end.

Definition fetchViaCORSProxy : Task jsstring :=
  match encodeURIComponent (styleURL site) with
  | None => throw URIError
  | Some target =>
      let* r := primary_proxies (proxies target ++ [styleURL site]) in
      match r with
      | Some c => ret c
      | None =>
          let* r :=
            if truthy (fallbackURL site) then
              match encodeURIComponent (default [] (fallbackURL site)) with
              | None => throw URIError
              | Some target => fallback_proxies (proxies target)
              end
            else ret None in
          match r with
          | Some c => ret c
          | None => throw (Error "All CORS proxies failed")
          end
      end
  end.

(** [try { const css = await fetcher; utils.setCachedCSS(css);
    state.cssContent = css; state.cdnStatus = status; return css } catch {}]:
    [Some css] is the [return].  The fetchers that are async functions are
    passed [awaited]; [fetchViaGM] hands out the promise of the request
    itself. *)
Definition stage (fetcher : Task jsstring) (status : option jsstring)
  : Task (option jsstring) :=
  try_catch
    (let* c := fetcher in
     let* _ := on_world (λ w, snd (setCachedCSS c w)) in
     let* _ := on_state (set_cssContent (Some c)) in
     let* _ := match status with
               | Some st => on_state (set_cdnStatus st)
               | None => ret tt
               end in
     ret (Some c))
    (λ _, ret None).

Definition fetchExternalCSS : Task jsstring :=
  let* _ := on_state (λ σ, set_fetchAttempts (S (fetchAttempts σ)) σ) in
  let* cachedCSS := gets (λ s : St, getCachedCSS (snd s)) in
  if truthy cachedCSS then
    let* _ := on_state (set_cssContent cachedCSS) in
    ret (default [] cachedCSS)
  else
    let* viaGM := gets (λ s : St, hasGrants (fst s) && GM_xmlhttpRequest (snd s)) in
    let* r := if viaGM then stage fetchViaGM (Some (js "jsdelivr_via_gm"))
              else ret None in
    match r with
    | Some c => ret c
    | None =>
        let* berry := gets (λ s : St, isBerryBrowser (fst s)) in
        let* r := if berry then stage (awaited fetchForBerryBrowser) None else ret None in
        match r with
        | Some c => ret c
        | None =>
            let* r := stage (awaited fetchDirect) (Some (js "jsdelivr_direct")) in
            match r with
            | Some c => ret c
            | None =>
                let* r := if truthy (fallbackURL site)
                          then stage (awaited fetchGitHubFallback)
                                 (Some (js "github_fallback"))
                          else ret None in
                match r with
                | Some c => ret c
                | None =>
                    let* r := stage (awaited fetchViaCORSProxy)
                                (Some (js "cors_proxy")) in
                    match r with
                    | Some c => ret c
                    | None => throw (Error "Could not fetch CSS from any source")
                    end
                end
            end
        end
    end.
(** *** styleManager *)

Definition isApplied (w : world) : bool :=
  bool_decide (is_Some (getElementById (styleID site) (document w))).

Definition is_orphan (el : element) : bool :=
  jseqb (id el) (styleID site)
  || bool_decide (getAttribute (js "data-site") el = Some (domain site)).

Definition remove (s : St) : St :=
  let d := document (snd s) in
  let d :=
    match getElementById (styleID site) d with
    | Some existingStyle =>
        let d :=
          if is_link existingStyle
             && startsWith (href existingStyle) (js "blob:")
          then revokeObjectURL (href existingStyle) d
          else d in
        removeNode (node existingStyle) d
    | None => d
    end in
  let orphans := filter (λ el, hasAttribute (js "data-method") el = true) (all_elements d) in
  let d := fold_left (λ d el, if is_orphan el then removeNode (node el) d else d)
             orphans d in
  (set_styleElement None (fst s), set_document d (snd s)).

Definition waitForPageReady : Task bool :=
  if negb (needsReadyCheck site) then ret true
  else
    let* element := awaited (await (WaitForElement (readySelector site) 10000)) in
    if element : bool then
      let* berry := gets (λ s : St, isBerryBrowser (fst s)) in
      let* _ := if berry && jseqb (domain site) (js "chatgpt.com")
                then await (Sleep BERRY_INITIAL_DELAY)
                else ret tt in
      ret true
    else ret false.

Definition newElement (t : tag) (h text : jsstring)
    (attrs : list (jsstring * jsstring)) (s : St) : element * St :=
  let (e, d) := createElement t (document (snd s)) in
  (mkElement (node e) t (styleID site) h text (list_to_map attrs),
   (fst s, set_document d (snd s))).

Definition injectViaBlob : Task bool :=
  let* hasHead := gets (λ s : St, available Head (document (snd s))) in
  if negb hasHead then ret false
  else
    let* blobUrl := call (λ s : St,
                       let (u, d) := createObjectURL (document (snd s)) in
                       (u, (fst s, set_document d (snd s)))) in
    let* cdn := gets (λ s : St, cdnStatus (fst s)) in
    let* link := call (newElement LINK blobUrl []
                         [(js "rel", js "stylesheet"); (js "type", js "text/css");
                          (js "data-method", js "blob"); (js "data-cdn", cdn)]) in
    let* _ := on_world (λ w, set_document (appendChild Head link (document w)) w) in
    let* settled := await (LinkSettles (node link)) in
    match settled with
    | Loaded | TimedOut true =>
        let* _ := on_state (set_styleElement (Some (node link))) in
        ret true
    | Errored =>
        let* _ := on_world (λ w, set_document
                              (revokeObjectURL blobUrl (removeNode (node link) (document w))) w) in
        ret false
    | TimedOut false => ret false
    end.

Definition injectViaStyle : Task bool :=
  let* hasHead := gets (λ s : St, available Head (document (snd s))) in
  if negb hasHead then ret false
  else
    let* c := gets (λ s : St, default [] (cssContent (fst s))) in
    let* cdn := gets (λ s : St, cdnStatus (fst s)) in
    let* style := call (newElement STYLE [] c
                          [(js "type", js "text/css");
                           (js "data-method", js "inline"); (js "data-cdn", cdn)]) in
    let* _ := on_world (λ w, set_document (appendChild Head style (document w)) w) in
    let* _ := on_state (set_styleElement (Some (node style))) in
    ret true.

Definition injectViaExternalLink : Task bool :=
  let* hasHead := gets (λ s : St, available Head (document (snd s))) in
  if negb hasHead then ret false
  else
    let* link := call (newElement LINK (styleURL site) []
                         [(js "rel", js "stylesheet"); (js "type", js "text/css");
                          (js "data-method", js "external");
                          (js "data-cdn", js "jsdelivr_direct");
                          (js "crossorigin", js "anonymous")]) in
    let* _ := on_world (λ w, set_document (appendChild Head link (document w)) w) in
    let* settled := await (LinkSettles (node link)) in
    match settled with
    | Loaded =>
        let* _ := on_state (set_styleElement (Some (node link))) in
        ret true
    | Errored =>
        let* _ := on_world (λ w, set_document (removeNode (node link) (document w)) w) in
        ret false
    | TimedOut _ => ret false
    end.

Definition injector (m : injection) : Task bool :=
  match m with
  | blob_link => injectViaBlob
  | style_element => injectViaStyle
  | external_link => injectViaExternalLink
  end.

(** The loop over the injection methods: [true] is the [return true]. *)
Fixpoint try_injections (ms : list injection) : Task bool :=
  match ms with
  | [] => ret false
  | m :: rest =>
      let* done :=
        try_catch
          (let* ok := awaited (injector m) in
           if ok : bool then
             let* _ := on_state (set_appliedMethod (Some m)) in
             let* _ := on_state (set_isLoading false) in
             ret true
           else ret false)
          (λ _, ret false) in
      if done : bool then ret true else try_injections rest
  end.

Definition apply : Task bool :=
  let* enabled := gets (λ s : St, truthy_value (getCurrentSiteEnabled (snd s))) in
  let* busy := gets (λ s : St, isLoading (fst s)) in
  if negb enabled || busy then ret false
  else
    let* now_ := gets (λ s : St, now (snd s)) in
    let* last_ := gets (λ s : St, lastApplyTime (fst s)) in
    if now_ - last_ <? 500 then ret false
    else
      let* _ := on_state (set_lastApplyTime now_) in
      let* _ := modify remove in
      let* _ := on_state (set_isLoading true) in
      try_catch
        (let* _ := awaited waitForPageReady in
         let* c := gets (λ s : St, cssContent (fst s)) in
         let* _ := if negb (truthy c)
                   then let* _ := awaited fetchExternalCSS in ret tt
                   else ret tt in
         let* c := gets (λ s : St, cssContent (fst s)) in
         if negb (truthy c) || (jslength (trim (default [] c)) =? 0)
         then throw (Error "No CSS content available")
         else
           let* done := try_injections [blob_link; style_element; external_link] in
           if done : bool then ret true
           else throw (Error "All injection methods failed"))
        (λ _,
           let* _ := on_state (set_isLoading false) in
           ret false).

Definition forceReapply : Task unit :=
  let* go := gets (λ s : St, truthy_value (getCurrentSiteEnabled (snd s))
                             && negb (isApplied (snd s))) in
  if go : bool then let* _ := awaited apply in ret tt else ret tt.

(** [for (let attempt = 1; attempt <= CONFIG.MAX_RETRIES; attempt++)], over
    the values [attempt] still has to take. *)
Fixpoint apply_attempts (attempts : list nat) : Task unit :=
  match attempts with
  | [] => ret tt
  | attempt :: rest =>
      let* done := try_catch (awaited apply) (λ _, ret false) in
      if done : bool then ret tt
      else
        let* _ := if (attempt <? MAX_RETRIES)%nat
                  then await (Sleep RETRY_DELAY) else ret tt in
        apply_attempts rest
  end.

Definition applyWithRetry : Task unit :=
  let* enabled := gets (λ s : St, truthy_value (getCurrentSiteEnabled (snd s))) in
  if negb enabled then ret tt
  else apply_attempts (seq 1 MAX_RETRIES).
(** *** Vocabulary of the properties *)

(** The store [getValue] and [setValue] work on. *)
Definition active_store (w : world) : Storage value :=
  default (localStorage w) (GM_values w).

(** The cache holds the record [d]. *)
Definition stored (w : world) (d : cacheData) : Prop :=
  items (active_store w) !! cacheKey = Some (JSON_stringify (VCache d)).

Definition readable (w : world) : Prop := denied (active_store w) = false.

(** No enabled flag can be read: none was ever written, or reading fails. *)
Definition flag_missing (w : world) : Prop :=
  denied (active_store w) = true
  ∨ items (active_store w) !! enabledKey site = None
  ∨ items (active_store w) !! enabledKey site = Some Malformed.
(** A reply that [fetchDirect] and [fetchViaGM] return as the stylesheet: a
    success status and a body that is not empty after trimming. *)
Definition usable (r : response) : bool :=
  match r with
  | Failed _ => false
  | Http status body => status_ok status && negb (jslength (trim body) =? 0)
  end.
(** The apply-in-progress flag is set. *)
Definition loading (s : St) : Prop := isLoading (fst s) = true.

(** What else runs while [apply] waits leaves the flag as it is (only
    [apply] writes it). *)
Definition flag_kept (s s' : St) : Prop := isLoading (fst s') = isLoading (fst s).
(** A reply that none of the fetch methods takes for a stylesheet: a
    transport failure, a body that is empty after trimming, or an error
    status with a body too short for the Berry strategies (which do not look
    at the status). *)
Definition hopeless (r : response) : bool :=
  match r with
  | Failed _ => true
  | Http status body =>
      (jslength (trim body) =? 0)
      || negb (status_ok status) && (jslength (trim body) <=? 10)
  end.

(** An environment answer that is not a usable reply. *)
Definition refused (X : Type) (ev : event X) : X → Prop :=
  match ev in event X return X → Prop with
  | Request _ _ => λ r, hopeless r = true
  | _ => λ _, True
  end.

(** An environment answer that is a failed attempt for the script as it
    runs in a browser.  Outside Berry Browser every fetch method tests the
    status: a failed attempt is a reply that is not [usable] (a transport
    failure, a status that is not a success, a body that is empty after
    trimming).  In Berry Browser the Berry strategies come first and do not
    look at the status: there it is a [hopeless] reply. *)
Definition refused_in (berry : bool) (X : Type) (ev : event X) : X → Prop :=
  match ev in event X return X → Prop with
  | Request _ _ => λ r, if berry then hopeless r = true else usable r = false
  | _ => λ _, True
  end.

(** The cache read gives nothing to return. *)
Definition cache_miss (w : world) : Prop := truthy (getCachedCSS w) = false.
(** Every element that bears the artifact id carries a [data-method]
    attribute, as every element the injector creates does. *)
Definition artifacts_tagged (d : Document) : Prop :=
  ∀ el, el ∈ all_elements d → id el = styleID site →
        is_Some (attributes el !! js "data-method").

Definition tagged (s : St) : Prop := artifacts_tagged (document (snd s)).

(** An environment that leaves the document alone. *)
Definition quiet (env : environment event world) : Prop :=
  ∀ n X ev w, document (snd (env n X ev w)) = document w.

(** While a call waits, the document stays as it is. *)
Definition document_kept (s s' : St) : Prop :=
  document (snd s') = document (snd s).
(** The document after the first step of [remove]: the element found by
    its id is gone. *)
Definition unstyled (d : Document) : Document :=
  match getElementById (styleID site) d with
  | Some existingStyle =>
      removeNode (node existingStyle)
        (if is_link existingStyle && startsWith (href existingStyle) (js "blob:")
         then revokeObjectURL (href existingStyle) d else d)
  | None => d
  end.

(** *** utils.clearCache

    [Object.keys(localStorage)]: the keys, in the order the map lists them
    (the script counts them and removes each). *)
Definition Object_keys (ls : Storage value) : exn + list jsstring :=
  if denied ls then inl (StorageError "SecurityError")
  else inr (map fst (map_to_list (items ls))).

(** [keys.forEach(k => localStorage.removeItem(k))] *)
Fixpoint removeItems (ks : list jsstring) (ls : Storage value) : exn + Storage value :=
  match ks with
  | [] => inr ls
  | k :: rest =>
      match removeItem k ls with
      | inl e => inl e
      | inr ls' => removeItems rest ls'
      end
  end.

(** The count returned and the world left, or what is thrown. *)
Definition clearCache (w : world) : exn + (nat * world) :=
  match Object_keys (localStorage w) with
  | inl e => inl e
  | inr all =>
      let keys := filter (λ k, startsWith k CACHE_KEY_PREFIX = true) all in
      match removeItems keys (localStorage w) with
      | inl e => inl e
      | inr ls => inr (length keys, set_localStorage ls w)
      end
  end.

(** *** utils.throttle

    The two variables of the closure [throttle(func, delay)] returns: the
    time of the last execution, and the timer that is set, with the delay it
    was set with and the call its [execute] belongs to (the time and the
    arguments of that call). *)
Record timer (A : Type) := mkTimer {
  timeout : Z;
  currentTime : Z;
  args : A
}.
Global Arguments mkTimer {A}.
Global Arguments timeout {A}.
Global Arguments currentTime {A}.
Global Arguments args {A}.

Record throttled (A : Type) := mkThrottled {
  lastExecTime : Z;
  timeoutId : option (timer A)
}.
Global Arguments mkThrottled {A}.
Global Arguments lastExecTime {A}.
Global Arguments timeoutId {A}.

Definition throttle {A} : throttled A := mkThrottled 0 None.

(** [execute] of the call made at [currentTime] with [args]: the closure
    afterwards and the arguments [func] is called with. *)
Definition execute {A} (currentTime : Z) (args : A) : throttled A * option A :=
  (mkThrottled currentTime None, Some args).

(** A call of the throttled function at [currentTime]: the timer that was
    set is cleared; [func] is called now, or a timer is set. *)
Definition throttled_call {A} (delay currentTime : Z) (args : A) (t : throttled A)
  : throttled A * option A :=
  if currentTime - lastExecTime t >? delay then execute currentTime args
  else (mkThrottled (lastExecTime t)
          (Some (mkTimer (delay - (currentTime - lastExecTime t)) currentTime args)),
        None).

(** The timer fires. *)
Definition timer_fires {A} (t : throttled A) : throttled A * option A :=
  match timeoutId t with
  | Some tm => execute (currentTime tm) (args tm)
  | None => (t, None)
  end.

(** *** menuManager (the observer, the button, the menu entry and the toast
    are left out) *)

Definition toggleCurrentSiteStyles : Task unit :=
  let* newEnabled := gets (λ s : St, negb (truthy_value (getCurrentSiteEnabled (snd s)))) in
  let* _ := on_world (λ w, snd (setCurrentSiteEnabled newEnabled w)) in
  if newEnabled : bool then
    (* styleManager.apply() is started and not awaited *)
    let* _ := apply in ret tt
  else modify remove.

(** *** Vocabulary of the further properties *)

(** The store in use can be written. *)
Definition writable (w : world) : Prop :=
  denied (active_store w) = false ∧ quotaExceeded (active_store w) = false.

(** A fetcher that keeps [P] and returns only stylesheets that are truthy. *)
Definition sound_fetcher (G : ∀ X, event X → X → Prop) (P : St → Prop)
    (t : Task jsstring) : Prop :=
  ∀ s, P s →
       always G (λ _, P) P (λ c s', P s' ∧ truthy (Some c) = true) (λ _, P) (t s).

(** The requests of the fetch methods, in the order [fetchExternalCSS] has
    them. *)
Definition berry_plan : list (jsstring * transport) :=
  map (λ '(mode, cache), (styleURL site, ViaFetch mode cache)) strategies
  ++ (if truthy (fallbackURL site)
      then [(default [] (fallbackURL site), ViaFetch no_cors reload)] else []).

Definition proxied (urls : list jsstring) : list (jsstring * transport) :=
  map (λ u, (u, ViaFetch cors no_cache)) urls.

Definition proxy_plan : list (jsstring * transport) :=
  match encodeURIComponent (styleURL site) with
  | None => []
  | Some target =>
      proxied (proxies target ++ [styleURL site])
      ++ (if truthy (fallbackURL site) then
            match encodeURIComponent (default [] (fallbackURL site)) with
            | None => []
            | Some target => proxied (proxies target)
            end
          else [])
  end.

Definition waterfall (viaGM berry : bool) : list (jsstring * transport) :=
  (if viaGM then [(styleURL site, ViaGM)] else [])
  ++ (if berry then berry_plan else [])
  ++ [(styleURL site, ViaFetch cors no_store)]
  ++ (if truthy (fallbackURL site)
      then [(default [] (fallbackURL site), ViaFetch cors no_store)] else [])
  ++ proxy_plan.

(** What happens to a throttled function: it is called, its timer fires. *)
Inductive happening (A : Type) := Called (currentTime : Z) (args : A) | Fired.
Global Arguments Called {A}.
Global Arguments Fired {A}.

Definition happens {A} (delay : Z) (h : happening A) (t : throttled A)
  : throttled A * option A :=
  match h with
  | Called currentTime args => throttled_call delay currentTime args t
  | Fired => timer_fires t
  end.

(** The closure after a history, and the arguments [func] was called with,
    in order. *)
Fixpoint history {A} (delay : Z) (hs : list (happening A)) (t : throttled A)
  : throttled A * list A :=
  match hs with
  | [] => (t, [])
  | h :: rest =>
      let (t', out) := happens delay h t in
      let (t'', outs) := history delay rest t' in
      (t'', match out with Some a => a :: outs | None => outs end)
  end.

(** The arguments of the calls of a history, in order. *)
Definition calls {A} (hs : list (happening A)) : list A :=
  omap (λ h, match h with Called _ args => Some args | Fired => None end) hs.

End Site.

End V3.

(** * Concrete runs *)

Module Examples.

Definition emptyDocument : Document :=
  mkDocument (Some []) (Some []) [] complete 0 [].

Definition emptyStorage {V} : Storage V := mkStorage ∅ false false.

Definition stylesheet : jsstring := js "body{color:red}".

(** A v2.2 cache record written at time 0 for another URL. *)
Definition record2 : V2.cacheData :=
  V2.mkCache stylesheet 0 (js "https://example.org/old.css").
Definition world2 (now : Z) : V2.world :=
  V2.mkWorld (mkStorage {[ V2.cacheKey V2.chatgpt := Json record2 ]} false false)
    emptyDocument now.

(** A v3.0 cache record written at time 0 for the configured URL. *)
Definition record3 : V3.cacheData :=
  V3.mkCache stylesheet 0 (V3.styleURL V3.chatgpt) (js "v3.0") 15.
Definition world3 (d : V3.cacheData) (now : Z) : V3.world :=
  V3.mkWorld (mkStorage {[ V3.cacheKey V3.chatgpt := Json (V3.VCache d) ]} false false)
    None false emptyDocument now.

(** A v4.0 cache record written at time 0 from a URL that is not among the
    profile's CDNs. *)
Definition record4 : V4.cacheData :=
  V4.mkCache stylesheet 0 (js "https://example.org/old.css").
Definition world4 (now : Z) : V4.world :=
  V4.mkWorld (mkStorage {[ V4.cacheKey V4.chatgpt := Json (V4.VCache record4) ]} false false)
    emptyDocument now.

(** Fresh worlds with nothing stored. *)
Definition fresh2 : V2.world := V2.mkWorld emptyStorage emptyDocument 1000.
Definition fresh3 : V3.world := V3.mkWorld emptyStorage None false emptyDocument 1000.
Definition fresh4 : V4.world := V4.mkWorld emptyStorage emptyDocument 1000.

(** An environment in which every request fails in transport. *)
Definition offline {W} : environment event W := λ n X ev w,
  match ev in event X return X * W with
  | Request _ _ => (Failed NetworkFailure, w)
  | Sleep _ => (tt, w)
  | WaitForElement _ _ => (true, w)
  | LinkSettles _ => (Loaded, w)
  | Tick => (tt, w)
  end.

(** An environment in which only the URL [good] answers, with [stylesheet]. *)
Definition only {W} (good : jsstring) : environment event W := λ n X ev w,
  match ev in event X return X * W with
  | Request u _ => (if jseqb u good then Http 200 stylesheet else Failed Timeout, w)
  | Sleep _ => (tt, w)
  | WaitForElement _ _ => (true, w)
  | LinkSettles _ => (Loaded, w)
  | Tick => (tt, w)
  end.

(** The third CDN of the v4.0 ChatGPT profile. *)
Definition githack : jsstring :=
  js "https://raw.githack.com/yfjuu4/ai-chat-styles/main/ChatGpt_style.css".
Definition jsdelivr : jsstring :=
  js "https://cdn.jsdelivr.net/gh/yfjuu4/ai-chat-styles@main/ChatGpt_style.css".

(** v4.0 after a first fetch cycle that succeeded from the third CDN. *)
Definition after_githack : V4.St :=
  snd (run (only githack) (V4.fetchCSS V4.chatgpt) (V4.initial_state, fresh4)).

(** v4.0 while its first fetch cycle waits for the first reply. *)
Definition in_flight4 : V4.St :=
  (V4.set_fetchAttempts [] (V4.set_isFetching true V4.initial_state), fresh4).

(** v3.0 at start-up, and while its first [apply] waits for the page. *)
Definition start3 : V3.St := (V3.initial_state fresh3 false, fresh3).
Definition in_flight3 : V3.St :=
  (V3.set_isLoading true (V3.set_lastApplyTime 1000 (fst start3)), fresh3).

(** A v3.0 run in which the page is ready, the network answers and the
    stylesheet link loads. *)
Definition online3 : environment event V3.world :=
  only (V3.styleURL V3.chatgpt).

(** v4.0 on a page that is still being parsed. *)
Definition parsing4 : V4.world :=
  V4.mkWorld emptyStorage (mkDocument None None [] loading 0 []) 1000.

(** An error page, and an environment in which every request is answered
    with it under status 404. *)
Definition notfound : jsstring := js "<html>404: Not Found</html>".
Definition all404 {W} : environment event W := λ n X ev w,
  match ev in event X return X * W with
  | Request _ _ => (Http 404 notfound, w)
  | Sleep _ => (tt, w)
  | WaitForElement _ _ => (true, w)
  | LinkSettles _ => (Loaded, w)
  | Tick => (tt, w)
  end.

(** v3.0 at start-up in Berry Browser. *)
Definition berry3 : V3.St := (V3.initial_state fresh3 true, fresh3).

End Examples.

(** * Properties *)

(** ** The task logic *)

Section AlwaysFacts.
Context {E : Type → Type} {St : Type}.
Variable G : ∀ X, E X → X → Prop.
Variable I : St → St → Prop.
Variable P : St → Prop.

Lemma always_weaken {A} (Q Q' : A → St → Prop) (R R' : exn → St → Prop) p :
  always G I P Q R p →
  (∀ a s, Q a s → Q' a s) → (∀ e s, R e s → R' e s) →
  always G I P Q' R' p.
Proof.
  intros H HQ HR. induction p as [a s|e s|X ev s k IH]; simpl in *; auto.
  destruct H as [Hs Hk]. split; auto.
Qed.

Lemma always_bind {A B} (Q : A → St → Prop) (Q' : B → St → Prop) R p
    (f : A → task E St B) :
  always G I P Q R p →
  (∀ a s, Q a s → always G I P Q' R (f a s)) →
  always G I P Q' R (bind_step p f).
Proof.
  intros H Hf. induction p as [a s|e s|X ev s k IH]; simpl in *; auto.
  destruct H as [Hs Hk]. split; auto.
Qed.

Lemma always_catch {A} (Q : A → St → Prop) R R' p (h : exn → task E St A) :
  always G I P Q R p →
  (∀ e s, R e s → always G I P Q R' (h e s)) →
  always G I P Q R' (catch_step p h).
Proof.
  intros H Hh. induction p as [a s|e s|X ev s k IH]; simpl in *; auto.
  destruct H as [Hs Hk]. split; auto.
Qed.

(** Wherever the call is found suspended, [P] holds, as long as what
    happens while it waits stays within [I]. *)
Lemma always_suspended {A} (Q : A → St → Prop) R (I' : St → St → Prop) p s :
  (∀ X ev x, G X ev x) →
  (∀ s s', P s → I' s s' → I s s') →
  always G I P Q R p → suspended I' p s → P s.
Proof.
  intros HG HI. induction p as [a s0|e s0|X ev s0 k IH]; simpl; try tauto.
  intros [Hs Hk] [->|(x & s' & HIs & Hsusp)]; eauto.
Qed.
End AlwaysFacts.

(** [always] along a run whose environment gives answers satisfying [G] and
    changes the world within [I]. *)
Lemma always_run {E V W A} (G : ∀ X, E X → X → Prop) (I : V * W → V * W → Prop)
    (P : V * W → Prop) (Q : A → V * W → Prop) R (env : environment E W) n p :
  (∀ n X ev w, G X ev (fst (env n X ev w))) →
  (∀ n X ev σ w, P (σ, w) → I (σ, w) (σ, snd (env n X ev w))) →
  always G I P Q R p →
  match run_from env n p with
  | (Ok a, s) => Q a s
  | (Thrown e, s) => R e s
  end.
Proof.
  intros HG HI. revert n.
  induction p as [a s|e s|X ev s k IH]; simpl; intros n H; auto.
  destruct H as [Hs Hk]. specialize (HG n X ev (snd s)).
  destruct s as [σ w]. specialize (HI n X ev σ w Hs).
  cbn [fst snd] in *.
  destruct (env n X ev w) as [x w'] eqn:Henv. cbn [fst snd] in *.
  apply IH, Hk; auto.
Qed.

(** A caller that awaits the call goes on one turn after it has ended, in a
    state within [I] of the one it ended in. *)
Lemma always_awaited {St A} (G : ∀ X, event X → X → Prop) (I : St → St → Prop)
    (P : St → Prop) (Q : A → St → Prop) (R : exn → St → Prop) (p : step event St A) :
  always G I P Q R p →
  (∀ a s, Q a s → P s) → (∀ e s, R e s → P s) →
  always G I P (λ a s', ∃ s, Q a s ∧ I s s') (λ e s', ∃ s, R e s ∧ I s s')
    (a_turn_later p).
Proof.
  intros H HQ HR. induction p as [a s|e s|X ev s k IH]; simpl in *.
  - split; [by eapply HQ|]. intros _ s' _ HI. eauto.
  - split; [by eapply HR|]. intros _ s' _ HI. eauto.
  - destruct H as [Hs Hk]. split; auto.
Qed.

Lemma always_trivial {E St A} (G : ∀ X, E X → X → Prop) (I : St → St → Prop)
    (p : step E St A) :
  always G I (λ _, True) (λ _ _, True) (λ _ _, True) p.
Proof.
  induction p as [a s|e s|X ev s k IH]; simpl; auto.
Qed.

(** A run of a call awaited is the run of the call, one turn longer. *)
Lemma run_from_awaited {V W A} (env : environment event W) n (p : step event (V * W) A) :
  fst (run_from env n (a_turn_later p)) = fst (run_from env n p)
  ∧ fst (snd (run_from env n (a_turn_later p))) = fst (snd (run_from env n p)).
Proof.
  revert n. induction p as [a s|e s|X ev s k IH]; intros n; simpl.
  - destruct (env n unit Tick (snd s)); done.
  - destruct (env n unit Tick (snd s)); done.
  - destruct (env n X ev (snd s)) as [x w']. apply IH.
Qed.

Lemma requests_from_awaited {V W A} (env : environment event W) n
    (p : step event (V * W) A) :
  requests_from env n (a_turn_later p) = requests_from env n p.
Proof.
  unfold requests_from. revert n.
  induction p as [a s|e s|X ev s k IH]; intros n; simpl.
  - destruct (env n unit Tick (snd s)); done.
  - destruct (env n unit Tick (snd s)); done.
  - destruct (env n X ev (snd s)) as [x w']. simpl. by rewrite IH.
Qed.

(** ** v4.0 *)

Section V4Facts.
Import V4.
Variable site : SiteProfile.

Lemma validate_truthy c : validate c = None → truthy (Some c) = true.
Proof.
  unfold validate. destruct (truthy (Some c)); [done|]. cbn. discriminate.
Qed.

Lemma accepted_receive m r :
  accepted m r = true → ∃ c, receive m r = inr c ∧ validate c = None.
Proof.
  unfold accepted. destruct (receive m r) as [e|c]; [discriminate|].
  intros H%bool_decide_eq_true. eauto.
Qed.

(** The cache read looks at the world only, and of the script's variables
    touches [successfulCDN] only. *)
Lemma getFromCache_world σ σ' w :
  fst (getFromCache site (σ, w)) = fst (getFromCache site (σ', w)).
Proof.
  unfold getFromCache. cbn [fst snd].
  destruct (getItem _ _) as [e|[t|]]; try reflexivity.
  destruct (JSON_parse t) as [e|[b|d]]; try reflexivity.
  destruct (_ >? _); reflexivity.
Qed.

Lemma getFromCache_state s :
  ∃ o, snd (getFromCache site s) = (set_successfulCDN o (fst s), snd s).
Proof.
  destruct s as [σ w]. unfold getFromCache. cbn [fst snd].
  assert (Hid : (σ, w) = (set_successfulCDN (successfulCDN σ) σ, w))
    by (by destruct σ).
  destruct (getItem _ _) as [e|[t|]]; try (by eexists).
  destruct (JSON_parse t) as [e|[b|d]]; try (by eexists).
  destruct (_ >? _); by eexists.
Qed.

Lemma saveToCache_fst c u (s : St) : fst (saveToCache site c u s) = fst s.
Proof.
  unfold saveToCache. destruct (setItem _ _ _); reflexivity.
Qed.

Section Walk.
Variable G : ∀ X, event X → X → Prop.
Variable I : St → St → Prop.
Hypothesis flag_stays : ∀ s s', fetching s → I s s' → fetching s'.

(** One attempt: the request, then the text returned from an accepted reply
    or the failure logged and thrown again; the flag is up throughout. *)
Lemma fetchFromURL_always u m s :
  fetching s →
  always G I fetching
    (λ r s', snd r = u ∧
             ∃ rsp s1, G _ (Request u (transport_of m)) rsp
                       ∧ accepted m rsp = true ∧ receive m rsp = inr (fst r)
                       ∧ fetching s1 ∧ s' = after_success u m (fst r) s1)
    (λ _, fetching)
    (fetchFromURL u m s).
Proof.
  intros Hs. unfold fetchFromURL, try_catch, bind, await. cbn [bind_step catch_step].
  split; [exact Hs|]. intros rsp s' Hrsp Hs'%flag_stays; [|exact Hs].
  unfold accepted.
  destruct (receive m rsp) as [e|c] eqn:Hrcv; cbn; [exact Hs'|].
  assert (Hgo : ∀ s'', fetching s'' →
    always G I fetching
      (λ r s0, snd r = u ∧
               ∃ rsp s1, G _ (Request u (transport_of m)) rsp
                         ∧ match receive m rsp with
                           | inr c => bool_decide (validate c = None)
                           | inl _ => false
                           end = true
                         ∧ receive m rsp = inr (fst r)
                         ∧ fetching s1 ∧ s0 = after_success u m (fst r) s1)
      (λ _, fetching)
      (catch_step
         (match validate c with
          | Some e => throw e
          | None =>
              λ s, bind_step
                     (on_state (push_attempt (mkAttempt u m true None (Some (jslength c)))) s)
                     (λ _ s, bind_step (on_state (set_successfulCDN (Some u)) s)
                               (λ _, ret (c, u)))
          end s'')
         (λ err s, bind_step (on_state (push_attempt (mkAttempt u m false (Some err) None)) s)
                     (λ _, throw err)))).
  { intros s'' Hs''. destruct (validate c) as [e|] eqn:Hv; cbn; [exact Hs''|].
    split; [reflexivity|]. exists rsp, s''. rewrite Hrcv.
    repeat split; try done. by apply bool_decide_eq_true. }
  destruct m; cbn.
  - split; [exact Hs'|]. intros _ s'' _ Hs''%flag_stays; [|exact Hs']. by apply Hgo.
  - by apply Hgo.
Qed.

(** The loop over the methods: an accepted reply ends the cycle, any other
    reply is logged and the next method is tried. *)
Lemma try_methods_always u ms s :
  fetching s →
  always G I fetching (walk_done site G I) (λ _ _, False) (try_methods site u ms s).
Proof.
  revert s. induction ms as [|m rest IH]; intros s Hs; [exact Hs|].
  cbn [try_methods]. unfold bind, try_catch.
  eapply always_bind with (Q := walk_done site G I).
  - eapply always_catch with (R := λ _, fetching); [|intros e s' Hs'; exact Hs'].
    eapply always_bind.
    + eapply always_weaken.
      * apply always_awaited; [by apply fetchFromURL_always| |done].
        intros r s' (_ & rsp & s1 & _ & _ & _ & Hs1 & ->). exact Hs1.
      * intros r s' H. exact H.
      * intros e s' (s0 & Hs0 & HI). by eapply flag_stays.
    + intros [c u'] s' (s0 & (Hu & rsp & s1 & Hrsp & Hacc & Hrcv & Hs1 & ->) & HI).
      cbn [fst snd] in *. subst u'.
      destruct (accepted_receive _ _ Hacc) as (c' & Hrcv' & Hv).
      rewrite Hrcv in Hrcv'. injection Hrcv' as <-.
      rewrite (validate_truthy _ Hv). cbn.
      exists u, m, rsp, s1, s'. done.
  - intros [c|] s' Hr; [exact Hr|]. by apply IH.
Qed.

Lemma try_urls_always urls s :
  fetching s →
  always G I fetching (walk_done site G I) (λ _ _, False) (try_urls site urls s).
Proof.
  revert s. induction urls as [|u rest IH]; intros s Hs; [exact Hs|].
  cbn [try_urls]. unfold bind.
  eapply always_bind; [by apply try_methods_always|].
  intros [c|] s' Hr; [exact Hr|]. by apply IH.
Qed.

Lemma try_passes_always urls retries s :
  fetching s →
  always G I fetching (walk_done site G I) (λ _ _, False) (try_passes site urls retries s).
Proof.
  revert s. induction retries as [|retry rest IH]; intros s Hs; [exact Hs|].
  cbn [try_passes]. unfold bind.
  eapply always_bind; [by apply try_urls_always|].
  intros [c|] s' Hr; [exact Hr|].
  destruct (retry <? MAX_RETRIES - 1)%nat; cbn.
  - split; [exact Hr|]. intros _ s'' _ Hs''. apply IH. by eapply flag_stays.
  - by apply IH.
Qed.

Lemma fetched_done c s :
  fetched site G I c s → isFetching (fst s) = false ∧ cssContent (fst s) = Some c.
Proof.
  intros (u & m & rsp & s1 & s2 & _ & _ & _ & _ & ->).
  unfold finish. cbn [fst snd]. rewrite saveToCache_fst. done.
Qed.

(** A fetch cycle started while none is in flight. *)
Lemma fetchCSS_always s :
  isFetching (fst s) = false →
  always G I fetching (cycle_done site G I (fst (getFromCache site s)))
    (λ _ _, False) (fetchCSS site s).
Proof.
  intros Hidle. unfold fetchCSS, bind, gets. cbn [bind_step]. rewrite Hidle.
  cbn -[try_passes getFromCache getOptimizedCDNOrder seq].
  unfold call.
  destruct s as [σ w]. cbn [fst snd].
  rewrite (getFromCache_world σ (set_fetchAttempts [] (set_isFetching true σ)) w).
  destruct (getFromCache_state (set_fetchAttempts [] (set_isFetching true σ), w))
    as [o Ho].
  destruct (getFromCache site _) as [cached s1]. cbn [fst snd] in *. subst s1.
  cbn [bind_step].
  destruct (truthy cached) eqn:Hc.
  - cbn. split; [reflexivity|].
    destruct cached as [c|]; [|done]. split; [reflexivity|]. by left.
  - eapply always_bind.
    + apply try_passes_always. reflexivity.
    + intros [c|] s' Hr; cbn.
      * destruct (fetched_done _ _ Hr) as [Hf Hcss]. repeat split; try done. by right.
      * done.
Qed.
End Walk.

End V4Facts.

(** ** The cache and the enabled flag *)

Lemma gtb_true (a b : Z) : a > b → (a >? b) = true.
Proof. intros H. apply Z.gtb_lt. lia. Qed.

Lemma gtb_false (a b : Z) : a ≤ b → (a >? b) = false.
Proof.
  intros H. destruct (a >? b) eqn:E; [|reflexivity]. apply Z.gtb_lt in E. lia.
Qed.

Lemma jseqb_refl (a : jsstring) : jseqb a a = true.
Proof. unfold jseqb. by apply bool_decide_eq_true_2. Qed.

Lemma jseqb_neq (a b : jsstring) : a ≠ b → jseqb a b = false.
Proof. unfold jseqb. by apply bool_decide_eq_false_2. Qed.

Section CacheFacts.

(** *** v2.2 *)

Lemma v2_get_expired site w d :
  V2.stored site w d → V2.now w - V2.timestamp d > V2.CACHE_DURATION →
  fst (V2.getCachedCSS site w) = None.
Proof.
  unfold V2.stored, V2.getCachedCSS, getItem. intros Hd Hold.
  destruct (denied _); [reflexivity|]. rewrite Hd. cbn.
  rewrite gtb_true by exact Hold. by destruct (removeItem _ _).
Qed.

Lemma v2_get_fresh site w d :
  V2.stored site w d → V2.readable w →
  V2.now w - V2.timestamp d ≤ V2.CACHE_DURATION →
  fst (V2.getCachedCSS site w) = Some (V2.css d).
Proof.
  unfold V2.stored, V2.readable, V2.getCachedCSS, getItem. intros Hd -> Hnew.
  rewrite Hd. cbn. by rewrite gtb_false.
Qed.

Lemma v2_set_stored site c w :
  fst (V2.setCachedCSS site c w) = true →
  V2.stored site (snd (V2.setCachedCSS site c w))
    (V2.mkCache c (V2.now w) (V2.styleURL site))
  ∧ V2.readable (snd (V2.setCachedCSS site c w)).
Proof.
  unfold V2.setCachedCSS, setItem, V2.stored, V2.readable.
  destruct (denied _) eqn:Hden; [discriminate|].
  destruct (quotaExceeded _); [discriminate|]. intros _. cbn.
  split; [apply lookup_insert_eq|done].
Qed.

(** *** v3.0 *)

Lemma v3_getValue_stored key dflt w v :
  items (V3.active_store w) !! key = Some (Json v) → V3.readable w →
  V3.getValue key dflt w = v.
Proof.
  unfold V3.readable, V3.active_store, V3.getValue, V3.GM_getValue, getItem.
  destruct (V3.GM_values w) as [g|]; simpl; intros Hv Hr; rewrite Hr, Hv; reflexivity.
Qed.

Lemma v3_getValue_denied key dflt w :
  denied (V3.active_store w) = true → V3.getValue key dflt w = dflt.
Proof.
  unfold V3.active_store, V3.getValue, V3.GM_getValue, getItem.
  destruct (V3.GM_values w) as [g|]; simpl; intros Hr; by rewrite Hr.
Qed.

Lemma v3_get_denied site w :
  denied (V3.active_store w) = true → V3.getCachedCSS site w = None.
Proof.
  intros H. unfold V3.getCachedCSS. by rewrite v3_getValue_denied.
Qed.

Lemma v3_get_expired site w d :
  V3.stored site w d → V3.now w - V3.timestamp d > V3.CACHE_DURATION →
  V3.getCachedCSS site w = None.
Proof.
  intros Hd Hold. destruct (denied (V3.active_store w)) eqn:Hden.
  - by apply v3_get_denied.
  - unfold V3.getCachedCSS. rewrite (v3_getValue_stored _ _ _ _ Hd Hden). cbn.
    destruct (jseqb _ _); cbn; [|reflexivity]. by rewrite gtb_true.
Qed.

Lemma v3_get_url_changed site w d :
  V3.stored site w d → V3.url d ≠ V3.styleURL site →
  V3.getCachedCSS site w = None.
Proof.
  intros Hd Hurl. destruct (denied (V3.active_store w)) eqn:Hden.
  - by apply v3_get_denied.
  - unfold V3.getCachedCSS. rewrite (v3_getValue_stored _ _ _ _ Hd Hden). cbn.
    by rewrite jseqb_neq.
Qed.

Lemma v3_get_fresh site w d :
  V3.stored site w d → V3.readable w →
  V3.url d = V3.styleURL site → V3.version_ d = V3.version site →
  V3.now w - V3.timestamp d ≤ V3.CACHE_DURATION →
  V3.getCachedCSS site w = Some (V3.css d).
Proof.
  intros Hd Hden Hurl Hver Hnew.
  unfold V3.getCachedCSS. rewrite (v3_getValue_stored _ _ _ _ Hd Hden). cbn.
  rewrite Hurl, Hver, !jseqb_refl. cbn. by rewrite gtb_false.
Qed.

Lemma v3_set_stored site c w :
  fst (V3.setCachedCSS site c w) = true →
  V3.stored site (snd (V3.setCachedCSS site c w))
    (V3.mkCache c (V3.now w) (V3.styleURL site) (V3.version site) (jslength c))
  ∧ V3.readable (snd (V3.setCachedCSS site c w)).
Proof.
  unfold V3.setCachedCSS, V3.setValue, setItem, V3.stored, V3.readable, V3.active_store.
  destruct (V3.GM_values w) as [g|] eqn:Hgm; simpl.
  - destruct (denied g) eqn:Hden; [discriminate|].
    destruct (quotaExceeded g); [discriminate|]. intros _. simpl.
    split; [apply lookup_insert_eq|done].
  - destruct (denied _) eqn:Hden; [discriminate|].
    destruct (quotaExceeded _); [discriminate|]. intros _. simpl.
    rewrite Hgm. simpl. split; [apply lookup_insert_eq|done].
Qed.

(** *** v4.0 *)

Lemma v4_get_expired site σ w d :
  V4.stored site w d → V4.now w - V4.timestamp d > V4.CACHE_DURATION →
  fst (V4.getFromCache site (σ, w)) = None.
Proof.
  unfold V4.stored, V4.getFromCache, getItem. cbn [fst snd]. intros Hd Hold.
  destruct (denied _); [reflexivity|]. rewrite Hd. cbn.
  by rewrite gtb_true.
Qed.

Lemma v4_get_fresh site σ w d :
  V4.stored site w d → V4.readable w →
  V4.now w - V4.timestamp d ≤ V4.CACHE_DURATION →
  fst (V4.getFromCache site (σ, w)) = Some (V4.css d).
Proof.
  unfold V4.stored, V4.readable, V4.getFromCache, getItem. cbn [fst snd].
  intros Hd -> Hnew. rewrite Hd. cbn. by rewrite gtb_false.
Qed.

Lemma v4_save_stored site c u σ w :
  V4.writable w →
  V4.stored site (snd (V4.saveToCache site c u (σ, w))) (V4.mkCache c (V4.now w) u)
  ∧ V4.readable (snd (V4.saveToCache site c u (σ, w))).
Proof.
  unfold V4.writable, V4.saveToCache, setItem, V4.stored, V4.readable.
  cbn [fst snd]. intros [-> ->]. cbn. split; [apply lookup_insert_eq|reflexivity].
Qed.

End CacheFacts.

(** C8. A cache entry older than the cache duration at the time of the read is
    absent for the cache read of every variant, whatever its content. *)
Theorem C8_cache_expiry :
  (∀ site w d,
     V2.stored site w d → V2.now w - V2.timestamp d > V2.CACHE_DURATION →
     fst (V2.getCachedCSS site w) = None)
  ∧ (∀ site w d,
       V3.stored site w d → V3.now w - V3.timestamp d > V3.CACHE_DURATION →
       V3.getCachedCSS site w = None)
  ∧ (∀ site σ w d,
       V4.stored site w d → V4.now w - V4.timestamp d > V4.CACHE_DURATION →
       fst (V4.getFromCache site (σ, w)) = None).
Proof.
  split; [exact v2_get_expired|]. split; [exact v3_get_expired|exact v4_get_expired].
Qed.

Lemma C8_cache_expiry_witness :
  fst (V2.getCachedCSS V2.chatgpt (Examples.world2 43200001)) = None
  ∧ V3.getCachedCSS V3.chatgpt (Examples.world3 Examples.record3 43200001) = None
  ∧ fst (V4.getFromCache V4.chatgpt (V4.initial_state, Examples.world4 86400001)) = None.
Proof.
  destruct C8_cache_expiry as (H2 & H3 & H4).
  split; [|split].
  - apply (H2 _ _ Examples.record2); [reflexivity|vm_compute; reflexivity].
  - apply (H3 _ _ Examples.record3); [reflexivity|vm_compute; reflexivity].
  - apply (H4 _ _ _ Examples.record4); [reflexivity|vm_compute; reflexivity].
Defined.

(** C5. In every variant, a stylesheet stored with the cache write, when the
    write went through, is returned unchanged by a cache read made for the
    same profile before the cache duration has elapsed, the storage being
    what the write left. *)
Theorem C5_cache_round_trip :
  (∀ site c w w',
     fst (V2.setCachedCSS site c w) = true →
     V2.localStorage w' = V2.localStorage (snd (V2.setCachedCSS site c w)) →
     V2.now w' - V2.now w ≤ V2.CACHE_DURATION →
     fst (V2.getCachedCSS site w') = Some c)
  ∧ (∀ site c w w',
       fst (V3.setCachedCSS site c w) = true →
       V3.active_store w' = V3.active_store (snd (V3.setCachedCSS site c w)) →
       V3.now w' - V3.now w ≤ V3.CACHE_DURATION →
       V3.getCachedCSS site w' = Some c)
  ∧ (∀ site c u σ w σ' w',
       V4.writable w →
       V4.localStorage w' = V4.localStorage (snd (V4.saveToCache site c u (σ, w))) →
       V4.now w' - V4.now w ≤ V4.CACHE_DURATION →
       fst (V4.getFromCache site (σ', w')) = Some c).
Proof.
  split; [|split].
  - intros site c w w' Hset Hsame Hnew.
    destruct (v2_set_stored site c w Hset) as [Hst Hrd].
    apply (v2_get_fresh site w' (V2.mkCache c (V2.now w) (V2.styleURL site))).
    + unfold V2.stored in *. by rewrite Hsame.
    + unfold V2.readable in *. by rewrite Hsame.
    + exact Hnew.
  - intros site c w w' Hset Hsame Hnew.
    destruct (v3_set_stored site c w Hset) as [Hst Hrd].
    apply (v3_get_fresh site w'
             (V3.mkCache c (V3.now w) (V3.styleURL site) (V3.version site) (jslength c))).
    + unfold V3.stored in *. by rewrite Hsame.
    + unfold V3.readable in *. by rewrite Hsame.
    + reflexivity.
    + reflexivity.
    + exact Hnew.
  - intros site c u σ w σ' w' Hw Hsame Hnew.
    destruct (v4_save_stored site c u σ w Hw) as [Hst Hrd].
    apply (v4_get_fresh site σ' w' (V4.mkCache c (V4.now w) u)).
    + unfold V4.stored in *. by rewrite Hsame.
    + unfold V4.readable in *. by rewrite Hsame.
    + exact Hnew.
Qed.

Lemma C5_cache_round_trip_witness :
  fst (V2.getCachedCSS V2.chatgpt
         (snd (V2.setCachedCSS V2.chatgpt Examples.stylesheet Examples.fresh2)))
    = Some Examples.stylesheet
  ∧ V3.getCachedCSS V3.chatgpt
      (snd (V3.setCachedCSS V3.chatgpt Examples.stylesheet Examples.fresh3))
    = Some Examples.stylesheet
  ∧ fst (V4.getFromCache V4.chatgpt
           (V4.initial_state,
            snd (V4.saveToCache V4.chatgpt Examples.stylesheet
                   (js "https://cdn.jsdelivr.net/gh/yfjuu4/ai-chat-styles@main/ChatGpt_style.css")
                   (V4.initial_state, Examples.fresh4))))
    = Some Examples.stylesheet.
Proof.
  destruct C5_cache_round_trip as (H2 & H3 & H4).
  split; [|split].
  - apply (H2 V2.chatgpt Examples.stylesheet Examples.fresh2);
      [reflexivity|reflexivity|vm_compute; discriminate].
  - apply (H3 V3.chatgpt Examples.stylesheet Examples.fresh3);
      [reflexivity|reflexivity|vm_compute; discriminate].
  - apply (H4 V4.chatgpt Examples.stylesheet
             (js "https://cdn.jsdelivr.net/gh/yfjuu4/ai-chat-styles@main/ChatGpt_style.css")
             V4.initial_state Examples.fresh4 V4.initial_state);
      [split; reflexivity|reflexivity|vm_compute; discriminate].
Defined.

(** C2, as the code has it.  Only v3.0 compares the URL recorded in the
    entry with the profile's [styleURL]: there an entry recorded for another
    URL is absent for the cache read, whatever its age.  The cache reads of
    v2.2 and v4.0 do not look at the recorded URL: they return the stored
    stylesheet whenever the entry is within the cache duration. *)
Theorem C2_url_change_invalidates_v3_only :
  (∀ site w d,
     V3.stored site w d → V3.url d ≠ V3.styleURL site →
     V3.getCachedCSS site w = None)
  ∧ (∀ site w d,
       V2.stored site w d → V2.readable w →
       V2.now w - V2.timestamp d ≤ V2.CACHE_DURATION →
       fst (V2.getCachedCSS site w) = Some (V2.css d))
  ∧ (∀ site σ w d,
       V4.stored site w d → V4.readable w →
       V4.now w - V4.timestamp d ≤ V4.CACHE_DURATION →
       fst (V4.getFromCache site (σ, w)) = Some (V4.css d)).
Proof.
  split; [exact v3_get_url_changed|]. split; [exact v2_get_fresh|exact v4_get_fresh].
Qed.

Lemma C2_url_change_invalidates_v3_only_witness :
  V3.getCachedCSS V3.chatgpt
    (Examples.world3 (V3.mkCache Examples.stylesheet 0
                        (js "https://example.org/old.css") (js "v3.0") 15) 1000) = None
  ∧ fst (V2.getCachedCSS V2.chatgpt (Examples.world2 1000)) = Some Examples.stylesheet
  ∧ fst (V4.getFromCache V4.chatgpt (V4.initial_state, Examples.world4 1000))
    = Some Examples.stylesheet.
Proof.
  destruct C2_url_change_invalidates_v3_only as (H3 & H2 & H4).
  split; [|split].
  - eapply H3; [reflexivity|vm_compute; discriminate].
  - apply (H2 _ _ Examples.record2); [reflexivity|reflexivity|vm_compute; discriminate].
  - apply (H4 _ _ _ Examples.record4); [reflexivity|reflexivity|vm_compute; discriminate].
Defined.

(** C2 as stated fails on v2.2 and on v4.0: an entry recorded for a URL
    that is not (among) the profile's configured source URL(s) is still
    returned while it is within the cache duration. *)
Lemma C2_counterexample :
  (V2.stored V2.chatgpt (Examples.world2 1000) Examples.record2
   ∧ (V2.url Examples.record2 ≠ V2.styleURL V2.chatgpt)
   ∧ (V2.url Examples.record2 ≠ V2.backupStyleURL V2.chatgpt)
   ∧ V2.now (Examples.world2 1000) - V2.timestamp Examples.record2 ≤ V2.CACHE_DURATION
   ∧ fst (V2.getCachedCSS V2.chatgpt (Examples.world2 1000)) = Some Examples.stylesheet)
  ∧ (V4.stored V4.chatgpt (Examples.world4 1000) Examples.record4
     ∧ (V4.cdnURL Examples.record4 ∉ V4.cdnURLs V4.chatgpt)
     ∧ V4.now (Examples.world4 1000) - V4.timestamp Examples.record4 ≤ V4.CACHE_DURATION
     ∧ fst (V4.getFromCache V4.chatgpt (V4.initial_state, Examples.world4 1000))
       = Some Examples.stylesheet).
Proof.
  split.
  - split; [reflexivity|]. split; [vm_compute; discriminate|].
    split; [vm_compute; discriminate|]. split; [vm_compute; discriminate|reflexivity].
  - split; [reflexivity|]. split.
    + intros H%list_elem_of_In. vm_compute in H. intuition discriminate.
    + split; [vm_compute; discriminate|reflexivity].
Qed.

(** C9. When no enabled flag can be read for the profile (the key is absent,
    or reading it fails), the enabled query of v3.0 and of v4.0 answers
    true, and the v4.0 start-up goes on to load and apply the stylesheet,
    which it awaits. *)
Theorem C9_enabled_by_default :
  (∀ site w, V3.flag_missing site w →
             V3.getCurrentSiteEnabled site w = V3.VBool true)
  ∧ (∀ site w, V4.flag_missing site w → V4.getEnabled site w = V4.VBool true)
  ∧ (∀ site σ w, V4.flag_missing site w →
                 V4.init site (σ, w)
                 = awaited (V4.loadAndApplyCSS site)
                     (V4.set_isEnabled (V4.VBool true) σ, w)).
Proof.
  assert (H4 : ∀ site w, V4.flag_missing site w → V4.getEnabled site w = V4.VBool true).
  { intros site w. unfold V4.flag_missing, V4.getEnabled, getItem.
    intros [->|[Hk|Hk]]; [reflexivity| |];
      destruct (denied _); try reflexivity; by rewrite Hk. }
  split; [|split; [exact H4|]].
  - intros site w.
    unfold V3.flag_missing, V3.getCurrentSiteEnabled, V3.active_store,
      V3.getValue, V3.GM_getValue, getItem.
    destruct (V3.GM_values w) as [g|]; simpl;
      (intros [->|[Hk|Hk]]; [reflexivity| |]);
      destruct (denied _); try reflexivity; by rewrite Hk.
  - intros site σ w Hmiss. unfold V4.init, bind, modify, gets.
    cbn [bind_step fst snd]. rewrite (H4 site w Hmiss). reflexivity.
Qed.

Lemma C9_enabled_by_default_witness :
  V3.getCurrentSiteEnabled V3.chatgpt Examples.fresh3 = V3.VBool true
  ∧ V4.getEnabled V4.chatgpt Examples.fresh4 = V4.VBool true.
Proof.
  destruct C9_enabled_by_default as (H3 & H4 & _).
  split.
  - apply H3. right. left. reflexivity.
  - apply H4. right. left. reflexivity.
Defined.

(** ** v4.0: the fetch cycle *)

Section V4Cycle.
Import V4.
Variable site : SiteProfile.

(** A call made while a cycle is in flight returns at once with nothing. *)
Lemma v4_fetchCSS_busy s :
  isFetching (fst s) = true → fetchCSS site s = Return None s.
Proof.
  intros H. unfold fetchCSS, bind, gets. cbn [bind_step]. by rewrite H.
Qed.

(** Wherever a cycle is found suspended, the flag is up. *)
Lemma v4_flag_up_in_flight s0 s :
  isFetching (fst s0) = false →
  suspended flag_kept (fetchCSS site s0) s → fetching s.
Proof.
  intros Hidle Hs.
  assert (Hkept : ∀ s s', fetching s → flag_kept s s' → fetching s')
    by (unfold fetching, flag_kept; congruence).
  eapply (always_suspended anything flag_kept fetching _ _ flag_kept);
    [done|done|by apply fetchCSS_always|exact Hs].
Qed.

Lemma script_kept_fetching (s s' : St) : fetching s → script_kept s s' → fetching s'.
Proof. unfold fetching, script_kept. congruence. Qed.

(** The outcome of a cycle run to its end. *)
Lemma v4_fetchCSS_run (G : ∀ X, event X → X → Prop) (env : environment event world) s :
  (∀ n X ev w, G X ev (fst (env n X ev w))) →
  isFetching (fst s) = false →
  ∃ r, fst (run env (fetchCSS site) s) = Ok r
       ∧ cycle_done site G script_kept (fst (getFromCache site s)) r
           (snd (run env (fetchCSS site) s)).
Proof.
  intros HG Hidle.
  pose proof (always_run G script_kept fetching
                (cycle_done site G script_kept (fst (getFromCache site s)))
                (λ _ _, False) env 0 (fetchCSS site s) HG) as H.
  unfold run. destruct (run_from env 0 (fetchCSS site s)) as [[r|e] s'].
  - exists r. split; [reflexivity|]. apply H; [done|].
    apply fetchCSS_always; [exact script_kept_fetching|exact Hidle].
  - exfalso. apply H; [done|].
    apply fetchCSS_always; [exact script_kept_fetching|exact Hidle].
Qed.

(** Nothing accepted, nothing cached: the cycle ends with nothing. *)
Lemma v4_exhausted (env : environment event world) s :
  (∀ n X ev w, refused X ev (fst (env n X ev w))) →
  truthy (fst (getFromCache site s)) = false →
  fst (run env (fetchCSS site) s) = Ok None.
Proof.
  intros Href Hmiss. destruct (isFetching (fst s)) eqn:Hflag.
  - unfold run. by rewrite v4_fetchCSS_busy.
  - destruct (v4_fetchCSS_run refused env s Href Hflag) as (r & -> & Hdone).
    destruct r as [c|]; [|reflexivity]. exfalso.
    destruct Hdone as (_ & _ & [(Hc & Ht & _)|(u & m & rsp & s1 & s2 & Hr & Hacc & _)]).
    + congruence.
    + specialize (Hr m eq_refl). congruence.
Qed.

(** [loadAndApplyCSS] never throws. *)
Lemma v4_loadAndApplyCSS_total (env : environment event world) s :
  fst (run env (loadAndApplyCSS site) s) = Ok tt.
Proof.
  pose proof (always_run anything (λ _ _, True) (λ _, True)
                (λ (_ : unit) _, True) (λ _ _, False) env 0
                (loadAndApplyCSS site s)) as H.
  unfold run. destruct (run_from env 0 (loadAndApplyCSS site s)) as [[[]|e] s'];
    [reflexivity|].
  exfalso. apply H; [done|done|].
  unfold loadAndApplyCSS, try_catch.
  eapply always_catch; [apply always_trivial|]. intros; exact I.
Qed.

End V4Cycle.

(** C10. In v4.0, a [fetchCSS] call made while a cycle is in flight returns
    null at once and changes nothing; every other call (cache hit, success
    from some source, exhaustion) runs to its end without throwing and
    leaves [isFetching] false.  The same holds with other code of the page
    running while the call waits, as long as that code leaves the flag
    alone: the call then waits only with the flag up, never throws, and
    returns with the flag down. *)
Theorem C10_in_flight_flag_released :
  ∀ site (env : environment event V4.world) s,
    (∃ r, fst (run env (V4.fetchCSS site) s) = Ok r)
    ∧ (if V4.isFetching (fst s)
       then run env (V4.fetchCSS site) s = (Ok None, s)
       else V4.isFetching (fst (snd (run env (V4.fetchCSS site) s))) = false
            ∧ always anything V4.flag_kept V4.fetching
                (λ _ s', V4.isFetching (fst s') = false) (λ _ _, False)
                (V4.fetchCSS site s)).
Proof.
  intros site env s. destruct (V4.isFetching (fst s)) eqn:Hflag.
  - unfold run. rewrite v4_fetchCSS_busy by exact Hflag. cbn. eauto.
  - destruct (v4_fetchCSS_run site anything env s) as (r & Hr & Hdone & _);
      [done|exact Hflag|].
    split; [eauto|]. split; [exact Hdone|].
    eapply always_weaken; [apply (fetchCSS_always site anything V4.flag_kept)| |done].
    + unfold V4.fetching, V4.flag_kept. congruence.
    + exact Hflag.
    + by intros r' s' [Hdown _].
Qed.

(** ** v4.0: promotion of the CDN that worked *)

Section V4Promotion.
Import V4.
Variable site : SiteProfile.

Lemma indexOf_lookup u urls :
  u ∈ urls → ∃ i, indexOf u urls = Some i ∧ urls !! i = Some u.
Proof.
  induction urls as [|v rest IH]; intros Hin; [by apply elem_of_nil in Hin|].
  cbn [indexOf]. destruct (jseqb v u) eqn:Hvu.
  - exists 0%nat. split; [reflexivity|]. apply bool_decide_eq_true in Hvu. by subst.
  - apply elem_of_cons in Hin as [->|Hin]; [by rewrite jseqb_refl in Hvu|].
    destruct (IH Hin) as (i & -> & Hi). exists (S i). done.
Qed.

(** The remembered CDN, when it is one of the profile's, heads the order. *)
Lemma getOptimizedCDNOrder_head σ u :
  successfulCDN σ = Some u → u ≠ [] → u ∈ cdnURLs site →
  ∃ rest, getOptimizedCDNOrder site σ = u :: rest.
Proof.
  intros Hs Hne Hin. unfold getOptimizedCDNOrder. rewrite Hs.
  destruct u as [|x u]; [done|]. cbn [truthy].
  destruct (indexOf_lookup _ _ Hin) as (i & -> & Hi).
  destruct i as [|i]; [|by eexists].
  destruct (cdnURLs site) as [|v rest]; [done|]. injection Hi as ->. by eexists.
Qed.

Lemma getOptimizedCDNOrder_configured σ :
  successfulCDN σ = None → getOptimizedCDNOrder site σ = cdnURLs site.
Proof. intros Hs. unfold getOptimizedCDNOrder. by rewrite Hs. Qed.

Lemma getFromCache_cleared σ w :
  cache_cleared site w → getFromCache site (σ, w) = (None, (σ, w)).
Proof.
  unfold cache_cleared, getFromCache, getItem. cbn [fst snd]. intros Hc.
  destruct (denied _); [reflexivity|]. by rewrite Hc.
Qed.

(** A cycle that ended with a stylesheet from the network remembers the CDN
    of the attempt it logged last. *)
Lemma fetched_remembered G c s :
  fetched site G script_kept c s →
  ∃ a, last (fetchAttempts (fst s)) = Some a ∧ success a = true
       ∧ successfulCDN (fst s) = Some (url a).
Proof.
  intros (u & m & rsp & s1 & s2 & _ & _ & _ & Hkept & ->).
  unfold finish, script_kept in *. cbn [fst snd] in *.
  rewrite saveToCache_fst, Hkept. cbn.
  eexists. rewrite last_snoc. done.
Qed.

(** The first request of a cycle that finds no cache entry goes to the head
    of the optimized order. *)
Lemma v4_first_request σ w :
  isFetching σ = false → cache_cleared site w →
  first_request (fetchCSS site (σ, w))
  = (λ u, (u, ViaFetch cors cache_default)) <$> list.head (getOptimizedCDNOrder site σ).
Proof.
  intros Hidle Hc. unfold fetchCSS, bind, gets, call. cbn [bind_step fst snd].
  rewrite Hidle. cbn [bind_step on_state modify fst snd].
  rewrite getFromCache_cleared by exact Hc. cbn [bind_step truthy fst snd].
  change (getOptimizedCDNOrder site (set_fetchAttempts [] (set_isFetching true σ)))
    with (getOptimizedCDNOrder site σ).
  destruct (getOptimizedCDNOrder site σ) as [|u rest]; reflexivity.
Qed.

Lemma v4_cycle_suspends σ w :
  isFetching σ = false → cache_cleared site w →
  immediate (fetchCSS site (σ, w)) = false.
Proof.
  intros Hidle Hc. unfold fetchCSS, bind, gets, call. cbn [bind_step fst snd].
  rewrite Hidle. cbn [bind_step on_state modify fst snd].
  rewrite getFromCache_cleared by exact Hc. cbn [bind_step truthy fst snd].
  destruct (getOptimizedCDNOrder site _) as [|u rest]; reflexivity.
Qed.

(** The cycle that [refresh] starts finds the remembered CDN forgotten. *)
Lemma v4_refresh_first_request σ w :
  truthy_value (isEnabled σ) = true → isFetching σ = false → readable w →
  first_request (refresh site (σ, w))
  = (λ u, (u, ViaFetch cors cache_default)) <$> list.head (cdnURLs site).
Proof.
  intros Hen Hidle Hrd. unfold readable in Hrd.
  unfold refresh, bind, on_state, on_world, modify, gets, clearCacheForRefresh, removeItem.
  cbn [bind_step fst snd]. rewrite Hrd. cbn [bind_step fst snd].
  change (isEnabled (set_cssContent None (set_successfulCDN None σ))) with (isEnabled σ).
  rewrite Hen. unfold awaited, loadAndApplyCSS, try_catch, bind.
  match goal with
  | |- first_request
         (a_turn_later (catch_step (bind_step (awaited _ (?σ', ?w')) _) _)) = _ =>
      assert (Hc : cache_cleared site w')
        by (unfold cache_cleared; cbn; apply lookup_delete_eq);
      pose proof (v4_first_request σ' w' Hidle Hc) as Hfirst;
      pose proof (v4_cycle_suspends σ' w' Hidle Hc) as Hsusp;
      unfold awaited;
      destruct (fetchCSS site (σ', w')) as [a s|e s|X ev s k]
  end; try discriminate Hsusp.
  rewrite getOptimizedCDNOrder_configured in Hfirst by reflexivity.
  exact Hfirst.
Qed.

End V4Promotion.

(** C6, as the code has it.  After a fetch cycle that succeeded from the 3rd
    candidate URL, a later cycle of the same process that finds no cache
    entry requests that URL first, ahead of the configured order.  The
    manual refresh action, which is what clears the cache, also forgets the
    remembered URL: the cycle it starts requests the first configured URL. *)
Theorem C6_promotion_unless_refreshed :
  ∀ site,
    (∀ (env : environment event V4.world) s c a,
       V4.isFetching (fst s) = false →
       fst (run env (V4.fetchCSS site) s) = Ok (Some c) →
       last (V4.fetchAttempts (fst (snd (run env (V4.fetchCSS site) s)))) = Some a →
       V4.cdnURLs site !! 2%nat = Some (V4.url a) → V4.url a ≠ [] →
       ∀ w, V4.cache_cleared site w →
            V4.first_request
              (V4.fetchCSS site (fst (snd (run env (V4.fetchCSS site) s)), w))
            = Some (V4.url a, ViaFetch cors cache_default))
    ∧ (∀ σ w,
         V4.truthy_value (V4.isEnabled σ) = true → V4.isFetching σ = false →
         V4.readable w →
         V4.first_request (V4.refresh site (σ, w))
         = (λ u, (u, ViaFetch cors cache_default)) <$> list.head (V4.cdnURLs site)).
Proof.
  intros site. split; [|apply v4_refresh_first_request].
  intros env s c a Hidle Hok Hlast Hthird Hne w Hclear.
  destruct (v4_fetchCSS_run site anything env s) as (r & Hr & Hflag & Hdone);
    [done|exact Hidle|].
  rewrite Hok in Hr. injection Hr as <-.
  destruct Hdone as (_ & [(_ & _ & Hnone)|Hnet]).
  { rewrite Hnone in Hlast. discriminate Hlast. }
  destruct (fetched_remembered site _ _ _ Hnet) as (a' & Hlast' & _ & Hcdn).
  rewrite Hlast in Hlast'. injection Hlast' as <-.
  rewrite v4_first_request by done.
  destruct (getOptimizedCDNOrder_head site _ _ Hcdn Hne) as (rest & ->);
    [|reflexivity].
  by eapply list_elem_of_lookup_2.
Qed.

Lemma C6_promotion_unless_refreshed_witness :
  V4.first_request (V4.fetchCSS V4.chatgpt (fst Examples.after_githack, Examples.fresh4))
  = Some (Examples.githack, ViaFetch cors cache_default)
  ∧ V4.first_request (V4.refresh V4.chatgpt Examples.after_githack)
    = Some (Examples.jsdelivr, ViaFetch cors cache_default).
Proof.
  destruct (C6_promotion_unless_refreshed V4.chatgpt) as [Hpromote Hrefresh].
  split.
  - apply (Hpromote (Examples.only Examples.githack) (V4.initial_state, Examples.fresh4)
             Examples.stylesheet
             (V4.mkAttempt Examples.githack V4.fetch true None (Some 15)));
      [reflexivity|reflexivity|reflexivity|reflexivity|vm_compute; discriminate|reflexivity].
  - apply (Hrefresh (fst Examples.after_githack) (snd Examples.after_githack));
      reflexivity.
Defined.

(** C6 as stated fails: a cycle succeeds from the 3rd CDN, the cache is then
    cleared by the refresh action, and the cycle this starts requests the
    first configured CDN first; the 3rd comes fifth. *)
Lemma C6_counterexample :
  fst (run (Examples.only Examples.githack) (V4.fetchCSS V4.chatgpt)
         (V4.initial_state, Examples.fresh4)) = Ok (Some Examples.stylesheet)
  ∧ V4.url <$> last (V4.fetchAttempts (fst Examples.after_githack)) = Some Examples.githack
  ∧ V4.cdnURLs V4.chatgpt !! 2%nat = Some Examples.githack
  ∧ V4.stored V4.chatgpt (snd Examples.after_githack)
      (V4.mkCache Examples.stylesheet 1000 Examples.githack)
  ∧ V4.first_request (V4.refresh V4.chatgpt Examples.after_githack)
    = Some (Examples.jsdelivr, ViaFetch cors cache_default)
  ∧ fst <$> requests_from (Examples.only Examples.githack) 0
              (V4.refresh V4.chatgpt Examples.after_githack)
    = [Examples.jsdelivr; Examples.jsdelivr;
       js "https://cdn.statically.io/gh/yfjuu4/ai-chat-styles/main/ChatGpt_style.css";
       js "https://cdn.statically.io/gh/yfjuu4/ai-chat-styles/main/ChatGpt_style.css";
       Examples.githack]
  ∧ Examples.jsdelivr ≠ Examples.githack.
Proof.
  repeat split; try reflexivity. vm_compute. discriminate.
Qed.

(** ** What counts as a successful attempt *)

Lemma includes_char (s : jsstring) (x : N) : includes s [x] = true ↔ x ∈ s.
Proof.
  induction s as [|d s IH]; cbn [includes startsWith].
  - split; [discriminate|]. intros H. by apply elem_of_nil in H.
  - rewrite orb_true_iff, andb_true_r, N.eqb_eq, IH, elem_of_cons. tauto.
Qed.

Lemma trim_nonempty (c : jsstring) :
  negb (truthy (Some c)) || (jslength (trim c) =? 0) = false ↔ trim c ≠ [].
Proof.
  unfold jslength. destruct c as [|x c]; [cbn; split; [discriminate|done]|].
  cbn [truthy negb orb]. rewrite Z.eqb_neq.
  destruct (trim (x :: c)); cbn [length]; split; intros H; try done; lia.
Qed.

Lemma v4_validate_iff c :
  V4.validate c = None ↔ trim c ≠ [] ∧ 10 ≤ jslength c ∧ 123%N ∈ c.
Proof.
  unfold V4.validate. rewrite <- trim_nonempty, <- includes_char.
  change (js "{") with [123%N].
  destruct (negb (truthy (Some c)) || (jslength (trim c) =? 0));
    [split; [discriminate|intros [? _]; discriminate]|].
  destruct (jslength c <? 10) eqn:Hlen; cbn [orb].
  - apply Z.ltb_lt in Hlen. split; [discriminate|]. intros (_ & ? & _). lia.
  - apply Z.ltb_ge in Hlen. destruct (includes c [123%N]); cbn [negb].
    + split; [intros _; repeat split; done|done].
    + split; [discriminate|]. intros (_ & _ & ?). discriminate.
Qed.

Lemma v4_accepted_iff m r :
  V4.accepted m r = true ↔
  ∃ status body, r = Http status body ∧ status_ok status = true
                 ∧ V4.validate body = None.
Proof.
  unfold V4.accepted, V4.receive. split.
  - destruct m, r as [[]|status body]; try discriminate;
      destruct (status_ok status) eqn:Hok; cbn; try discriminate;
      intros H%bool_decide_eq_true; eauto.
  - intros (status & body & -> & Hok & Hv). destruct m; rewrite Hok; cbn;
      by apply bool_decide_eq_true.
Qed.
(** One turn of the loop over the methods, run: an accepted reply ends the
    walk with its text; any other is logged and the walk goes on with the
    methods left. *)
Lemma v4_try_methods_run site u m rest (env : environment event V4.world) n s :
  let r := fst (env n _ (Request u (V4.transport_of m)) (snd s)) in
  if V4.accepted m r
  then ∃ c, V4.receive m r = inr c
            ∧ fst (run_from env n (V4.try_methods site u (m :: rest) s)) = Ok (Some c)
            ∧ requests_from env n (V4.try_methods site u (m :: rest) s)
              = [(u, V4.transport_of m)]
  else ∃ k s',
         V4.fetchAttempts (fst s')
         = V4.fetchAttempts (fst s)
           ++ [V4.mkAttempt u m false (Some (V4.rejection m r)) None]
         ∧ run_from env n (V4.try_methods site u (m :: rest) s)
           = run_from env k (V4.try_methods site u rest s')
         ∧ requests_from env n (V4.try_methods site u (m :: rest) s)
           = (u, V4.transport_of m) :: requests_from env k (V4.try_methods site u rest s').
Proof.
  unfold requests_from, V4.accepted, V4.rejection.
  cbn [V4.try_methods]. unfold bind, try_catch, awaited, V4.fetchFromURL, try_catch, bind, await.
  cbn [bind_step catch_step a_turn_later run_from events_from].
  destruct (env n response (Request u (V4.transport_of m)) (snd s)) as [r w'].
  cbn [fst snd].
  destruct (V4.receive m r) as [e|c] eqn:Hrcv.
  - cbn. destruct (env (S n) unit Tick w') as [[] w2]. cbn.
    eexists _, _. split; [|split; reflexivity]. reflexivity.
  - destruct m; cbn.
    + destruct (env (S n) unit Tick w') as [[] w2]. cbn.
      destruct (V4.validate c) as [e|] eqn:Hv.
      * cbn. destruct (env (S (S n)) unit Tick w2) as [[] w3]. cbn.
        eexists _, _. split; [|split; reflexivity]. reflexivity.
      * rewrite bool_decide_eq_true_2 by done. cbn.
        destruct (env (S (S n)) unit Tick w2) as [[] w3]. cbn.
        destruct c as [|x c]; [discriminate Hv|]. cbn. eauto.
    + destruct (V4.validate c) as [e|] eqn:Hv.
      * cbn. destruct (env (S n) unit Tick w') as [[] w2]. cbn.
        eexists _, _. split; [|split; reflexivity]. reflexivity.
      * rewrite bool_decide_eq_true_2 by done. cbn.
        destruct (env (S n) unit Tick w') as [[] w2]. cbn.
        destruct c as [|x c]; [discriminate Hv|]. cbn. eauto.
Qed.
Lemma v3_fetchDirect_run site (env : environment event V3.world) n s :
  let r := fst (env n _ (Request (V3.styleURL site) (ViaFetch cors no_store)) (snd s)) in
  requests_from env n (V3.fetchDirect site s)
  = [(V3.styleURL site, ViaFetch cors no_store)]
  ∧ match r with
    | Http status body =>
        if V3.usable r
        then fst (run_from env n (V3.fetchDirect site s)) = Ok body
        else ∃ e, fst (run_from env n (V3.fetchDirect site s)) = Thrown e
    | Failed f => fst (run_from env n (V3.fetchDirect site s)) = Thrown (TransportError f)
    end.
Proof.
  unfold requests_from, V3.fetchDirect, bind, await.
  cbn [bind_step run_from events_from].
  destruct (env n response _ (snd s)) as [[f|status body] w']; cbn; [done|].
  destruct (status_ok status); cbn; [|by eauto].
  destruct (env (S n) unit Tick w') as [[] w2]. cbn.
  destruct (jslength (trim body) =? 0) eqn:Hz; cbn [negb].
  - rewrite orb_true_r. cbn. by eauto.
  - destruct body as [|x body]; [vm_compute in Hz; discriminate Hz|]. done.
Qed.

Lemma v3_fetchViaGM_run site (env : environment event V3.world) n s :
  let r := fst (env n _ (Request (V3.styleURL site) ViaGM) (snd s)) in
  requests_from env n (V3.fetchViaGM site s) = [(V3.styleURL site, ViaGM)]
  ∧ match r with
    | Http status body =>
        if V3.usable r
        then fst (run_from env n (V3.fetchViaGM site s)) = Ok body
        else ∃ e, fst (run_from env n (V3.fetchViaGM site s)) = Thrown e
    | Failed f => ∃ e, fst (run_from env n (V3.fetchViaGM site s)) = Thrown e
    end.
Proof.
  unfold requests_from, V3.fetchViaGM, bind, await.
  cbn [bind_step run_from events_from].
  destruct (env n response _ (snd s)) as [[f|status body] w']; cbn.
  { destruct f; cbn; by eauto. }
  destruct (status_ok status); cbn; [|by eauto].
  destruct (jslength (trim body) =? 0) eqn:Hz; cbn [negb].
  - apply Z.eqb_eq in Hz. rewrite Hz, andb_false_r. by eauto.
  - assert ((jslength (trim body) >? 0) = true) as ->.
    { apply Z.eqb_neq in Hz. apply gtb_true. unfold jslength in *. lia. }
    destruct body as [|x body]; [vm_compute in Hz; discriminate Hz|]. done.
Qed.

(** C4, as the code has it.  In v4.0 an attempt counts as successful exactly
    when the reply has a success status and a body that is non-empty after
    trimming, at least 10 code units long and contains an opening brace; any
    other reply is logged as a failure and the next method, then the next
    CDN, is tried.  In v3.0, [fetchDirect] and [fetchViaGM] ask only for a
    success status and a body that is non-empty after trimming: there is no
    length floor and no brace test. *)
Theorem C4_shape_check_in_v4_only :
  (∀ c, V4.validate c = None ↔ trim c ≠ [] ∧ 10 ≤ jslength c ∧ 123%N ∈ c)
  ∧ (∀ m r, V4.accepted m r = true ↔
            ∃ status body, r = Http status body ∧ status_ok status = true
                           ∧ V4.validate body = None)
  ∧ (∀ site u m rest (env : environment event V4.world) n s,
       let r := fst (env n _ (Request u (V4.transport_of m)) (snd s)) in
       if V4.accepted m r
       then ∃ c, V4.receive m r = inr c
                 ∧ fst (run_from env n (V4.try_methods site u (m :: rest) s))
                   = Ok (Some c)
                 ∧ requests_from env n (V4.try_methods site u (m :: rest) s)
                   = [(u, V4.transport_of m)]
       else ∃ k s',
              V4.fetchAttempts (fst s')
              = V4.fetchAttempts (fst s)
                ++ [V4.mkAttempt u m false (Some (V4.rejection m r)) None]
              ∧ run_from env n (V4.try_methods site u (m :: rest) s)
                = run_from env k (V4.try_methods site u rest s')
              ∧ requests_from env n (V4.try_methods site u (m :: rest) s)
                = (u, V4.transport_of m)
                  :: requests_from env k (V4.try_methods site u rest s'))
  ∧ (∀ site u rest s,
       V4.try_urls site (u :: rest) s
       = bind_step (V4.try_methods site u V4.methods s)
           (λ r, match r with
                 | Some c => ret (Some c)
                 | None => V4.try_urls site rest
                 end))
  ∧ (∀ site (env : environment event V3.world) n s,
       let r := fst (env n _ (Request (V3.styleURL site) (ViaFetch cors no_store))
                       (snd s)) in
       requests_from env n (V3.fetchDirect site s)
       = [(V3.styleURL site, ViaFetch cors no_store)]
       ∧ match r with
         | Http status body =>
             if V3.usable r
             then fst (run_from env n (V3.fetchDirect site s)) = Ok body
             else ∃ e, fst (run_from env n (V3.fetchDirect site s)) = Thrown e
         | Failed f =>
             fst (run_from env n (V3.fetchDirect site s)) = Thrown (TransportError f)
         end)
  ∧ (∀ site (env : environment event V3.world) n s,
       let r := fst (env n _ (Request (V3.styleURL site) ViaGM) (snd s)) in
       requests_from env n (V3.fetchViaGM site s) = [(V3.styleURL site, ViaGM)]
       ∧ match r with
         | Http status body =>
             if V3.usable r
             then fst (run_from env n (V3.fetchViaGM site s)) = Ok body
             else ∃ e, fst (run_from env n (V3.fetchViaGM site s)) = Thrown e
         | Failed f => ∃ e, fst (run_from env n (V3.fetchViaGM site s)) = Thrown e
         end).
Proof.
  split; [exact v4_validate_iff|]. split; [exact v4_accepted_iff|].
  split; [exact v4_try_methods_run|].
  split; [reflexivity|].
  split; [exact v3_fetchDirect_run|exact v3_fetchViaGM_run].
Qed.

Lemma C4_shape_check_in_v4_only_witness :
  V4.validate Examples.stylesheet = None
  ∧ V4.accepted V4.fetch (Http 200 Examples.stylesheet) = true.
Proof.
  destruct C4_shape_check_in_v4_only as (Hv & Ha & _).
  split.
  - apply Hv. split; [vm_compute; discriminate|].
    split; [vm_compute; discriminate|].
    apply list_elem_of_In. vm_compute. tauto.
  - apply Ha. exists 200, Examples.stylesheet. repeat split.
Defined.

(** C4 as stated fails on v3.0: a reply with a success status whose body is
    5 code units long and has no brace is returned as the stylesheet by
    [fetchDirect] and by [fetchViaGM], and becomes the result of the fetch. *)
Lemma C4_counterexample :
  let reply : environment event V3.world := λ n X ev w,
    match ev in event X return X * V3.world with
    | Request _ _ => (Http 200 (js "hello"), w)
    | Sleep _ => (tt, w)
    | WaitForElement _ _ => (true, w)
    | LinkSettles _ => (Loaded, w)
    | Tick => (tt, w)
    end in
  jslength (js "hello") < 10
  ∧ (123%N ∉ js "hello")
  ∧ fst (run reply (V3.fetchDirect V3.chatgpt)
           (V3.initial_state Examples.fresh3 false, Examples.fresh3))
    = Ok (js "hello")
  ∧ fst (run reply (V3.fetchViaGM V3.chatgpt)
           (V3.initial_state Examples.fresh3 false, Examples.fresh3))
    = Ok (js "hello")
  ∧ fst (run reply (V3.fetchExternalCSS V3.chatgpt)
           (V3.initial_state Examples.fresh3 false, Examples.fresh3))
    = Ok (js "hello").
Proof.
  cbv zeta. split; [vm_compute; reflexivity|].
  split; [intros H%list_elem_of_In; vm_compute in H; intuition discriminate|].
  repeat split; reflexivity.
Qed.

(** ** Tasks that keep an invariant *)

Section Preserves.
Context {E : Type → Type} {St : Type}.
Variable G : ∀ X, E X → X → Prop.
Variable P : St → Prop.

Lemma preserves_ret {A} (a : A) : preserves G P (ret a).
Proof. intros s Hs. exact Hs. Qed.

Lemma preserves_throw {A} (e : exn) : preserves G P (throw (A := A) e).
Proof. intros s Hs. exact Hs. Qed.

Lemma preserves_await {X} (ev : E X) : preserves G P (await ev).
Proof. intros s Hs. split; [exact Hs|]. intros x s' _ Hs'. exact Hs'. Qed.

Lemma preserves_gets {A} (f : St → A) : preserves G P (gets f).
Proof. intros s Hs. exact Hs. Qed.

Lemma preserves_modify (f : St → St) :
  (∀ s, P s → P (f s)) → preserves G P (modify f).
Proof. intros Hf s Hs. by apply Hf. Qed.

Lemma preserves_call {A} (f : St → A * St) :
  (∀ s, P s → P (snd (f s))) → preserves G P (call f).
Proof.
  intros Hf s Hs. unfold call. specialize (Hf s Hs). by destruct (f s).
Qed.

Lemma preserves_bind {A B} (m : task E St A) (f : A → task E St B) :
  preserves G P m → (∀ a, preserves G P (f a)) → preserves G P (bind m f).
Proof.
  intros Hm Hf s Hs. unfold bind. eapply always_bind; [by apply Hm|].
  intros a s' Hs'. by apply Hf.
Qed.

Lemma preserves_catch {A} (m : task E St A) (h : exn → task E St A) :
  preserves G P m → (∀ e, preserves G P (h e)) → preserves G P (try_catch m h).
Proof.
  intros Hm Hh s Hs. unfold try_catch. eapply always_catch; [by apply Hm|].
  intros e s' Hs'. by apply Hh.
Qed.
End Preserves.

Lemma preserves_awaited {St A} (G : ∀ X, event X → X → Prop) (P : St → Prop)
    (t : task event St A) :
  preserves G P t → preserves G P (awaited t).
Proof.
  intros Ht s Hs. unfold awaited.
  eapply always_weaken; [apply always_awaited; [by apply Ht|done|done]| |];
    cbn; intros ? ? (? & ? & ?); done.
Qed.

(** Goals [preserves G P t] for a task [t] written with the combinators. *)
Ltac preserve_step :=
  first
    [ apply preserves_ret
    | apply preserves_throw
    | apply preserves_await
    | apply preserves_gets
    | apply preserves_bind; [|intros ?]
    | apply preserves_catch; [|intros ?]
    | apply preserves_awaited
    | match goal with
      | |- preserves _ _ (match ?x with _ => _ end) => destruct x
      | |- preserves _ _ (let (_, _) := ?x in _) => destruct x
      end ].

Ltac preserve := repeat preserve_step.

(** ** v3.0: what the fetch leaves alone *)

Section V3Keeps.
Import V3.
Variable site : SiteProfile.
Variable G : ∀ X, event X → X → Prop.

(** A property of the apply-in-progress flag and of the document. *)
Variable P : St → Prop.
Hypothesis P_kept :
  ∀ s s', isLoading (fst s') = isLoading (fst s) →
          document (snd s') = document (snd s) → P s → P s'.

Lemma on_state_keeps (f : state → state) :
  (∀ σ, isLoading (f σ) = isLoading σ) → preserves G P (on_state f).
Proof.
  intros Hf. apply preserves_modify. intros [σ w]. apply P_kept; [apply Hf|done].
Qed.

Lemma on_world_keeps (f : world → world) :
  (∀ w, document (f w) = document w) → preserves G P (on_world f).
Proof.
  intros Hf. apply preserves_modify. intros [σ w]. apply P_kept; [done|apply Hf].
Qed.

Lemma lift_keeps {A} (r : exn + A) : preserves G P (lift r).
Proof. destruct r; preserve. Qed.

Lemma setValue_document key v w : document (snd (setValue key v w)) = document w.
Proof.
  unfold setValue. destruct (GM_values w) as [g|].
  - by destruct (setItem key (Json v) g).
  - by destruct (setItem key (JSON_stringify v) (localStorage w)).
Qed.

Ltac keep :=
  repeat first
    [ preserve_step
    | apply lift_keeps
    | apply on_world_keeps; intros ?; apply setValue_document
    | apply on_state_keeps; intros ?; reflexivity ].

Lemma fetchViaGM_keeps : preserves G P (fetchViaGM site).
Proof. unfold fetchViaGM. keep. Qed.

Lemma fetchDirect_keeps : preserves G P (fetchDirect site).
Proof. unfold fetchDirect. keep. Qed.

Lemma berry_strategies_keeps l : preserves G P (berry_strategies site l).
Proof.
  induction l as [|[mode cache] rest IH]; cbn [berry_strategies]; keep. exact IH.
Qed.

Lemma fetchForBerryBrowser_keeps : preserves G P (fetchForBerryBrowser site).
Proof.
  unfold fetchForBerryBrowser. keep; apply berry_strategies_keeps.
Qed.

Lemma fetchGitHubFallback_keeps : preserves G P (fetchGitHubFallback site).
Proof. unfold fetchGitHubFallback. keep. Qed.

Lemma fetchProxied_keeps u : preserves G P (fetchProxied u).
Proof. unfold fetchProxied. keep. Qed.

Lemma primary_proxies_keeps l : preserves G P (primary_proxies l).
Proof.
  induction l as [|u rest IH]; cbn [primary_proxies]; keep;
    first [apply fetchProxied_keeps|exact IH].
Qed.

Lemma fallback_proxies_keeps l : preserves G P (fallback_proxies l).
Proof.
  induction l as [|u rest IH]; cbn [fallback_proxies]; keep;
    first [apply fetchProxied_keeps|exact IH].
Qed.

Lemma fetchViaCORSProxy_keeps : preserves G P (fetchViaCORSProxy site).
Proof.
  unfold fetchViaCORSProxy. keep;
    first [apply primary_proxies_keeps|apply fallback_proxies_keeps].
Qed.

Lemma stage_keeps fetcher status :
  preserves G P fetcher → preserves G P (stage site fetcher status).
Proof. intros Hf. unfold stage, setCachedCSS. keep. exact Hf. Qed.

(** The fetch touches neither the flag nor the document. *)
Lemma fetchExternalCSS_keeps : preserves G P (fetchExternalCSS site).
Proof.
  unfold fetchExternalCSS. keep;
    first [apply stage_keeps; keep|idtac];
    first [apply fetchGitHubFallback_keeps
          |apply fetchViaCORSProxy_keeps
          |apply fetchForBerryBrowser_keeps
          |apply fetchDirect_keeps
          |apply fetchViaGM_keeps].
Qed.

Lemma waitForPageReady_keeps : preserves G P (waitForPageReady site).
Proof. unfold waitForPageReady. keep. Qed.

End V3Keeps.

(** ** v3.0: the apply-in-progress flag *)

Section V3Loading.
Import V3.
Variable site : SiteProfile.
Variable G : ∀ X, event X → X → Prop.

Lemma loading_kept (s s' : St) :
  isLoading (fst s') = isLoading (fst s) →
  document (snd s') = document (snd s) → loading s → loading s'.
Proof. unfold loading. congruence. Qed.

Lemma modify_keeps_loading (f : St → St) :
  (∀ s, isLoading (fst (f s)) = isLoading (fst s)) → preserves G loading (modify f).
Proof.
  intros Hf. apply preserves_modify. intros s. unfold loading. by rewrite Hf.
Qed.

Lemma call_keeps_loading {A} (f : St → A * St) :
  (∀ s, isLoading (fst (snd (f s))) = isLoading (fst s)) →
  preserves G loading (call f).
Proof.
  intros Hf. apply preserves_call. intros s. unfold loading. by rewrite Hf.
Qed.

Lemma newElement_state t h text attrs (s : St) :
  fst (snd (newElement site t h text attrs s)) = fst s.
Proof. reflexivity. Qed.

Lemma injector_keeps_loading m : preserves G loading (injector site m).
Proof.
  destruct m; cbn [injector];
    unfold injectViaBlob, injectViaStyle, injectViaExternalLink, on_state, on_world;
    preserve;
    first [apply call_keeps_loading|apply modify_keeps_loading];
    intros s; reflexivity.
Qed.

(** The loop over the injection methods lowers the flag only when it returns
    [true]. *)
Lemma try_injections_always ms s :
  loading s →
  always G (λ _, loading) loading (λ done s', done = false → loading s')
    (λ _, loading) (try_injections site ms s).
Proof.
  revert s. induction ms as [|m rest IH]; intros s Hs; [by intros _|].
  cbn [try_injections]. unfold bind, try_catch.
  eapply always_bind with (Q := λ done s', done = false → loading s').
  - eapply always_catch with (R := λ _, loading).
    + eapply always_bind with (Q := λ _, loading);
        [apply preserves_awaited; [apply injector_keeps_loading|done]|].
      intros [|] s' Hs'; cbn; [discriminate|by intros _].
    + intros e s' Hs'. by intros _.
  - intros [|] s' Hs'; cbn; [discriminate|]. by apply IH, Hs'.
Qed.

(** [apply] suspends only with the flag up. *)
Lemma v3_apply_always s :
  always G (λ _, loading) loading (λ _ _, True) (λ _ _, True) (apply site s).
Proof.
  unfold apply, bind, gets. cbn [bind_step].
  destruct (negb _ || _); [exact I|]. cbn [bind_step].
  destruct (_ <? 500); [exact I|].
  cbn [bind_step on_state modify fst snd].
  unfold try_catch.
  eapply always_catch with (R := λ _, loading); [|intros; exact I].
  eapply always_bind with (Q := λ _, loading).
  { apply preserves_awaited; [|reflexivity].
    apply waitForPageReady_keeps. }
  intros _ s1 Hs1. cbn [bind_step].
  eapply always_bind with (Q := λ _, loading).
  { destruct (negb (truthy (cssContent (fst s1)))); [|exact Hs1].
    eapply always_bind with (Q := λ _, loading).
    - apply preserves_awaited; [|done].
      apply fetchExternalCSS_keeps, loading_kept.
    - intros _ s2 Hs2. exact Hs2. }
  intros _ s2 Hs2. cbn [bind_step].
  destruct (negb _ || _); [exact Hs2|].
  eapply always_bind with (Q := λ done s', done = false → loading s');
    [by apply try_injections_always|].
  intros [|] s3 Hs3; [exact I|]. by apply Hs3.
Qed.

End V3Loading.

(** ** Overlapping calls *)

Lemma v3_apply_busy site s :
  V3.isLoading (fst s) = true → V3.apply site s = Return false s.
Proof.
  intros H. unfold V3.apply, bind, gets. cbn [bind_step]. rewrite H.
  by rewrite orb_true_r.
Qed.

Lemma v3_flag_up_in_flight site s0 s :
  suspended V3.flag_kept (V3.apply site s0) s → V3.loading s.
Proof.
  intros Hs.
  eapply (always_suspended anything (λ _, V3.loading) V3.loading _ _ V3.flag_kept);
    [done| |apply (v3_apply_always site anything s0)|exact Hs].
  unfold V3.loading, V3.flag_kept. congruence.
Qed.

(** C3. A second call that begins while the first is still in flight starts
    no second walk: in v4.0, [fetchCSS] called while an earlier [fetchCSS]
    call is suspended (in the state it was suspended in, or after other code
    that leaves the flag alone has run) returns null at once, without a
    request and without changing the state; in v3.0, where the fetch is
    only reached through [apply], [apply] called while an earlier [apply] is
    suspended returns false at once in the same way. *)
Theorem C3_no_second_walk_in_flight :
  (∀ site s0 s s',
     V4.isFetching (fst s0) = false →
     suspended V4.flag_kept (V4.fetchCSS site s0) s →
     V4.flag_kept s s' →
     V4.fetchCSS site s' = Return None s')
  ∧ (∀ site s0 s s',
       suspended V3.flag_kept (V3.apply site s0) s →
       V3.flag_kept s s' →
       V3.apply site s' = Return false s').
Proof.
  split.
  - intros site s0 s s' Hidle Hs Hkept. apply v4_fetchCSS_busy.
    pose proof (v4_flag_up_in_flight site s0 s Hidle Hs) as Hup.
    unfold V4.fetching, V4.flag_kept in *. congruence.
  - intros site s0 s s' Hs Hkept. apply v3_apply_busy.
    pose proof (v3_flag_up_in_flight site s0 s Hs) as Hup.
    unfold V3.loading, V3.flag_kept in *. congruence.
Qed.

Lemma C3_no_second_walk_in_flight_witness :
  V4.fetchCSS V4.chatgpt Examples.in_flight4 = Return None Examples.in_flight4
  ∧ V3.apply V3.chatgpt Examples.in_flight3 = Return false Examples.in_flight3.
Proof.
  destruct C3_no_second_walk_in_flight as [H4 H3].
  split.
  - apply (H4 V4.chatgpt (V4.initial_state, Examples.fresh4) Examples.in_flight4);
      [reflexivity| |reflexivity].
    left. reflexivity.
  - apply (H3 V3.chatgpt Examples.start3 Examples.in_flight3); [|reflexivity].
    left. reflexivity.
Defined.

(** C3 as stated fails on v2.2, whose [fetchCSS] has no in-flight flag:
    called in the state in which a first call waits for its first reply, it
    does not return at once but makes that request again and goes through
    the URLs in its turn. *)
Lemma C3_counterexample :
  suspended eq (V2.fetchCSS V2.claude (V2.mkState None false, Examples.fresh2))
    (V2.mkState None false, Examples.fresh2)
  ∧ immediate (V2.fetchCSS V2.claude (V2.mkState None false, Examples.fresh2)) = false
  ∧ requests_from Examples.offline 0
      (V2.fetchCSS V2.claude (V2.mkState None false, Examples.fresh2))
    = [(V2.styleURL V2.claude, ViaFetch cors no_cache);
       (V2.backupStyleURL V2.claude, ViaFetch cors no_cache)].
Proof.
  split; [left; reflexivity|]. split; reflexivity.
Qed.

(** ** Exhaustion *)

Section V3Exhaustion.
Import V3.
Variable site : SiteProfile.

Abbreviation always_refused := (always refused (λ _ _, True) (λ _, True)).

(** A hopeless reply passes none of the tests of the fetch methods. *)
Lemma hopeless_ok_text r :
  hopeless r = true →
  match ok_text_of r with
  | inr c => (jslength (trim c) =? 0) = true
  | inl _ => True
  end.
Proof.
  destruct r as [f|status body]; cbn; [done|].
  destruct (status_ok status); cbn; [|done]. by rewrite orb_false_r.
Qed.

Lemma hopeless_text r :
  hopeless r = true →
  match text_of r with
  | inr c => (jslength (trim c) >? 10) = false
  | inl _ => True
  end.
Proof.
  destruct r as [f|status body]; cbn; [done|].
  intros H. apply gtb_false.
  apply orb_true_iff in H as [H|H].
  - apply Z.eqb_eq in H. lia.
  - apply andb_true_iff in H as [_ H]. by apply Z.leb_le.
Qed.

(** Awaiting a call that never returns and may throw is such a call. *)
Lemma awaited_refused {A} (t : Task A) s :
  always_refused (λ _ _, False) (λ _ _, True) (t s) →
  always_refused (λ _ _, False) (λ _ _, True) (awaited t s).
Proof.
  intros H. unfold awaited.
  eapply always_weaken; [apply always_awaited; [exact H|done|done]| |]; cbn.
  - by intros a s' (? & ? & _).
  - done.
Qed.

Lemma eqb0_gtb0 z : (z =? 0) = true → (z >? 0) = false.
Proof. intros H%Z.eqb_eq. apply gtb_false. lia. Qed.

Lemma fetchViaGM_refused s :
  always_refused (λ _ _, False) (λ _ _, True) (fetchViaGM site s).
Proof.
  unfold fetchViaGM, bind, await. cbn. split; [exact I|]. intros r s' Hr _.
  pose proof (hopeless_ok_text r Hr) as Hok.
  destruct r as [[]|status body]; cbn in *; try exact I.
  destruct (status_ok status); cbn in *; [|exact I].
  rewrite (eqb0_gtb0 _ Hok), andb_false_r. exact I.
Qed.

Lemma fetchDirect_refused s :
  always_refused (λ _ _, False) (λ _ _, True) (fetchDirect site s).
Proof.
  unfold fetchDirect, bind, await. cbn. split; [exact I|]. intros r s' Hr _.
  pose proof (hopeless_ok_text r Hr) as Hok.
  destruct (ok_text_of r) as [e|c]; cbn; [exact I|].
  split; [exact I|]. intros _ s'' _ _.
  rewrite Hok, orb_true_r. exact I.
Qed.

Lemma fetchGitHubFallback_refused s :
  always_refused (λ _ _, False) (λ _ _, True) (fetchGitHubFallback site s).
Proof.
  unfold fetchGitHubFallback. destruct (negb (truthy (fallbackURL site))); [exact I|].
  unfold bind, await. cbn. split; [exact I|]. intros r s' Hr _.
  pose proof (hopeless_ok_text r Hr) as Hok.
  destruct (ok_text_of r) as [e|c]; cbn; [exact I|].
  split; [exact I|]. intros _ s'' _ _.
  rewrite Hok, orb_true_r. exact I.
Qed.

Lemma berry_strategies_refused l s :
  always_refused (λ r _, r = None) (λ _ _, False) (berry_strategies site l s).
Proof.
  revert s. induction l as [|[mode cache] rest IH]; intros s; [reflexivity|].
  cbn [berry_strategies]. unfold bind, try_catch, await. cbn.
  split; [exact I|]. intros r s' Hr _.
  pose proof (hopeless_text r Hr) as Hshort.
  destruct (text_of r) as [e|c]; cbn; [apply IH|].
  split; [exact I|]. intros _ s'' _ _.
  rewrite Hshort, andb_false_r. cbn. apply IH.
Qed.

Lemma fetchForBerryBrowser_refused s :
  always_refused (λ _ _, False) (λ _ _, True) (fetchForBerryBrowser site s).
Proof.
  unfold fetchForBerryBrowser, bind. cbn [on_state modify bind_step].
  eapply always_bind with (Q := λ r _, r = None).
  { eapply always_weaken; [apply berry_strategies_refused|done|done]. }
  intros r s1 ->. cbn [bind_step].
  destruct (truthy (fallbackURL site)); [|exact I].
  unfold try_catch, await. cbn. split; [exact I|]. intros r s' Hr _.
  pose proof (hopeless_text r Hr) as Hshort.
  destruct (text_of r) as [e|c]; cbn; [exact I|].
  split; [exact I|]. intros _ s'' _ _.
  rewrite Hshort, andb_false_r. exact I.
Qed.

Lemma fetchProxied_refused u s :
  always_refused (λ r _, r = None) (λ _ _, True) (fetchProxied u s).
Proof.
  unfold fetchProxied, bind, await. cbn. split; [exact I|]. intros r s' Hr _.
  pose proof (hopeless_ok_text r Hr) as Hok.
  destruct (ok_text_of r) as [e|c]; cbn; [exact I|].
  split; [exact I|]. intros _ s'' _ _.
  by rewrite (eqb0_gtb0 _ Hok), andb_false_r.
Qed.

Lemma primary_proxies_refused l s :
  always_refused (λ r _, r = None) (λ _ _, False) (primary_proxies l s).
Proof.
  revert s. induction l as [|u rest IH]; intros s; [reflexivity|].
  cbn [primary_proxies]. unfold bind, try_catch.
  eapply always_bind with (Q := λ r _, r = None).
  - eapply always_catch; [apply fetchProxied_refused|]. by intros.
  - intros r s' ->. apply IH.
Qed.

Lemma fallback_proxies_refused l s :
  always_refused (λ r _, r = None) (λ _ _, True) (fallback_proxies l s).
Proof.
  revert s. induction l as [|u rest IH]; intros s; [reflexivity|].
  cbn [fallback_proxies]. unfold bind, try_catch.
  eapply always_bind with (Q := λ r _, r = None).
  - eapply always_catch; [apply fetchProxied_refused|].
    intros e s' _. by destruct rest.
  - intros r s' ->. apply IH.
Qed.

Lemma fetchViaCORSProxy_refused s :
  always_refused (λ _ _, False) (λ _ _, True) (fetchViaCORSProxy site s).
Proof.
  unfold fetchViaCORSProxy. destruct (encodeURIComponent (styleURL site)); [|exact I].
  unfold bind.
  eapply always_bind with (Q := λ r _, r = None).
  { eapply always_weaken; [apply primary_proxies_refused|done|done]. }
  intros r s1 ->. cbn [bind_step].
  eapply always_bind with (Q := λ r _, r = None).
  - destruct (truthy (fallbackURL site)); [|reflexivity].
    destruct (encodeURIComponent _); [|exact I]. apply fallback_proxies_refused.
  - intros r s2 ->. exact I.
Qed.

(** A stage whose fetcher never returns gives nothing and throws nothing. *)
Lemma stage_refused fetcher status (R : exn → St → Prop) s :
  (∀ s, always_refused (λ _ _, False) (λ _ _, True) (fetcher s)) →
  always_refused (λ r _, r = None) R (stage site fetcher status s).
Proof.
  intros Hf. unfold stage, try_catch, bind.
  eapply always_catch with (R := λ _ _, True).
  - eapply always_bind; [apply Hf|]. by intros.
  - by intros.
Qed.

Lemma fetchExternalCSS_refused s :
  cache_miss site (snd s) →
  always_refused (λ _ _, False)
    (λ e _, e = Error "Could not fetch CSS from any source")
    (fetchExternalCSS site s).
Proof.
  unfold cache_miss. intros Hmiss.
  unfold fetchExternalCSS, bind, gets. cbn [on_state modify bind_step fst snd].
  rewrite Hmiss. cbn [bind_step].
  eapply always_bind with (Q := λ r _, r = None).
  { destruct (_ && _); [|reflexivity]. apply stage_refused; intros; apply fetchViaGM_refused. }
  intros r s1 ->. cbn [bind_step].
  eapply always_bind with (Q := λ r _, r = None).
  { destruct (isBerryBrowser _); [|reflexivity].
    apply stage_refused; intros; apply awaited_refused, fetchForBerryBrowser_refused. }
  intros r s2 ->.
  eapply always_bind with (Q := λ r _, r = None);
    [apply stage_refused; intros; apply awaited_refused, fetchDirect_refused|].
  intros r s3 ->.
  eapply always_bind with (Q := λ r _, r = None).
  { destruct (truthy (fallbackURL site)); [|reflexivity].
    apply stage_refused; intros; apply awaited_refused, fetchGitHubFallback_refused. }
  intros r s4 ->.
  eapply always_bind with (Q := λ r _, r = None);
    [apply stage_refused; intros; apply awaited_refused, fetchViaCORSProxy_refused|].
  intros r s5 ->. reflexivity.
Qed.

(** With nothing cached and nothing usable from the network, the fetch ends
    in its single error. *)
Lemma v3_exhausted (env : environment event world) s :
  (∀ n X ev w, refused X ev (fst (env n X ev w))) →
  cache_miss site (snd s) →
  fst (run env (fetchExternalCSS site) s)
  = Thrown (Error "Could not fetch CSS from any source").
Proof.
  intros Href Hmiss.
  pose proof (always_run refused (λ _ _, True) (λ _, True)
                (λ (_ : jsstring) _, False)
                (λ e _, e = Error "Could not fetch CSS from any source")
                env 0 (fetchExternalCSS site s) Href) as H.
  unfold run. destruct (run_from env 0 (fetchExternalCSS site s)) as [[c|e] s'];
    cbn [fst].
  - exfalso. apply H; [done|]. by apply fetchExternalCSS_refused.
  - f_equal. apply H; [done|]. by apply fetchExternalCSS_refused.
Qed.

(** [apply] never throws. *)
Lemma v3_apply_total (env : environment event world) s :
  ∃ b, fst (run env (apply site) s) = Ok b.
Proof.
  pose proof (always_run anything (λ _ _, True) (λ _, True)
                (λ (_ : bool) _, True) (λ _ _, False) env 0 (apply site s)) as H.
  unfold run. destruct (run_from env 0 (apply site s)) as [[b|e] s']; [by eexists|].
  exfalso. apply H; [done|done|].
  unfold apply, bind, gets. cbn [bind_step].
  destruct (negb _ || _); [exact I|]. cbn [bind_step].
  destruct (_ <? 500); [exact I|].
  cbn [bind_step on_state modify fst snd]. unfold try_catch.
  eapply always_catch; [apply always_trivial|]. intros; exact I.
Qed.

End V3Exhaustion.

(** Outside Berry Browser, where every fetch method on the way tests the
    status: no reply that is not [usable] is taken for a stylesheet. *)
Section V3Standard.
Import V3.
Variable site : SiteProfile.

Abbreviation always_failed :=
  (always (refused_in false) (λ _ s', isBerryBrowser (fst s') = false)
     (λ s, isBerryBrowser (fst s) = false)).

Lemma unusable_ok_text r :
  usable r = false →
  match ok_text_of r with
  | inr c => (jslength (trim c) =? 0) = true
  | inl _ => True
  end.
Proof.
  destruct r as [f|status body]; cbn; [done|].
  destruct (status_ok status); cbn; [|done]. by intros H%negb_false_iff.
Qed.

Lemma awaited_failed {A} (t : Task A) s :
  always_failed (λ _ _, False) (λ _ s', isBerryBrowser (fst s') = false) (t s) →
  always_failed (λ _ _, False) (λ _ s', isBerryBrowser (fst s') = false)
    (awaited t s).
Proof.
  intros H. unfold awaited.
  eapply always_weaken; [apply always_awaited; [exact H|done|done]| |]; cbn.
  - by intros a s' (? & ? & _).
  - by intros e s' (? & _ & ?).
Qed.

Lemma fetchViaGM_failed s :
  isBerryBrowser (fst s) = false →
  always_failed (λ _ _, False) (λ _ s', isBerryBrowser (fst s') = false)
    (fetchViaGM site s).
Proof.
  intros Hs. unfold fetchViaGM, bind, await. cbn.
  split; [exact Hs|]. intros r s' Hr Hs'.
  pose proof (unusable_ok_text r Hr) as Hok.
  destruct r as [[]|status body]; cbn in *; try exact Hs'.
  destruct (status_ok status); cbn in *; [|exact Hs'].
  rewrite (eqb0_gtb0 _ Hok), andb_false_r. exact Hs'.
Qed.

Lemma fetchDirect_failed s :
  isBerryBrowser (fst s) = false →
  always_failed (λ _ _, False) (λ _ s', isBerryBrowser (fst s') = false)
    (fetchDirect site s).
Proof.
  intros Hs. unfold fetchDirect, bind, await. cbn.
  split; [exact Hs|]. intros r s' Hr Hs'.
  pose proof (unusable_ok_text r Hr) as Hok.
  destruct (ok_text_of r) as [e|c]; cbn; [exact Hs'|].
  split; [exact Hs'|]. intros _ s'' _ Hs''.
  rewrite Hok, orb_true_r. exact Hs''.
Qed.

Lemma fetchGitHubFallback_failed s :
  isBerryBrowser (fst s) = false →
  always_failed (λ _ _, False) (λ _ s', isBerryBrowser (fst s') = false)
    (fetchGitHubFallback site s).
Proof.
  intros Hs. unfold fetchGitHubFallback.
  destruct (negb (truthy (fallbackURL site))); [exact Hs|].
  unfold bind, await. cbn. split; [exact Hs|]. intros r s' Hr Hs'.
  pose proof (unusable_ok_text r Hr) as Hok.
  destruct (ok_text_of r) as [e|c]; cbn; [exact Hs'|].
  split; [exact Hs'|]. intros _ s'' _ Hs''.
  rewrite Hok, orb_true_r. exact Hs''.
Qed.

Lemma fetchProxied_failed u s :
  isBerryBrowser (fst s) = false →
  always_failed (λ r s', r = None ∧ isBerryBrowser (fst s') = false)
    (λ _ s', isBerryBrowser (fst s') = false) (fetchProxied u s).
Proof.
  intros Hs. unfold fetchProxied, bind, await. cbn.
  split; [exact Hs|]. intros r s' Hr Hs'.
  pose proof (unusable_ok_text r Hr) as Hok.
  destruct (ok_text_of r) as [e|c]; cbn; [exact Hs'|].
  split; [exact Hs'|]. intros _ s'' _ Hs''.
  by rewrite (eqb0_gtb0 _ Hok), andb_false_r.
Qed.

Lemma primary_proxies_failed l s :
  isBerryBrowser (fst s) = false →
  always_failed (λ r s', r = None ∧ isBerryBrowser (fst s') = false)
    (λ _ _, False) (primary_proxies l s).
Proof.
  revert s. induction l as [|u rest IH]; intros s Hs; [done|].
  cbn [primary_proxies]. unfold bind, try_catch.
  eapply always_bind
    with (Q := λ r s', r = None ∧ isBerryBrowser (fst s') = false).
  - eapply always_catch; [by apply fetchProxied_failed|]. by intros e s' Hs'.
  - intros r s' [-> Hs']. by apply IH.
Qed.

Lemma fallback_proxies_failed l s :
  isBerryBrowser (fst s) = false →
  always_failed (λ r s', r = None ∧ isBerryBrowser (fst s') = false)
    (λ _ s', isBerryBrowser (fst s') = false) (fallback_proxies l s).
Proof.
  revert s. induction l as [|u rest IH]; intros s Hs; [done|].
  cbn [fallback_proxies]. unfold bind, try_catch.
  eapply always_bind
    with (Q := λ r s', r = None ∧ isBerryBrowser (fst s') = false).
  - eapply always_catch; [by apply fetchProxied_failed|].
    intros e s' Hs'. by destruct rest.
  - intros r s' [-> Hs']. by apply IH.
Qed.

Lemma fetchViaCORSProxy_failed s :
  isBerryBrowser (fst s) = false →
  always_failed (λ _ _, False) (λ _ s', isBerryBrowser (fst s') = false)
    (fetchViaCORSProxy site s).
Proof.
  intros Hs. unfold fetchViaCORSProxy.
  destruct (encodeURIComponent (styleURL site)); [|exact Hs].
  unfold bind.
  eapply always_bind
    with (Q := λ r s', r = None ∧ isBerryBrowser (fst s') = false).
  { eapply always_weaken; [by apply primary_proxies_failed|done|done]. }
  intros r s1 [-> Hs1]. cbn [bind_step].
  eapply always_bind
    with (Q := λ r s', r = None ∧ isBerryBrowser (fst s') = false).
  - destruct (truthy (fallbackURL site)); [|done].
    destruct (encodeURIComponent _); [|exact Hs1]. by apply fallback_proxies_failed.
  - intros r s2 [-> Hs2]. exact Hs2.
Qed.

(** A stage whose fetcher never returns gives nothing and throws nothing. *)
Lemma stage_failed fetcher status (R : exn → St → Prop) s :
  (∀ s, isBerryBrowser (fst s) = false →
        always_failed (λ _ _, False) (λ _ s', isBerryBrowser (fst s') = false)
          (fetcher s)) →
  isBerryBrowser (fst s) = false →
  always_failed (λ r s', r = None ∧ isBerryBrowser (fst s') = false) R
    (stage site fetcher status s).
Proof.
  intros Hf Hs. unfold stage, try_catch, bind.
  eapply always_catch with (R := λ _ s', isBerryBrowser (fst s') = false).
  - eapply always_bind; [by apply Hf|]. by intros.
  - by intros e s' Hs'.
Qed.

Lemma fetchExternalCSS_failed s :
  isBerryBrowser (fst s) = false →
  cache_miss site (snd s) →
  always_failed (λ _ _, False)
    (λ e _, e = Error "Could not fetch CSS from any source")
    (fetchExternalCSS site s).
Proof.
  unfold cache_miss. intros Hs Hmiss.
  unfold fetchExternalCSS, bind, gets. cbn [on_state modify bind_step fst snd].
  rewrite Hmiss. cbn [bind_step].
  eapply always_bind
    with (Q := λ r s', r = None ∧ isBerryBrowser (fst s') = false).
  { destruct (_ && _); [|done].
    apply stage_failed; [intros; by apply fetchViaGM_failed|exact Hs]. }
  intros r s1 [-> Hs1]. cbn [bind_step].
  eapply always_bind
    with (Q := λ r s', r = None ∧ isBerryBrowser (fst s') = false).
  { rewrite Hs1. by split. }
  intros r s2 [-> Hs2].
  eapply always_bind
    with (Q := λ r s', r = None ∧ isBerryBrowser (fst s') = false).
  { apply stage_failed; [|exact Hs2].
    intros; by apply awaited_failed, fetchDirect_failed. }
  intros r s3 [-> Hs3].
  eapply always_bind
    with (Q := λ r s', r = None ∧ isBerryBrowser (fst s') = false).
  { destruct (truthy (fallbackURL site)); [|done].
    apply stage_failed; [|exact Hs3].
    intros; by apply awaited_failed, fetchGitHubFallback_failed. }
  intros r s4 [-> Hs4].
  eapply always_bind
    with (Q := λ r s', r = None ∧ isBerryBrowser (fst s') = false).
  { apply stage_failed; [|exact Hs4].
    intros; by apply awaited_failed, fetchViaCORSProxy_failed. }
  intros r s5 [-> Hs5]. reflexivity.
Qed.

(** With nothing cached and no reply the fetch methods of the browser take,
    the fetch ends in its single error. *)
Lemma v3_exhausted_in (env : environment event world) s :
  (∀ n X ev w, refused_in (isBerryBrowser (fst s)) X ev (fst (env n X ev w))) →
  cache_miss site (snd s) →
  fst (run env (fetchExternalCSS site) s)
  = Thrown (Error "Could not fetch CSS from any source").
Proof.
  intros Href Hmiss. destruct (isBerryBrowser (fst s)) eqn:Hberry.
  { apply v3_exhausted; [|exact Hmiss]. intros n X ev w.
    specialize (Href n X ev w). by destruct ev. }
  pose proof (always_run (refused_in false)
                (λ _ s', isBerryBrowser (fst s') = false)
                (λ s, isBerryBrowser (fst s) = false)
                (λ (_ : jsstring) _, False)
                (λ e _, e = Error "Could not fetch CSS from any source")
                env 0 (fetchExternalCSS site s) Href) as H.
  unfold run. destruct (run_from env 0 (fetchExternalCSS site s)) as [[c|e] s'];
    cbn [fst].
  - exfalso. apply H; [by intros|]. by apply fetchExternalCSS_failed.
  - f_equal. apply H; [by intros|]. by apply fetchExternalCSS_failed.
Qed.

End V3Standard.

Section V2Exhaustion.
Import V2.
Variable site : SiteProfile.

Lemma v2_try_urls_refused urls s :
  always refused (λ _ _, True) (λ _, True) (λ r _, r = None) (λ _ _, False)
    (try_urls site urls s).
Proof.
  revert s. induction urls as [|u rest IH]; intros s; [reflexivity|].
  cbn [try_urls]. unfold bind, try_catch, await. cbn.
  split; [exact I|]. intros r s' Hr _.
  destruct r as [f|status body]; cbn in *; [apply IH|].
  destruct (status_ok status); cbn in *; [|apply IH].
  split; [exact I|]. intros _ s'' _ _.
  destruct body as [|x body]; cbn in *; [apply IH|].
  rewrite Hr. cbn. apply IH.
Qed.

(** With nothing cached and nothing usable from the network, [fetchCSS]
    returns the inline fallback when there is one and throws its single
    error otherwise. *)
Lemma v2_exhausted (env : environment event world) s :
  (∀ n X ev w, refused X ev (fst (env n X ev w))) →
  cache_miss site (snd s) →
  is_Some (candidates site (isBerryBrowser (fst s))) →
  fst (run env (fetchCSS site) s)
  = if truthy (berryFallbackCSS site)
    then Ok (default [] (berryFallbackCSS site))
    else Thrown (Error "All fetch attempts failed").
Proof.
  intros Href Hmiss [urls Hurls].
  pose proof (always_run refused (λ _ _, True) (λ _, True)
                (λ c _, truthy (berryFallbackCSS site) = true
                        ∧ c = default [] (berryFallbackCSS site))
                (λ e _, truthy (berryFallbackCSS site) = false
                        ∧ e = Error "All fetch attempts failed")
                env 0 (fetchCSS site s) Href) as H.
  assert (Hall : always refused (λ _ _, True) (λ _, True)
                   (λ c _, truthy (berryFallbackCSS site) = true
                           ∧ c = default [] (berryFallbackCSS site))
                   (λ e _, truthy (berryFallbackCSS site) = false
                           ∧ e = Error "All fetch attempts failed")
                   (fetchCSS site s)).
  { unfold cache_miss in Hmiss. unfold fetchCSS, bind, call, gets.
    destruct (getCachedCSS site (snd s)) as [cached w'] eqn:Hget.
    cbn [fst] in Hmiss. cbn [bind_step]. rewrite Hmiss. cbn [bind_step fst snd].
    rewrite Hurls.
    eapply always_bind with (Q := λ r _, r = None).
    { eapply always_weaken; [apply v2_try_urls_refused|done|done]. }
    intros r s1 ->. destruct (truthy (berryFallbackCSS site)); done. }
  specialize (H (λ _ _ _ _ _ _, I) Hall).
  unfold run. destruct (run_from env 0 (fetchCSS site s)) as [[c|e] s'];
    cbn [fst]; destruct H as [-> ->]; reflexivity.
Qed.

Lemma v2_wait_total s :
  always anything (λ _ _, True) (λ _, True) (λ (_ : bool) _, True) (λ _ _, False)
    ((if requiresFullReady site then awaited (waitForChatGPTReady site)
      else awaited (waitForElement (berryReadySelector site))) s).
Proof.
  assert (Hawaited : ∀ p : step event St bool,
    always anything (λ _ _, True) (λ _, True) (λ _ _, True) (λ _ _, False) p →
    always anything (λ _ _, True) (λ _, True) (λ _ _, True) (λ _ _, False)
      (a_turn_later p)).
  { intros p Hp. eapply always_weaken; [by apply always_awaited| |]; cbn; [done|].
    by intros e s' (? & ? & _). }
  destruct (requiresFullReady site); apply Hawaited.
  - unfold waitForChatGPTReady. destruct (_ || _); [exact I|].
    unfold bind, await, gets. cbn. split; [exact I|]. intros [|] s' _ _; [|exact I].
    cbn. destruct (isBerryBrowser _); cbn; [|exact I].
    split; [exact I|]. intros; exact I.
  - unfold waitForElement, await. cbn. split; [exact I|]. intros; exact I.
Qed.

(** [apply] never throws. *)
Lemma v2_apply_total (env : environment event world) s :
  ∃ b, fst (run env (apply site) s) = Ok b.
Proof.
  pose proof (always_run anything (λ _ _, True) (λ _, True)
                (λ (_ : bool) _, True) (λ _ _, False) env 0 (apply site s)) as H.
  unfold run. destruct (run_from env 0 (apply site s)) as [[b|e] s']; [by eexists|].
  exfalso. apply H; [done|done|].
  unfold apply, bind. cbn [modify bind_step].
  eapply always_bind; [apply v2_wait_total|].
  intros _ s1 _. unfold try_catch.
  eapply always_catch; [apply always_trivial|]. intros; exact I.
Qed.

End V2Exhaustion.




(** ** The document *)

Lemma all_elements_removeNode n d :
  all_elements (removeNode n d) = without n (all_elements d).
Proof.
  unfold all_elements, removeNode, without. cbn.
  rewrite !filter_app. by destruct (head d), (body d).
Qed.

Lemma getElementById_None i d :
  getElementById i d = None ↔ ∀ el, el ∈ all_elements d → id el ≠ i.
Proof.
  unfold getElementById. split.
  - intros H el Hel%list_elem_of_In Hid.
    pose proof (find_none _ _ H el Hel) as Hf. cbn in Hf.
    subst i. by rewrite jseqb_refl in Hf.
  - intros H. destruct (find _ _) as [el|] eqn:Hf; [|reflexivity].
    apply find_some in Hf as [Hel%list_elem_of_In Hid].
    apply bool_decide_eq_true in Hid. by destruct (H el Hel).
Qed.

Lemma getElementById_Some i d el :
  getElementById i d = Some el → el ∈ all_elements d ∧ id el = i.
Proof.
  unfold getElementById. intros [Hel Hid]%find_some. split.
  - by apply list_elem_of_In.
  - by apply bool_decide_eq_true in Hid.
Qed.

Lemma getElementById_is_Some i d el :
  el ∈ all_elements d → id el = i → is_Some (getElementById i d).
Proof.
  intros Hel Hid. destruct (getElementById i d) eqn:Hg; [by eexists|].
  rewrite getElementById_None in Hg. by destruct (Hg el Hel).
Qed.

(** Removing nodes one after the other: what stays was there and is none of
    the removed ones. *)
Lemma elem_of_fold_remove (c : element → bool) l d el :
  el ∈ all_elements
         (fold_left (λ d x, if c x then removeNode (node x) d else d) l d) ↔
  el ∈ all_elements d ∧ ∀ x, x ∈ l → c x = true → node el ≠ node x.
Proof.
  revert d. induction l as [|x l IH]; intros d; cbn [fold_left].
  - split; [intros H; split; [done|]|by intros [H _]].
    intros x Hx. by apply elem_of_nil in Hx.
  - rewrite IH. destruct (c x) eqn:Hc.
    + rewrite all_elements_removeNode. unfold without.
      rewrite list_elem_of_filter. split.
      * intros [[Hn Hel] Hl]. split; [done|]. intros y [->|Hy]%elem_of_cons; auto.
      * intros [Hel Hl]. split; [split; [|done]|].
        -- apply Hl; [by left|done].
        -- intros y Hy. apply Hl. by right.
    + split.
      * intros [Hel Hl]. split; [done|]. intros y [->|Hy]%elem_of_cons; [congruence|auto].
      * intros [Hel Hl]. split; [done|]. intros y Hy. apply Hl. by right.
Qed.

Lemma elem_of_appendChild_Head el d :
  is_Some (head d) → el ∈ all_elements (appendChild Head el d).
Proof.
  intros [l Hl]. unfold appendChild, all_elements. cbn.
  rewrite Hl. cbn. rewrite !elem_of_app. left. right. by left.
Qed.

Lemma all_elements_revokeObjectURL u d :
  all_elements (revokeObjectURL u d) = all_elements d.
Proof. reflexivity. Qed.

Lemma elem_of_removeNode el n d :
  el ∈ all_elements (removeNode n d) → el ∈ all_elements d.
Proof.
  rewrite all_elements_removeNode. unfold without.
  by intros [_ H]%list_elem_of_filter.
Qed.

(** What is in the document after [appendChild] is the appended element or
    was there before. *)
Lemma elem_of_appendChild_inv c e el d :
  el ∈ all_elements (appendChild c e d) → el = e ∨ el ∈ all_elements d.
Proof.
  unfold appendChild. intros H.
  assert (el = e ∨ el ∈ all_elements (removeNode (node e) d)) as [->|H'];
    [|by left|right; by eapply elem_of_removeNode].
  revert H. generalize (removeNode (node e) d). intros d'.
  unfold all_elements.
  destruct c; cbn; destruct (head d'), (body d'); cbn;
    rewrite ?elem_of_app, ?list_elem_of_singleton, ?elem_of_nil; tauto.
Qed.

(** ** v3.0: remove, isApplied, apply *)

Section V3Artifact.
Import V3.
Variable site : SiteProfile.

Lemma isApplied_false w :
  isApplied site w = false ↔
  ∀ el, el ∈ all_elements (document w) → id el ≠ styleID site.
Proof.
  unfold isApplied. rewrite bool_decide_eq_false, <- getElementById_None.
  rewrite <- eq_None_not_Some. done.
Qed.

Lemma isApplied_true w el :
  el ∈ all_elements (document w) → id el = styleID site → isApplied site w = true.
Proof.
  intros Hel Hid. apply bool_decide_eq_true. by eapply getElementById_is_Some.
Qed.

Lemma elem_of_unstyled el d :
  el ∈ all_elements (unstyled site d) → el ∈ all_elements d.
Proof.
  unfold unstyled. destruct (getElementById _ _) as [e|]; [|done].
  rewrite all_elements_removeNode. unfold without. rewrite list_elem_of_filter.
  intros [_ H]. by destruct (_ && _).
Qed.

(** What is in the document after [remove] was there before, and is not an
    orphan carrying [data-method]. *)
Lemma elem_of_remove el s :
  el ∈ all_elements (document (snd (remove site s))) →
  el ∈ all_elements (document (snd s))
  ∧ ¬ (hasAttribute (js "data-method") el = true ∧ is_orphan site el = true).
Proof.
  unfold remove. cbn [snd document set_document].
  fold (unstyled site (document (snd s))).
  rewrite elem_of_fold_remove. intros [Hel Hno]. split; [by apply elem_of_unstyled|].
  intros [Hattr Horph]. apply (Hno el); [|done|done].
  apply list_elem_of_filter. done.
Qed.

Lemma remove_clears s :
  artifacts_tagged site (document (snd s)) →
  isApplied site (snd (remove site s)) = false.
Proof.
  intros Htag. apply isApplied_false. intros el Hel Hid.
  apply elem_of_remove in Hel as [Hel Hno]. apply Hno. split.
  - apply bool_decide_eq_true. by apply Htag.
  - unfold is_orphan. by rewrite Hid, jseqb_refl.
Qed.

Lemma remove_nothing_applied s :
  isApplied site (snd s) = false →
  isApplied site (snd (remove site s)) = false.
Proof.
  rewrite !isApplied_false. intros H el Hel. apply H.
  by apply elem_of_remove in Hel as [Hel _].
Qed.

Lemma available_Head_is_Some d : available Head d = true → is_Some (head d).
Proof. intros H. by apply bool_decide_eq_true in H. Qed.

Lemma injector_applied m s :
  always anything document_kept (λ _, True)
    (λ ok s', ok = true → isApplied site (snd s') = true) (λ _ _, True)
    (injector site m s).
Proof.
  destruct m; cbn [injector].
  - unfold injectViaBlob, bind, gets. cbn [bind_step].
    destruct (available Head (document (snd s))) eqn:Hhead;
      cbn -[appendChild]; [|discriminate].
    split; [exact I|]. intros settled s' _ Hkeep.
    unfold document_kept in Hkeep. cbn -[appendChild] in Hkeep.
    destruct settled as [| |[|]]; cbn -[appendChild]; try discriminate; intros _.
    all: eapply isApplied_true; [cbn [snd]; rewrite Hkeep;
           apply elem_of_appendChild_Head, available_Head_is_Some, Hhead|reflexivity].
  - unfold injectViaStyle, bind, gets. cbn [bind_step].
    destruct (available Head (document (snd s))) eqn:Hhead;
      cbn -[appendChild]; [|discriminate].
    intros _. eapply isApplied_true; [cbn -[appendChild];
           apply elem_of_appendChild_Head, available_Head_is_Some, Hhead|reflexivity].
  - unfold injectViaExternalLink, bind, gets. cbn [bind_step].
    destruct (available Head (document (snd s))) eqn:Hhead;
      cbn -[appendChild]; [|discriminate].
    split; [exact I|]. intros settled s' _ Hkeep.
    unfold document_kept in Hkeep. cbn -[appendChild] in Hkeep.
    destruct settled as [| |[|]]; cbn -[appendChild]; try discriminate; intros _.
    eapply isApplied_true; [cbn [snd]; rewrite Hkeep;
           apply elem_of_appendChild_Head, available_Head_is_Some, Hhead|reflexivity].
Qed.

Lemma awaited_injector_applied m s :
  always anything document_kept (λ _, True)
    (λ ok s', ok = true → isApplied site (snd s') = true) (λ _ _, True)
    (awaited (injector site m) s).
Proof.
  unfold awaited.
  eapply always_weaken;
    [apply always_awaited; [apply injector_applied|done|done]| |done].
  cbn. intros ok s' (s0 & Hs0 & Hkept) Hok.
  unfold isApplied, document_kept in *. rewrite Hkept. by apply Hs0.
Qed.

Lemma try_injections_applied ms s :
  always anything document_kept (λ _, True)
    (λ ok s', ok = true → isApplied site (snd s') = true) (λ _ _, False)
    (try_injections site ms s).
Proof.
  revert s. induction ms as [|m rest IH]; intros s; [discriminate|].
  cbn [try_injections]. unfold bind, try_catch.
  eapply always_bind
    with (Q := λ ok s', ok = true → isApplied site (snd s') = true).
  - eapply always_catch with (R := λ _ _, True).
    + eapply always_bind; [apply awaited_injector_applied|].
      intros [|] s' Hs'; cbn; [|discriminate]. intros _. by apply Hs'.
    + intros e s' _. discriminate.
  - intros [|] s' Hs'; cbn; [exact Hs'|apply IH].
Qed.

(** A successful [apply] leaves an element with the artifact id in the
    document, when the document is left alone while [apply] waits. *)
Lemma v3_apply_applied s :
  always anything document_kept (λ _, True)
    (λ ok s', ok = true → isApplied site (snd s') = true) (λ _ _, False)
    (apply site s).
Proof.
  unfold apply, bind, gets. cbn [bind_step].
  destruct (negb _ || _); [discriminate|]. cbn [bind_step].
  destruct (_ <? 500); [discriminate|].
  cbn [bind_step on_state modify fst snd]. unfold try_catch.
  eapply always_catch with (R := λ _ _, True); [|intros; discriminate].
  eapply always_bind; [apply always_trivial|].
  intros _ s1 _. cbn [bind_step].
  eapply always_bind; [apply always_trivial|].
  intros _ s2 _. cbn [bind_step].
  destruct (negb _ || _); [exact I|].
  eapply always_bind
    with (Q := λ ok s', ok = true → isApplied site (snd s') = true).
  { eapply always_weaken; [apply try_injections_applied|done|done]. }
  intros [|] s3 Hs3; [exact Hs3|exact I].
Qed.

(** *** The elements bearing the artifact id stay the injector's own *)

Lemma tagged_kept (s s' : St) :
  isLoading (fst s') = isLoading (fst s) →
  document (snd s') = document (snd s) → tagged site s → tagged site s'.
Proof. unfold tagged. by intros _ ->. Qed.

Lemma on_state_keeps_tagged G (f : state → state) :
  preserves G (tagged site) (on_state f).
Proof. apply preserves_modify. by intros [σ w]. Qed.

Lemma remove_keeps_tagged s : tagged site s → tagged site (remove site s).
Proof.
  intros H el Hel Hid. apply elem_of_remove in Hel as [Hel _]. by apply H.
Qed.

Lemma artifacts_tagged_incl d d' :
  (∀ el, el ∈ all_elements d' →
         el ∈ all_elements d ∨ is_Some (attributes el !! js "data-method")) →
  artifacts_tagged site d → artifacts_tagged site d'.
Proof.
  intros Hincl Hd el Hel Hid. destruct (Hincl el Hel) as [H|H]; [by apply Hd|exact H].
Qed.

Lemma injector_keeps_tagged G m : preserves G (tagged site) (injector site m).
Proof.
  intros s Hs. unfold tagged in *.
  destruct m; cbn [injector].
  - unfold injectViaBlob, bind, gets. cbn [bind_step].
    destruct (available Head (document (snd s))); cbn -[appendChild]; [|exact Hs].
    split.
    + eapply artifacts_tagged_incl; [|exact Hs].
      intros el [->|Hel]%elem_of_appendChild_inv; [right; by eexists|by left].
    + intros settled s' _ Hs'.
      destruct settled as [| |[|]]; cbn -[appendChild]; try exact Hs'.
      eapply artifacts_tagged_incl; [|exact Hs'].
      intros el Hel. left. rewrite ?all_elements_revokeObjectURL in Hel.
      by eapply elem_of_removeNode.
  - unfold injectViaStyle, bind, gets. cbn [bind_step].
    destruct (available Head (document (snd s))); cbn -[appendChild]; [|exact Hs].
    eapply artifacts_tagged_incl; [|exact Hs].
    intros el [->|Hel]%elem_of_appendChild_inv; [right; by eexists|by left].
  - unfold injectViaExternalLink, bind, gets. cbn [bind_step].
    destruct (available Head (document (snd s))); cbn -[appendChild]; [|exact Hs].
    split.
    + eapply artifacts_tagged_incl; [|exact Hs].
      intros el [->|Hel]%elem_of_appendChild_inv; [right; by eexists|by left].
    + intros settled s' _ Hs'.
      destruct settled as [| |[|]]; cbn -[appendChild]; try exact Hs'.
      eapply artifacts_tagged_incl; [|exact Hs'].
      intros el Hel. left. rewrite ?all_elements_revokeObjectURL in Hel.
      by eapply elem_of_removeNode.
Qed.

Lemma try_injections_keeps_tagged G ms :
  preserves G (tagged site) (try_injections site ms).
Proof.
  induction ms as [|m rest IH]; cbn [try_injections]; preserve;
    first [apply injector_keeps_tagged|apply on_state_keeps_tagged|exact IH].
Qed.

Lemma apply_keeps_tagged G : preserves G (tagged site) (apply site).
Proof.
  intros s Hs. unfold apply, bind, gets. cbn [bind_step].
  destruct (negb _ || _); [exact Hs|]. cbn [bind_step].
  destruct (_ <? 500); [exact Hs|].
  cbn [bind_step on_state modify fst snd]. unfold try_catch.
  eapply always_catch with (R := λ _, tagged site); [|intros e s' Hs'; exact Hs'].
  eapply always_bind with (Q := λ _, tagged site).
  { apply preserves_awaited; [apply waitForPageReady_keeps|].
    apply (remove_keeps_tagged (set_lastApplyTime (now (snd s)) (fst s), snd s)).
    exact Hs. }
  intros _ s1 Hs1. cbn [bind_step].
  eapply always_bind with (Q := λ _, tagged site).
  { destruct (negb (truthy (cssContent (fst s1)))); [|exact Hs1].
    eapply always_bind with (Q := λ _, tagged site).
    - apply preserves_awaited; [|done].
      apply fetchExternalCSS_keeps, tagged_kept.
    - intros _ s2 Hs2. exact Hs2. }
  intros _ s2 Hs2. cbn [bind_step].
  destruct (negb _ || _); [exact Hs2|].
  eapply always_bind with (Q := λ _, tagged site);
    [by apply try_injections_keeps_tagged|].
  intros [|] s3 Hs3; exact Hs3.
Qed.

(** [remove] right after [apply], whatever [apply] returned. *)
Lemma v3_remove_after_apply (env : environment event world) s :
  quiet env → tagged site s →
  isApplied site (snd (remove site (snd (run env (apply site) s)))) = false.
Proof.
  intros Hq Hs. apply remove_clears.
  pose proof (always_run anything (λ _, tagged site) (tagged site)
                (λ (_ : bool), tagged site) (λ _, tagged site)
                env 0 (apply site s)) as H.
  unfold run. destruct (run_from env 0 (apply site s)) as [[b|e] s'];
    (apply H; [done| |by apply apply_keeps_tagged]);
    intros n X ev σ w Hw; unfold tagged in *; cbn [snd] in *; by rewrite Hq.
Qed.

Lemma v3_apply_success (env : environment event world) s :
  quiet env →
  fst (run env (apply site) s) = Ok true →
  isApplied site (snd (snd (run env (apply site) s))) = true.
Proof.
  intros Hq.
  pose proof (always_run anything document_kept (λ _, True)
                (λ ok s', ok = true → isApplied site (snd s') = true)
                (λ _ _, False) env 0 (apply site s)) as H.
  unfold run. destruct (run_from env 0 (apply site s)) as [[b|e] s']; cbn [fst snd].
  - intros [= ->]. apply H; [done| |apply v3_apply_applied|reflexivity].
    intros n X ev σ w _. apply Hq.
  - discriminate.
Qed.

End V3Artifact.

(** ** v4.0: inject and remove *)

Section V4Artifact.
Import V4.
Variable site : SiteProfile.

Lemma v4_remove_noop d : styleElement site d = None → remove site d = d.
Proof. unfold remove. by intros ->. Qed.

Lemma v4_remove_clears d :
  at_most_one site d → styleElement site (remove site d) = None.
Proof.
  unfold at_most_one, remove, styleElement. intros Hone.
  destruct (getElementById (styleID site) d) as [el|] eqn:Hget; [|exact Hget].
  apply getElementById_Some in Hget as [Hel Hid].
  apply getElementById_None. intros el' Hel' Hid'.
  rewrite all_elements_removeNode in Hel'. unfold without in Hel'.
  apply list_elem_of_filter in Hel' as [Hnode Hel'].
  assert (Hin : el ∈ filter (λ e, id e = styleID site) (all_elements d))
    by (by apply list_elem_of_filter).
  assert (Hin' : el' ∈ filter (λ e, id e = styleID site) (all_elements d))
    by (by apply list_elem_of_filter).
  destruct (filter _ (all_elements d)) as [|x [|y l]]; cbn in Hone; [| |lia].
  - by apply elem_of_nil in Hin.
  - apply list_elem_of_singleton in Hin, Hin'. congruence.
Qed.

Lemma elem_of_appendChild c el d :
  available c d = true → el ∈ all_elements (appendChild c el d).
Proof.
  destruct c; cbn [available].
  - intros H%bool_decide_eq_true. by apply elem_of_appendChild_Head.
  - intros [l Hl]%bool_decide_eq_true. unfold appendChild, all_elements. cbn.
    rewrite Hl. cbn. rewrite !elem_of_app. right. left. right. by left.
  - intros _. unfold appendChild, all_elements. cbn.
    rewrite !elem_of_app. right. right. right. by left.
Qed.

Lemma filter_nil_forall {A} (P : A → Prop) `{∀ x, Decision (P x)} (l : list A) :
  (∀ x, x ∈ l → ¬ P x) → filter P l = [].
Proof.
  intros Hl. destruct (filter P l) as [|x l'] eqn:Hf; [reflexivity|].
  assert (Hx : x ∈ filter P l) by (rewrite Hf; by left).
  apply list_elem_of_filter in Hx as [HP Hx]. by destruct (Hl x Hx).
Qed.

(** Appending to a document without the artifact leaves at most one. *)
Lemma at_most_one_appendChild c e d :
  (∀ el, el ∈ all_elements d → id el ≠ styleID site) →
  at_most_one site (appendChild c e d).
Proof.
  intros Hd. unfold at_most_one, appendChild.
  assert (Hd' : ∀ el, el ∈ all_elements (removeNode (node e) d) →
                      id el ≠ styleID site)
    by (intros el Hel%elem_of_removeNode; by apply Hd).
  revert Hd'. generalize (removeNode (node e) d). clear Hd. intros d' Hd'.
  assert (Hh : filter (λ el, id el = styleID site) (default [] (head d')) = []).
  { apply filter_nil_forall. intros el Hel. apply Hd'.
    unfold all_elements. rewrite !elem_of_app. by left. }
  assert (Hb : filter (λ el, id el = styleID site) (default [] (body d')) = []).
  { apply filter_nil_forall. intros el Hel. apply Hd'.
    unfold all_elements. rewrite !elem_of_app. right. by left. }
  assert (Hr : filter (λ el, id el = styleID site) (root d') = []).
  { apply filter_nil_forall. intros el Hel. apply Hd'.
    unfold all_elements. rewrite !elem_of_app. right. by right. }
  assert (He : (length (filter (λ el, id el = styleID site) [e]) ≤ 1)%nat).
  { rewrite filter_cons. destruct (decide _); cbn; lia. }
  unfold all_elements.
  destruct c; cbn; destruct (head d'), (body d'); cbn in *;
    rewrite ?filter_app, ?Hh, ?Hb, ?Hr, ?length_app; cbn; lia.
Qed.

(** [inject] leaves at most one element with the artifact id when it found
    at most one. *)
Lemma v4_inject_at_most_one c s :
  at_most_one site (document (snd s)) →
  at_most_one site (document (snd (snd (inject site c s)))).
Proof.
  intros Hone. unfold inject. destruct (negb (truthy c) || _); [exact Hone|].
  cbn -[appendChild remove].
  apply at_most_one_appendChild. intros el Hel.
  pose proof (v4_remove_clears _ Hone) as Hnone.
  unfold styleElement in Hnone. rewrite getElementById_None in Hnone.
  by apply Hnone.
Qed.

Lemma v4_inject_applied c s :
  fst (inject site c s) = true →
  is_Some (styleElement site (document (snd (snd (inject site c s))))).
Proof.
  unfold inject. destruct (negb (truthy c) || _); [discriminate|].
  cbn -[appendChild remove]. intros _.
  eapply getElementById_is_Some; [apply elem_of_appendChild|reflexivity].
  destruct (bool_decide (is_Some (head (remove site (document (snd s)))))) eqn:E;
    [exact E|reflexivity].
Qed.

End V4Artifact.

(** C7.  In v3.0, [isApplied()] is true right after an [apply()] that
    returned true (the document being left alone while it waited) and false
    right after [remove()], the elements bearing the artifact id being the
    injector's own (they carry [data-method]); [apply] keeps them so, hence
    [remove] right after [apply] leaves [isApplied()] false.  In v4.0, which
    tests presence with the same [getElementById], a successful [inject]
    leaves the element in place and [remove] leaves none when at most one
    was there, as is the case after [inject].  In both, [remove] with
    nothing applied changes nothing about that, also when it is called
    twice; [remove] is a total function and cannot throw. *)
Theorem C7_isApplied_after_apply_and_remove :
  (∀ site (env : environment event V3.world) s,
     V3.quiet env →
     fst (run env (V3.apply site) s) = Ok true →
     V3.isApplied site (snd (snd (run env (V3.apply site) s))) = true)
  ∧ (∀ site s,
       V3.artifacts_tagged site (V3.document (snd s)) →
       V3.isApplied site (snd (V3.remove site s)) = false)
  ∧ (∀ site (env : environment event V3.world) s,
       V3.quiet env → V3.tagged site s →
       V3.isApplied site
         (snd (V3.remove site (snd (run env (V3.apply site) s)))) = false)
  ∧ (∀ site s,
       V3.isApplied site (snd s) = false →
       V3.isApplied site (snd (V3.remove site s)) = false
       ∧ V3.isApplied site (snd (V3.remove site (V3.remove site s))) = false)
  ∧ (∀ site c s,
       fst (V4.inject site c s) = true →
       is_Some (V4.styleElement site (V4.document (snd (snd (V4.inject site c s))))))
  ∧ (∀ site d,
       V4.at_most_one site d → V4.styleElement site (V4.remove site d) = None)
  ∧ (∀ site c s,
       V4.at_most_one site (V4.document (snd s)) →
       V4.at_most_one site (V4.document (snd (snd (V4.inject site c s))))
       ∧ V4.styleElement site
           (V4.remove site (V4.document (snd (snd (V4.inject site c s))))) = None)
  ∧ (∀ site d,
       V4.styleElement site d = None →
       V4.remove site d = d ∧ V4.remove site (V4.remove site d) = d).
Proof.
  split; [exact v3_apply_success|]. split; [exact remove_clears|].
  split; [exact v3_remove_after_apply|].
  split; [|split; [exact v4_inject_applied|split; [exact v4_remove_clears|split]]].
  - intros site s H. split; by repeat apply remove_nothing_applied.
  - intros site c s H. split; [by apply v4_inject_at_most_one|].
    by apply v4_remove_clears, v4_inject_at_most_one.
  - intros site d H. by rewrite !v4_remove_noop.
Qed.

Lemma C7_isApplied_after_apply_and_remove_witness :
  V3.isApplied V3.chatgpt
    (snd (snd (run Examples.online3 (V3.apply V3.chatgpt) Examples.start3))) = true
  ∧ V3.isApplied V3.chatgpt
      (snd (V3.remove V3.chatgpt
              (snd (run Examples.online3 (V3.apply V3.chatgpt) Examples.start3))))
    = false
  ∧ V3.isApplied V3.chatgpt
      (snd (V3.remove V3.chatgpt
              (snd (run Examples.offline (V3.apply V3.chatgpt) Examples.start3))))
    = false
  ∧ V3.isApplied V3.chatgpt (snd (V3.remove V3.chatgpt Examples.start3)) = false
  ∧ is_Some (V4.styleElement V4.chatgpt
               (V4.document (snd (snd (V4.inject V4.chatgpt (Some Examples.stylesheet)
                                         (V4.initial_state, Examples.fresh4))))))
  ∧ V4.styleElement V4.chatgpt
      (V4.remove V4.chatgpt
         (V4.document (snd (snd (V4.inject V4.chatgpt (Some Examples.stylesheet)
                                   (V4.initial_state, Examples.fresh4)))))) = None
  ∧ V4.styleElement V4.chatgpt
      (V4.remove V4.chatgpt
         (V4.document
            (snd (snd (V4.inject V4.chatgpt (Some Examples.stylesheet)
                         (snd (V4.inject V4.chatgpt (Some Examples.stylesheet)
                                 (V4.initial_state, Examples.fresh4)))))))) = None
  ∧ V4.remove V4.chatgpt Examples.emptyDocument = Examples.emptyDocument.
Proof.
  destruct C7_isApplied_after_apply_and_remove
    as (Ha & Hr & Hra & Hn & Hi & Hc & Hci & Hz).
  split; [|split; [|split; [|split; [|split; [|split; [|split]]]]]].
  - apply Ha; [|reflexivity]. intros n X ev w. destruct ev; reflexivity.
  - apply Hr. intros el Hel%list_elem_of_In Hid. vm_compute in Hel.
    destruct Hel as [<-|[]]. vm_compute. eauto.
  - apply Hra.
    + intros n X ev w. destruct ev; reflexivity.
    + intros el Hel%list_elem_of_In. vm_compute in Hel. destruct Hel.
  - apply Hn. reflexivity.
  - apply Hi. reflexivity.
  - apply Hc. vm_compute. lia.
  - apply Hci. vm_compute. lia.
  - apply Hz. reflexivity.
Defined.

(** * Further properties *)

(** ** Runs of composed tasks *)

Section RunFacts.
Context {E : Type → Type} {V W : Type}.
Variable env : environment E W.

(** The run of [p] followed by [f]: the run of [p], then that of [f] on its
    result, the events numbered on. *)
Lemma run_from_bind {A B} n (p : step E (V * W) A) (f : A → task E (V * W) B) :
  run_from env n (bind_step p f) =
  match run_from env n p with
  | (Ok a, s') => run_from env (n + length (events_from env n p))%nat (f a s')
  | (Thrown e, s') => (Thrown e, s')
  end.
Proof.
  revert n. induction p as [a s|e s|X ev s k IH]; intros n; simpl.
  - by rewrite Nat.add_0_r.
  - reflexivity.
  - destruct (env n X ev (snd s)) as [x w']. rewrite IH. simpl.
    by rewrite Nat.add_succ_r.
Qed.

Lemma events_from_bind {A B} n (p : step E (V * W) A) (f : A → task E (V * W) B) :
  events_from env n (bind_step p f) =
  events_from env n p ++
  match run_from env n p with
  | (Ok a, s') => events_from env (n + length (events_from env n p))%nat (f a s')
  | (Thrown e, s') => []
  end.
Proof.
  revert n. induction p as [a s|e s|X ev s k IH]; intros n; simpl.
  - by rewrite Nat.add_0_r.
  - reflexivity.
  - destruct (env n X ev (snd s)) as [x w']. rewrite IH. simpl.
    by rewrite Nat.add_succ_r.
Qed.

Lemma run_from_catch {A} n (p : step E (V * W) A) (h : exn → task E (V * W) A) :
  run_from env n (catch_step p h) =
  match run_from env n p with
  | (Ok a, s') => (Ok a, s')
  | (Thrown e, s') => run_from env (n + length (events_from env n p))%nat (h e s')
  end.
Proof.
  revert n. induction p as [a s|e s|X ev s k IH]; intros n; simpl.
  - reflexivity.
  - by rewrite Nat.add_0_r.
  - destruct (env n X ev (snd s)) as [x w']. rewrite IH. simpl.
    by rewrite Nat.add_succ_r.
Qed.

Lemma events_from_catch {A} n (p : step E (V * W) A) (h : exn → task E (V * W) A) :
  events_from env n (catch_step p h) =
  events_from env n p ++
  match run_from env n p with
  | (Ok a, s') => []
  | (Thrown e, s') => events_from env (n + length (events_from env n p))%nat (h e s')
  end.
Proof.
  revert n. induction p as [a s|e s|X ev s k IH]; intros n; simpl.
  - reflexivity.
  - by rewrite Nat.add_0_r.
  - destruct (env n X ev (snd s)) as [x w']. rewrite IH. simpl.
    by rewrite Nat.add_succ_r.
Qed.
End RunFacts.

Lemma requests_from_bind {V W A B} (env : environment event W) n
    (p : step event (V * W) A) (f : A → task event (V * W) B) :
  requests_from env n (bind_step p f) =
  requests_from env n p ++
  match run_from env n p with
  | (Ok a, s') => requests_from env (n + length (events_from env n p))%nat (f a s')
  | (Thrown e, s') => []
  end.
Proof.
  unfold requests_from. rewrite events_from_bind, omap_app.
  by destruct (run_from env n p) as [[a|e] s'].
Qed.

Lemma requests_from_catch {V W A} (env : environment event W) n
    (p : step event (V * W) A) (h : exn → task event (V * W) A) :
  requests_from env n (catch_step p h) =
  requests_from env n p ++
  match run_from env n p with
  | (Ok a, s') => []
  | (Thrown e, s') => requests_from env (n + length (events_from env n p))%nat (h e s')
  end.
Proof.
  unfold requests_from. rewrite events_from_catch, omap_app.
  by destruct (run_from env n p) as [[a|e] s'].
Qed.

Lemma requests_from_Return {V W A} (env : environment event W) n (a : A) (s : V * W) :
  requests_from env n (Return a s) = [].
Proof. reflexivity. Qed.

Lemma requests_from_Raise {V W A} (env : environment event W) n e (s : V * W) :
  requests_from env n (Raise (A := A) e s) = [].
Proof. reflexivity. Qed.

(** The run of a call awaited: the run of the call, then the turn. *)
Lemma run_from_awaited_eq {V W A} (env : environment event W) n
    (p : step event (V * W) A) :
  run_from env n (a_turn_later p) =
  (fst (run_from env n p),
   (fst (snd (run_from env n p)),
    snd (env (n + length (events_from env n p))%nat unit Tick
           (snd (snd (run_from env n p)))))).
Proof.
  revert n. induction p as [a s|e s|X ev s k IH]; intros n; simpl.
  - rewrite Nat.add_0_r. by destruct (env n unit Tick (snd s)).
  - rewrite Nat.add_0_r. by destruct (env n unit Tick (snd s)).
  - destruct (env n X ev (snd s)) as [x w']. rewrite IH. simpl.
    by rewrite Nat.add_succ_r.
Qed.

(** ** v4.0: the order of the CDNs *)

Section V4Order.
Import V4.
Variable site : SiteProfile.

Lemma indexOf_split u urls :
  u ∈ urls →
  ∃ before after, urls = before ++ u :: after ∧ (u ∉ before)
                  ∧ indexOf u urls = Some (length before).
Proof.
  induction urls as [|v rest IH]; intros Hin; [by apply elem_of_nil in Hin|].
  cbn [indexOf]. destruct (jseqb v u) eqn:Hvu.
  - apply bool_decide_eq_true in Hvu as ->. exists [], rest.
    split; [reflexivity|]. split; [apply not_elem_of_nil|reflexivity].
  - apply bool_decide_eq_false in Hvu.
    apply elem_of_cons in Hin as [->|Hin]; [done|].
    destruct (IH Hin) as (before & after & -> & Hnot & ->).
    exists (v :: before), after. split; [reflexivity|]. split; [|reflexivity].
    rewrite not_elem_of_cons. split; [congruence|done].
Qed.

Lemma indexOf_None u urls : u ∉ urls → indexOf u urls = None.
Proof.
  induction urls as [|v rest IH]; [reflexivity|].
  rewrite not_elem_of_cons. intros [Hne Hnot]. cbn [indexOf].
  unfold jseqb. rewrite bool_decide_eq_false_2 by congruence.
  by rewrite IH.
Qed.

Lemma delete_middle {A} (before after : list A) x :
  delete (length before) (before ++ x :: after) = before ++ after.
Proof. induction before as [|y l IH]; [reflexivity|]. simpl. by f_equal. Qed.

Lemma getOptimizedCDNOrder_promoted σ u :
  successfulCDN σ = Some u → u ≠ [] → u ∈ cdnURLs site →
  ∃ before after, cdnURLs site = before ++ u :: after ∧ (u ∉ before)
                  ∧ getOptimizedCDNOrder site σ = u :: before ++ after.
Proof.
  intros Hs Hne Hin. unfold getOptimizedCDNOrder. rewrite Hs.
  destruct u as [|x u]; [done|]. cbn [truthy].
  destruct (indexOf_split _ _ Hin) as (before & after & Hurls & Hnot & ->).
  exists before, after. split; [exact Hurls|]. split; [exact Hnot|].
  rewrite Hurls. destruct before as [|y l]; [reflexivity|].
  cbn [length]. by rewrite (delete_middle (y :: l)).
Qed.

Lemma getOptimizedCDNOrder_unchanged σ :
  (∀ u, successfulCDN σ = Some u → u = [] ∨ u ∉ cdnURLs site) →
  getOptimizedCDNOrder site σ = cdnURLs site.
Proof.
  intros H. unfold getOptimizedCDNOrder.
  destruct (successfulCDN σ) as [u|]; [|reflexivity].
  destruct (H u eq_refl) as [->|Hnot]; [reflexivity|].
  destruct (truthy (Some u)); [|reflexivity]. by rewrite indexOf_None.
Qed.

Lemma getOptimizedCDNOrder_Permutation σ :
  getOptimizedCDNOrder site σ ≡ₚ cdnURLs site.
Proof.
  destruct (successfulCDN σ) as [u|] eqn:Hs.
  - destruct (decide (u = [])) as [->|Hne].
    { rewrite getOptimizedCDNOrder_unchanged; [done|]. intros u. rewrite Hs.
      intros [= <-]. by left. }
    destruct (decide (u ∈ cdnURLs site)) as [Hin|Hnot].
    + destruct (getOptimizedCDNOrder_promoted σ u Hs Hne Hin)
        as (before & after & -> & _ & ->).
      by rewrite Permutation_middle.
    + rewrite getOptimizedCDNOrder_unchanged; [done|]. intros v. rewrite Hs.
      intros [= <-]. by right.
  - rewrite getOptimizedCDNOrder_unchanged; [done|]. intros u. by rewrite Hs.
Qed.

End V4Order.

(** X1. [getOptimizedCDNOrder] gives the profile's CDNs, none dropped and
    none twice over: when the remembered CDN is one of them it comes first
    and the others keep their order; with nothing remembered, or a URL that
    is not among the profile's, the order is the configured one. *)
Theorem X1_cdn_order_is_a_reordering :
  ∀ site σ,
    V4.getOptimizedCDNOrder site σ ≡ₚ V4.cdnURLs site
    ∧ (∀ u, V4.successfulCDN σ = Some u → u ≠ [] → u ∈ V4.cdnURLs site →
         ∃ before after,
           V4.cdnURLs site = before ++ u :: after ∧ (u ∉ before)
           ∧ V4.getOptimizedCDNOrder site σ = u :: before ++ after)
    ∧ ((∀ u, V4.successfulCDN σ = Some u → u = [] ∨ u ∉ V4.cdnURLs site) →
       V4.getOptimizedCDNOrder site σ = V4.cdnURLs site).
Proof.
  intros site σ. split; [apply getOptimizedCDNOrder_Permutation|].
  split; [apply getOptimizedCDNOrder_promoted|apply getOptimizedCDNOrder_unchanged].
Qed.

Lemma X1_cdn_order_is_a_reordering_witness :
  (∃ before after,
     V4.cdnURLs V4.chatgpt = before ++ Examples.githack :: after
     ∧ (Examples.githack ∉ before)
     ∧ V4.getOptimizedCDNOrder V4.chatgpt (fst Examples.after_githack)
       = Examples.githack :: before ++ after)
  ∧ V4.getOptimizedCDNOrder V4.chatgpt
      (V4.set_successfulCDN (Some (js "https://example.org/old.css")) V4.initial_state)
    = V4.cdnURLs V4.chatgpt.
Proof.
  split.
  - apply (X1_cdn_order_is_a_reordering V4.chatgpt (fst Examples.after_githack));
      [reflexivity|vm_compute; discriminate|].
    apply list_elem_of_In. vm_compute. tauto.
  - apply (X1_cdn_order_is_a_reordering V4.chatgpt).
    intros u [= <-]. right. intros H%list_elem_of_In. vm_compute in H.
    intuition discriminate.
Defined.


(** ** v4.0: the requests of a fetch cycle *)

Section V4Walked.
Import V4.
Variable site : SiteProfile.
Variable env : environment event world.

(** One turn of the loop over the methods, run: one request, logged; then
    the walk is over with a stylesheet or goes on with the methods left. *)
Lemma try_methods_step n u m rest s :
  (∃ c s',
     run_from env n (try_methods site u (m :: rest) s) = (Ok (Some c), s')
     ∧ requests_from env n (try_methods site u (m :: rest) s)
       = [(u, transport_of m)]
     ∧ logged (fst s') = logged (fst s) ++ [(u, transport_of m)])
  ∨ (∃ k s',
       run_from env n (try_methods site u (m :: rest) s)
       = run_from env k (try_methods site u rest s')
       ∧ requests_from env n (try_methods site u (m :: rest) s)
         = (u, transport_of m) :: requests_from env k (try_methods site u rest s')
       ∧ logged (fst s') = logged (fst s) ++ [(u, transport_of m)]).
Proof.
  unfold requests_from.
  cbn [try_methods]. unfold bind, try_catch, awaited, fetchFromURL, try_catch, bind, await.
  cbn [bind_step catch_step a_turn_later run_from events_from].
  destruct (env n response (Request u (transport_of m)) (snd s)) as [r w'].
  cbn [fst snd].
  assert (Hlog : ∀ a, url a = u → via a = m →
            logged (push_attempt a (fst s)) = logged (fst s) ++ [(u, transport_of m)]).
  { intros a <- <-. unfold logged, push_attempt. cbn. by rewrite map_app. }
  destruct (receive m r) as [e|c] eqn:Hrcv.
  - right. cbn. destruct (env (S n) unit Tick w') as [[] w2]. cbn.
    eexists _, _. split; [reflexivity|]. split; [reflexivity|].
    cbn [fst]. by apply Hlog.
  - destruct m; cbn.
    + destruct (env (S n) unit Tick w') as [[] w2]. cbn.
      destruct (validate c) as [e|] eqn:Hv.
      * right. cbn. destruct (env (S (S n)) unit Tick w2) as [[] w3]. cbn.
        eexists _, _. split; [reflexivity|]. split; [reflexivity|].
        cbn [fst]. by apply Hlog.
      * left. cbn. destruct (env (S (S n)) unit Tick w2) as [[] w3]. cbn.
        destruct c as [|x c]; [discriminate Hv|]. cbn.
        eexists _, _. split; [reflexivity|]. split; [reflexivity|].
        cbn [fst]. rewrite saveToCache_fst. cbn [fst].
        by apply (Hlog (mkAttempt u fetch true None (Some (jslength (x :: c))))).
    + destruct (validate c) as [e|] eqn:Hv.
      * right. cbn. destruct (env (S n) unit Tick w') as [[] w2]. cbn.
        eexists _, _. split; [reflexivity|]. split; [reflexivity|].
        cbn [fst]. by apply Hlog.
      * left. cbn. destruct (env (S n) unit Tick w') as [[] w2]. cbn.
        destruct c as [|x c]; [discriminate Hv|]. cbn.
        eexists _, _. split; [reflexivity|]. split; [reflexivity|].
        cbn [fst]. rewrite saveToCache_fst. cbn [fst].
        by apply (Hlog (mkAttempt u xhr true None (Some (jslength (x :: c))))).
Qed.

Lemma try_methods_walked n u ms s :
  walked env n (try_methods site u ms s) s (map (λ m, (u, transport_of m)) ms).
Proof.
  revert n s. induction ms as [|m rest IH]; intros n s.
  { unfold walked, works_through. cbn. by rewrite app_nil_r. }
  unfold walked, works_through.
  destruct (try_methods_step n u m rest s)
    as [(c & s' & -> & -> & Hlog)|(k & s' & -> & -> & Hlog)]; cbn [fst snd map].
  - split; [split; [|done]|done]. apply prefix_cons, prefix_nil.
  - destruct (IH k s') as [[Hpre Hend] Hlogged]. split; [split|].
    + by apply prefix_cons.
    + destruct (run_from env k (try_methods site u rest s')) as [[[c|]|e] s''];
        cbn [fst] in *; try done. by rewrite Hend.
    + by rewrite Hlogged, Hlog, <- app_assoc.
Qed.

(** A part of the walk that ends with nothing, followed by another. *)
Lemma walked_then {A} n (p : step event St (option A)) (q : Task (option A)) s l1 l2 :
  walked env n p s l1 →
  (∀ n' s', walked env n' (q s') s' l2) →
  walked env n
    (bind_step p (λ r, match r with Some c => ret (Some c) | None => q end))
    s (l1 ++ l2).
Proof.
  intros [[Hpre Hend] Hlog] Hq. unfold walked, works_through.
  rewrite run_from_bind, requests_from_bind.
  destruct (run_from env n p) as [[[c|]|e] s1]; cbn [fst snd] in *; [| |done].
  - rewrite app_nil_r. split; [split; [|done]|done]. by apply prefix_app_r.
  - destruct (Hq (n + length (events_from env n p))%nat s1) as [[Hpre' Hend'] Hlog'].
    rewrite Hend. split; [split|].
    + by apply prefix_app.
    + destruct (run_from env _ (q s1)) as [[[c|]|e] s2]; cbn [fst] in *; try done.
      by rewrite Hend'.
    + by rewrite Hlog', Hlog, Hend, <- app_assoc.
Qed.

Lemma try_urls_walked n urls s : walked env n (try_urls site urls s) s (pass urls).
Proof.
  revert n s. induction urls as [|u rest IH]; intros n s.
  { unfold walked, works_through. cbn. by rewrite app_nil_r. }
  cbn [try_urls pass flat_map]. unfold bind.
  apply walked_then; [apply try_methods_walked|]. intros n' s'. apply IH.
Qed.

Lemma try_passes_walked n urls retries s :
  walked env n (try_passes site urls retries s) s
    (concat (map (λ _, pass urls) retries)).
Proof.
  revert n s. induction retries as [|retry rest IH]; intros n s.
  { unfold walked, works_through. cbn. by rewrite app_nil_r. }
  cbn [try_passes map concat]. unfold bind.
  apply walked_then; [apply try_urls_walked|]. intros n' s'.
  destruct (retry <? MAX_RETRIES - 1)%nat; [|apply IH].
  unfold walked, works_through, requests_from, await.
  cbn [bind_step run_from events_from].
  destruct (env n' unit (Sleep _) (snd s')) as [[] w']. cbn [omap request_of projT2].
  apply (IH (S n') (fst s', w')).
Qed.

Lemma getOptimizedCDNOrder_successfulCDN σ σ' :
  successfulCDN σ = successfulCDN σ' →
  getOptimizedCDNOrder site σ = getOptimizedCDNOrder site σ'.
Proof. unfold getOptimizedCDNOrder. by intros ->. Qed.

Lemma getFromCache_successfulCDN σ σ' w :
  successfulCDN σ = successfulCDN σ' →
  successfulCDN (fst (snd (getFromCache site (σ, w))))
  = successfulCDN (fst (snd (getFromCache site (σ', w)))).
Proof.
  intros H. unfold getFromCache. cbn [fst snd].
  destruct (getItem _ _) as [e|[t|]]; try exact H.
  destruct (JSON_parse t) as [e|[b|d]]; try exact H.
  destruct (_ >? _); [exact H|reflexivity].
Qed.

Lemma getFromCache_fetchAttempts s :
  fetchAttempts (fst (snd (getFromCache site s))) = fetchAttempts (fst s)
  ∧ isFetching (fst (snd (getFromCache site s))) = isFetching (fst s).
Proof.
  destruct (getFromCache_state site s) as [o ->]. done.
Qed.

(** The requests of a fetch cycle. *)
Lemma fetchCSS_walked s :
  isFetching (fst s) = false →
  let urls := getOptimizedCDNOrder site (fst (snd (getFromCache site s))) in
  let plan := concat (replicate MAX_RETRIES (pass urls)) in
  let reqs := requests_from env 0 (fetchCSS site s) in
  reqs `prefix_of` plan
  ∧ logged (fst (snd (run env (fetchCSS site) s))) = reqs
  ∧ (truthy (fst (getFromCache site s)) = true → reqs = [])
  ∧ (truthy (fst (getFromCache site s)) = false →
     fst (run env (fetchCSS site) s) = Ok None → reqs = plan).
Proof.
  intros Hidle. cbv zeta. unfold run.
  unfold fetchCSS, bind, gets. cbn [bind_step]. rewrite Hidle.
  cbn -[try_passes getFromCache getOptimizedCDNOrder seq replicate
        requests_from run_from].
  unfold call. destruct s as [σ w]. cbn [fst snd].
  rewrite (getFromCache_world site σ (set_fetchAttempts [] (set_isFetching true σ)) w).
  rewrite (getOptimizedCDNOrder_successfulCDN _ _
             (getFromCache_successfulCDN σ (set_fetchAttempts [] (set_isFetching true σ))
                w eq_refl)).
  pose proof (getFromCache_fetchAttempts
                (set_fetchAttempts [] (set_isFetching true σ), w)) as [Hlog0 _].
  destruct (getFromCache site (set_fetchAttempts [] (set_isFetching true σ), w))
    as [cached s1]. cbn [fst snd] in *.
  cbn [bind_step].
  destruct (truthy cached) eqn:Hc.
  - cbn. unfold logged. rewrite Hlog0. split; [apply prefix_nil|done].
  - destruct (try_passes_walked 0 (getOptimizedCDNOrder site (fst s1))
                (seq 0 MAX_RETRIES) s1) as [[Hpre Hend] Hlogged].
    rewrite run_from_bind, requests_from_bind.
    unfold logged in Hlogged at 2. rewrite Hlog0 in Hlogged. cbn [map app] in Hlogged.
    change (concat (map (λ _, pass (getOptimizedCDNOrder site (fst s1)))
                      (seq 0 MAX_RETRIES)))
      with (concat (replicate MAX_RETRIES (pass (getOptimizedCDNOrder site (fst s1)))))
      in *.
    destruct (run_from env 0 (try_passes site _ _ s1)) as [[[c|]|e] s2];
      cbn [fst snd] in *; [| |done];
      unfold ret, on_state, modify; cbn [bind_step];
      rewrite ?requests_from_Return, ?app_nil_r; cbn [run_from fst snd];
      cbn [fetchAttempts set_fetchAttempts map app] in Hlogged.
    + split; [done|]. split; [done|]. split; done.
    + split; [by rewrite Hend|]. split; [exact Hlogged|].
      split; [done|]. intros _ _. exact Hend.
Qed.

End V4Walked.

(** X2. A v4.0 fetch cycle requests the CDNs in the optimized order, each
    with [fetch] and then with XMLHttpRequest, and goes over them
    [MAX_RETRIES] times at most: its requests are the first ones of that
    list, all of it when the cycle ends with nothing, none on a cache hit,
    and the attempts log it leaves lists exactly the requests made. *)
Theorem X2_fetch_cycle_requests :
  ∀ site (env : environment event V4.world) s,
    V4.isFetching (fst s) = false →
    let urls := V4.getOptimizedCDNOrder site (fst (snd (V4.getFromCache site s))) in
    let plan := concat (replicate V4.MAX_RETRIES (V4.pass urls)) in
    let reqs := requests_from env 0 (V4.fetchCSS site s) in
    reqs `prefix_of` plan
    ∧ V4.logged (fst (snd (run env (V4.fetchCSS site) s))) = reqs
    ∧ (truthy (fst (V4.getFromCache site s)) = true → reqs = [])
    ∧ (truthy (fst (V4.getFromCache site s)) = false →
       fst (run env (V4.fetchCSS site) s) = Ok None → reqs = plan).
Proof. exact fetchCSS_walked. Qed.

Lemma X2_fetch_cycle_requests_witness :
  requests_from (Examples.only Examples.githack) 0
    (V4.fetchCSS V4.chatgpt (V4.initial_state, Examples.fresh4))
  `prefix_of` concat (replicate V4.MAX_RETRIES (V4.pass (V4.cdnURLs V4.chatgpt)))
  ∧ length (requests_from Examples.offline 0
              (V4.fetchCSS V4.chatgpt (V4.initial_state, Examples.fresh4))) = 20%nat.
Proof.
  split.
  - apply (X2_fetch_cycle_requests V4.chatgpt (Examples.only Examples.githack)
             (V4.initial_state, Examples.fresh4)). reflexivity.
  - destruct (X2_fetch_cycle_requests V4.chatgpt Examples.offline
                (V4.initial_state, Examples.fresh4) eq_refl) as (_ & _ & _ & Hall).
    rewrite Hall; reflexivity.
Defined.

(** ** v4.0: what a fetch leaves in the cache *)

Section V4Cached.
Import V4.
Variable site : SiteProfile.

(** A cycle that starts on a cache hit makes no request. *)
Lemma fetchCSS_cache_hit σ w c :
  isFetching σ = false → fst (getFromCache site (σ, w)) = Some c →
  truthy (Some c) = true →
  ∃ s', fetchCSS site (σ, w) = Return (Some c) s'.
Proof.
  intros Hidle Hget Hc. unfold fetchCSS, bind, gets. cbn [bind_step fst].
  rewrite Hidle. cbn [bind_step on_state modify fst snd]. unfold call.
  rewrite (getFromCache_world site σ (set_fetchAttempts [] (set_isFetching true σ)) w)
    in Hget.
  destruct (getFromCache site _) as [cached s1]. cbn [fst] in Hget. subst cached.
  cbn [bind_step]. rewrite Hc. cbn. by eexists.
Qed.

(** The walk keeps what holds of the world and of the flag while it is up:
    [P] is such a property, kept by what else runs while the walk waits. *)
Section Kept.
Variable G : ∀ X, event X → X → Prop.
Variable I : St → St → Prop.
Variable P : St → Prop.
Hypothesis P_kept : ∀ s s', P s → I s s' → P s'.
Hypothesis P_script :
  ∀ s σ', P s → isFetching σ' = isFetching (fst s) → P (σ', snd s).

Lemma fetchFromURL_keeps u m s :
  P s →
  always G I P
    (λ r s', snd r = u ∧
             ∃ rsp s1, G _ (Request u (transport_of m)) rsp
                       ∧ accepted m rsp = true ∧ receive m rsp = inr (fst r)
                       ∧ P s1 ∧ s' = after_success u m (fst r) s1)
    (λ _, P)
    (fetchFromURL u m s).
Proof.
  intros Hs. unfold fetchFromURL, try_catch, bind, await. cbn [bind_step catch_step].
  split; [exact Hs|]. intros rsp s' Hrsp Hs'%P_kept; [|exact Hs].
  assert (Hgo : ∀ c s'', receive m rsp = inr c → P s'' →
    always G I P
      (λ r s0, snd r = u ∧
               ∃ rsp s1, G _ (Request u (transport_of m)) rsp
                         ∧ accepted m rsp = true ∧ receive m rsp = inr (fst r)
                         ∧ P s1 ∧ s0 = after_success u m (fst r) s1)
      (λ _, P)
      (catch_step
         (match validate c with
          | Some e => throw e
          | None =>
              λ s, bind_step
                     (on_state (push_attempt (mkAttempt u m true None (Some (jslength c)))) s)
                     (λ _ s, bind_step (on_state (set_successfulCDN (Some u)) s)
                               (λ _, ret (c, u)))
          end s'')
         (λ err s, bind_step (on_state (push_attempt (mkAttempt u m false (Some err) None)) s)
                     (λ _, throw err)))).
  { intros c s'' Hrcv Hs''. destruct (validate c) as [e|] eqn:Hv; cbn.
    - by apply P_script.
    - split; [reflexivity|]. exists rsp, s''. unfold accepted. rewrite Hrcv.
      repeat split; try done. by apply bool_decide_eq_true. }
  destruct (receive m rsp) as [e|c] eqn:Hrcv; cbn; [by apply P_script|].
  destruct m; cbn.
  - split; [exact Hs'|]. intros _ s'' _ Hs''%P_kept; [|exact Hs']. by apply Hgo.
  - by apply Hgo.
Qed.

Lemma try_methods_keeps u ms s :
  P s →
  always G I P
    (λ r s', match r with
             | None => P s'
             | Some c => fetched site G (λ _, P) c s'
             end)
    (λ _ _, False) (try_methods site u ms s).
Proof.
  revert s. induction ms as [|m rest IH]; intros s Hs; [exact Hs|].
  cbn [try_methods]. unfold bind, try_catch.
  eapply always_bind
    with (Q := λ r s', match r with
                       | None => P s'
                       | Some c => fetched site G (λ _, P) c s'
                       end).
  - eapply always_catch with (R := λ _, P); [|intros e s' Hs'; exact Hs'].
    eapply always_bind.
    + eapply always_weaken.
      * apply always_awaited; [by apply fetchFromURL_keeps| |done].
        intros r s' (_ & rsp & s1 & _ & _ & _ & Hs1 & ->).
        by apply (P_script s1).
      * intros r s' H. exact H.
      * intros e s' (s0 & Hs0 & HI). by eapply P_kept.
    + intros [c u'] s' (s0 & (Hu & rsp & s1 & Hrsp & Hacc & Hrcv & Hs1 & ->) & HI).
      cbn [fst snd] in *. subst u'.
      destruct (accepted_receive _ _ Hacc) as (c' & Hrcv' & Hv).
      rewrite Hrcv in Hrcv'. injection Hrcv' as <-.
      rewrite (validate_truthy _ Hv). cbn.
      exists u, m, rsp, s1, s'. repeat split; try done.
      eapply P_kept; [|exact HI]. by apply (P_script s1).
  - intros [c|] s' Hr; [exact Hr|]. by apply IH.
Qed.

Lemma try_urls_keeps urls s :
  P s →
  always G I P
    (λ r s', match r with
             | None => P s'
             | Some c => fetched site G (λ _, P) c s'
             end)
    (λ _ _, False) (try_urls site urls s).
Proof.
  revert s. induction urls as [|u rest IH]; intros s Hs; [exact Hs|].
  cbn [try_urls]. unfold bind.
  eapply always_bind; [by apply try_methods_keeps|].
  intros [c|] s' Hr; [exact Hr|]. by apply IH.
Qed.

Lemma try_passes_keeps urls retries s :
  P s →
  always G I P
    (λ r s', match r with
             | None => P s'
             | Some c => fetched site G (λ _, P) c s'
             end)
    (λ _ _, False) (try_passes site urls retries s).
Proof.
  revert s. induction retries as [|retry rest IH]; intros s Hs; [exact Hs|].
  cbn [try_passes]. unfold bind.
  eapply always_bind; [by apply try_urls_keeps|].
  intros [c|] s' Hr; [exact Hr|].
  destruct (retry <? MAX_RETRIES - 1)%nat; cbn.
  - split; [exact Hr|]. intros _ s'' _ Hs''. apply IH. by eapply P_kept.
  - by apply IH.
Qed.

(** A cycle that finds nothing in the cache: what it returns, it fetched. *)
Lemma fetchCSS_keeps σ w :
  isFetching σ = false → truthy (fst (getFromCache site (σ, w))) = false →
  (∀ σ', isFetching σ' = true → P (σ', w)) →
  always G I P
    (λ r s', match r with
             | None => True
             | Some c => fetched site G (λ _, P) c s'
             end)
    (λ _ _, False) (fetchCSS site (σ, w)).
Proof.
  intros Hidle Hmiss HP. unfold fetchCSS, bind, gets. cbn [bind_step fst]. rewrite Hidle.
  cbn -[try_passes getFromCache getOptimizedCDNOrder seq].
  unfold call.
  rewrite (getFromCache_world site σ (set_fetchAttempts [] (set_isFetching true σ)) w)
    in Hmiss.
  destruct (getFromCache_state site (set_fetchAttempts [] (set_isFetching true σ), w))
    as [o Ho].
  destruct (getFromCache site _) as [cached s1]. cbn [fst snd] in *. subst s1.
  cbn [bind_step]. rewrite Hmiss.
  eapply always_bind.
  - apply try_passes_keeps. by apply HP.
  - intros [c|] s' Hr; cbn; done.
Qed.
End Kept.

Lemma fetched_cached G c s :
  fetched site G (λ _ s2, fetching s2 ∧ writable (snd s2)) c s →
  isFetching (fst s) = false
  ∧ truthy (Some c) = true
  ∧ ∃ u, stored site (snd s) (mkCache c (now (snd s)) u) ∧ readable (snd s).
Proof.
  intros (u & m & rsp & s1 & [σ2 w2] & _ & Hacc & Hrcv & [_ Hw] & ->).
  destruct (accepted_receive _ _ Hacc) as (c' & Hrcv' & Hv).
  rewrite Hrcv in Hrcv'. injection Hrcv' as <-.
  split; [unfold finish; cbn [fst]; by rewrite saveToCache_fst|].
  split; [by apply validate_truthy|].
  unfold finish. cbn [fst snd] in *.
  destruct (v4_save_stored site c u σ2 w2 Hw) as [Hst Hrd].
  assert (Hnow : now (snd (saveToCache site c u (σ2, w2))) = now w2).
  { unfold saveToCache. cbn [fst snd]. by destruct (setItem _ _ _). }
  exists u. rewrite Hnow. done.
Qed.

Lemma fetchCSS_then_cached (env : environment event world) s c :
  isFetching (fst s) = false →
  truthy (fst (getFromCache site s)) = false →
  writable (snd s) →
  (∀ n X ev w, writable w → writable (snd (env n X ev w))) →
  fst (run env (fetchCSS site) s) = Ok (Some c) →
  ∀ w', localStorage w' = localStorage (snd (snd (run env (fetchCSS site) s))) →
        now w' - now (snd (snd (run env (fetchCSS site) s))) ≤ CACHE_DURATION →
        ∃ s'', fetchCSS site (fst (snd (run env (fetchCSS site) s)), w')
               = Return (Some c) s''.
Proof.
  intros Hidle Hmiss Hw Henv Hok w' Hls Hnow. destruct s as [σ w].
  pose proof (always_run anything
                (λ s1 s2, script_kept s1 s2 ∧ (writable (snd s1) → writable (snd s2)))
                (λ s, fetching s ∧ writable (snd s))
                (λ r s', match r with
                         | None => True
                         | Some c =>
                             fetched site anything
                               (λ _ s2, fetching s2 ∧ writable (snd s2)) c s'
                         end)
                (λ _ _, False) env 0 (fetchCSS site (σ, w))) as H.
  unfold run in *. destruct (run_from env 0 (fetchCSS site (σ, w))) as [[r|e] s'];
    [|discriminate]. cbn [fst snd] in *. injection Hok as ->.
  assert (Hnet : fetched site anything (λ _ s2, fetching s2 ∧ writable (snd s2)) c s').
  { apply H; [done| |].
    - intros n X ev σ' w0 [_ Hw0]. split; [reflexivity|]. intros _. by apply Henv.
    - apply fetchCSS_keeps; try done.
      + intros s1 s2 [Hf Hw1] [Hk Hw2]. split; [|by apply Hw2].
        unfold fetching, script_kept in *. congruence.
      + intros s1 σ' [Hf Hw1] Hflag. split; [|exact Hw1].
        unfold fetching in *. cbn [fst]. congruence. }
  destruct (fetched_cached _ _ _ Hnet) as (Hdown & Hc & u & Hst & Hrd).
  apply fetchCSS_cache_hit; [exact Hdown| |exact Hc].
  apply (v4_get_fresh site (fst s') w' (mkCache c (now (snd s')) u)).
  - unfold stored in *. by rewrite Hls.
  - unfold readable in *. by rewrite Hls.
  - exact Hnow.
Qed.

End V4Cached.

(** X3. A stylesheet that a v4.0 fetch cycle got from the network, the
    storage being writable and staying so, is in the cache when the cycle
    ends: a cycle started within the cache duration, with the storage as the
    first one left it, returns the same stylesheet at once, without any
    request. *)
Theorem X3_fetched_stylesheet_is_cached :
  ∀ site (env : environment event V4.world) s c,
    V4.isFetching (fst s) = false →
    truthy (fst (V4.getFromCache site s)) = false →
    V4.writable (snd s) →
    (∀ n X ev w, V4.writable w → V4.writable (snd (env n X ev w))) →
    fst (run env (V4.fetchCSS site) s) = Ok (Some c) →
    ∀ w', V4.localStorage w'
          = V4.localStorage (snd (snd (run env (V4.fetchCSS site) s))) →
          V4.now w' - V4.now (snd (snd (run env (V4.fetchCSS site) s)))
          ≤ V4.CACHE_DURATION →
          ∃ s'', V4.fetchCSS site (fst (snd (run env (V4.fetchCSS site) s)), w')
                 = Return (Some c) s''.
Proof. exact fetchCSS_then_cached. Qed.

Lemma X3_fetched_stylesheet_is_cached_witness :
  ∃ s'', V4.fetchCSS V4.chatgpt
           (fst (snd (run (Examples.only Examples.githack) (V4.fetchCSS V4.chatgpt)
                        (V4.initial_state, Examples.fresh4))),
            snd (snd (run (Examples.only Examples.githack) (V4.fetchCSS V4.chatgpt)
                        (V4.initial_state, Examples.fresh4))))
         = Return (Some Examples.stylesheet) s''.
Proof.
  apply (X3_fetched_stylesheet_is_cached V4.chatgpt (Examples.only Examples.githack)
           (V4.initial_state, Examples.fresh4) Examples.stylesheet);
    [reflexivity|reflexivity|split; reflexivity| |vm_compute; reflexivity|reflexivity
    |unfold V4.CACHE_DURATION; lia].
  intros n X ev w Hw. by destruct ev.
Defined.

(** ** v4.0: the injected element *)

Lemma getElementById_unique i d el :
  el ∈ all_elements d → id el = i →
  (∀ el', el' ∈ all_elements d → id el' = i → el' = el) →
  getElementById i d = Some el.
Proof.
  intros Hel Hid Huniq.
  destruct (getElementById_is_Some i d el Hel Hid) as [el' Hget].
  rewrite Hget. f_equal.
  apply getElementById_Some in Hget as [Hel' Hid']. by apply Huniq.
Qed.

Lemma blank_iff (c : option jsstring) :
  negb (truthy c) || (jslength (trim (default [] c)) =? 0) = true
  ↔ trim (default [] c) = [].
Proof.
  destruct c as [c|]; [|by split].
  change (default [] (Some c)) with c.
  destruct (negb (truthy (Some c)) || (jslength (trim c) =? 0)) eqn:E.
  - split; [intros _|done].
    destruct (decide (trim c = [])) as [|Hne]; [done|].
    apply trim_nonempty in Hne. congruence.
  - split; [discriminate|]. intros Ht. by apply trim_nonempty in E.
Qed.

Section V4Inject.
Import V4.
Variable site : SiteProfile.

Lemma inject_blank c s :
  trim (default [] c) = [] → inject site c s = (false, s).
Proof. intros H%blank_iff. unfold inject. by rewrite H. Qed.

(** The element found by the artifact id after [inject] is the one it
    made. *)
Lemma inject_artifact c s :
  trim (default [] c) ≠ [] → at_most_one site (document (snd s)) →
  fst (inject site c s) = true
  ∧ fst (snd (inject site c s)) = fst s
  ∧ ∃ el, styleElement site (document (snd (snd (inject site c s)))) = Some el
          ∧ tagName el = STYLE ∧ textContent el = default [] c
          ∧ attributes el !! js "data-cdn"
            = Some (if truthy (successfulCDN (fst s))
                    then default [] (successfulCDN (fst s)) else js "cached")
          ∧ attributes el !! js "data-source" = Some (js "berry-styler-cdn").
Proof.
  intros Hc Hone.
  assert (Hb : negb (truthy c) || (jslength (trim (default [] c)) =? 0) = false).
  { apply not_true_iff_false. by rewrite blank_iff. }
  unfold inject. rewrite Hb. cbn -[appendChild remove].
  split; [reflexivity|]. split; [reflexivity|].
  eexists. split; [|split; [|split; [|split]]].
  - pose proof (v4_remove_clears site _ Hone) as Hnone.
    unfold styleElement in *. rewrite getElementById_None in Hnone.
    apply getElementById_unique.
    + apply elem_of_appendChild.
      destruct (bool_decide (is_Some (head (remove site (document (snd s)))))) eqn:E;
        [exact E|reflexivity].
    + reflexivity.
    + intros el' [->|Hel']%elem_of_appendChild_inv Hid'; [reflexivity|].
      by destruct (Hnone el' Hel').
  - reflexivity.
  - reflexivity.
  - cbn. reflexivity.
  - cbn. reflexivity.
Qed.

End V4Inject.

(** X4. v4.0 [inject] refuses a stylesheet that is absent or blank and then
    leaves the document as it is.  Otherwise, in a document with at most one
    element bearing the artifact id, the element found by that id afterwards
    is the new [style] element: its text is the stylesheet and its
    [data-cdn] attribute names the remembered CDN, or "cached". *)
Theorem X4_inject_replaces_the_artifact :
  ∀ site c s,
    (trim (default [] c) = [] → V4.inject site c s = (false, s))
    ∧ (trim (default [] c) ≠ [] →
       V4.at_most_one site (V4.document (snd s)) →
       fst (V4.inject site c s) = true
       ∧ fst (snd (V4.inject site c s)) = fst s
       ∧ ∃ el,
           V4.styleElement site (V4.document (snd (snd (V4.inject site c s))))
           = Some el
           ∧ tagName el = STYLE ∧ textContent el = default [] c
           ∧ attributes el !! js "data-cdn"
             = Some (if truthy (V4.successfulCDN (fst s))
                     then default [] (V4.successfulCDN (fst s)) else js "cached")
           ∧ attributes el !! js "data-source" = Some (js "berry-styler-cdn")).
Proof.
  intros site c s. split; [apply inject_blank|apply inject_artifact].
Qed.

Lemma X4_inject_replaces_the_artifact_witness :
  V4.inject V4.chatgpt (Some (js "   ")) (V4.initial_state, Examples.fresh4)
  = (false, (V4.initial_state, Examples.fresh4))
  ∧ ∃ el,
      V4.styleElement V4.chatgpt
        (V4.document
           (snd (snd (V4.inject V4.chatgpt (Some Examples.stylesheet)
                        (snd (V4.inject V4.chatgpt (Some (js "a{}"))
                                (V4.initial_state, Examples.fresh4)))))))
      = Some el
      ∧ textContent el = Examples.stylesheet.
Proof.
  split.
  - apply (X4_inject_replaces_the_artifact V4.chatgpt). reflexivity.
  - destruct (X4_inject_replaces_the_artifact V4.chatgpt (Some Examples.stylesheet)
                (snd (V4.inject V4.chatgpt (Some (js "a{}"))
                        (V4.initial_state, Examples.fresh4)))) as [_ H].
    destruct H as (_ & _ & el & Hel & _ & Htext & _);
      [vm_compute; discriminate|vm_compute; lia|].
    exists el. split; [exact Hel|exact Htext].
Defined.

(** ** v4.0: the toggle *)

Section V4Toggle.
Import V4.
Variable site : SiteProfile.

Lemma trim_truthy (c : option jsstring) : trim (default [] c) ≠ [] → truthy c = true.
Proof. destruct c as [[|x c]|]; try done; intros H; by destruct H. Qed.

(** The flag as [setEnabled] leaves it in a writable storage. *)
Lemma setEnabled_stored b σ w :
  writable w →
  setEnabled site b (σ, w)
  = (set_isEnabled (VBool b) σ,
     set_localStorage
       (mkStorage (<[enabledKey site := Json (VBool b)]> (items (localStorage w)))
          false false) w)
  ∧ ∀ w', localStorage w' = localStorage (snd (setEnabled site b (σ, w))) →
          getEnabled site w' = VBool b.
Proof.
  intros [Hd Hq]. unfold setEnabled, setItem, JSON_stringify. cbn [fst snd].
  rewrite Hd, Hq. split; [reflexivity|].
  intros w' Hw'. unfold getEnabled, getItem. rewrite Hw'. cbn.
  by rewrite lookup_insert_eq.
Qed.

Lemma setEnabled_document b s : document (snd (setEnabled site b s)) = document (snd s).
Proof. unfold setEnabled. by destruct (setItem _ _ _). Qed.

Lemma inject_localStorage c s :
  localStorage (snd (snd (inject site c s))) = localStorage (snd s).
Proof. unfold inject. by destruct (negb _ || _). Qed.

Lemma toggle_off σ w :
  at_most_one site (document w) → truthy_value (isEnabled σ) = true →
  ∃ s', toggle site (σ, w) = Return tt s'
        ∧ isEnabled (fst s') = VBool false
        ∧ styleElement site (document (snd s')) = None
        ∧ (writable w →
           ∀ w', localStorage w' = localStorage (snd s') →
                 getEnabled site w' = VBool false).
Proof.
  intros Hone Hen. unfold toggle, bind, on_state, gets, modify.
  cbn [bind_step fst snd]. rewrite Hen. cbn [negb isEnabled set_isEnabled truthy_value].
  unfold setEnabled at 1 2. cbn [fst snd].
  destruct (setItem _ _ (localStorage w)) as [e|ls] eqn:Hset; cbn [fst snd bind_step].
  - unfold on_world, modify. eexists. split; [reflexivity|]. cbn [fst snd].
    split; [reflexivity|]. split; [by apply v4_remove_clears|].
    intros [Hd Hq]. unfold setItem in Hset. rewrite Hd, Hq in Hset. discriminate.
  - unfold on_world, modify. eexists. split; [reflexivity|]. cbn [fst snd].
    split; [reflexivity|]. split; [by apply v4_remove_clears|].
    intros Hw w' Hw'.
    destruct (setEnabled_stored false σ w Hw) as [Heq Hget]. apply Hget.
    etransitivity; [exact Hw'|]. unfold setEnabled. cbn [fst snd]. by rewrite Hset.
Qed.

Lemma toggle_on σ w :
  at_most_one site (document w) → truthy_value (isEnabled σ) = false →
  trim (default [] (cssContent σ)) ≠ [] →
  ∃ s' el, toggle site (σ, w) = Return tt s'
           ∧ isEnabled (fst s') = VBool true
           ∧ styleElement site (document (snd s')) = Some el
           ∧ textContent el = default [] (cssContent σ)
           ∧ (writable w →
              ∀ w', localStorage w' = localStorage (snd s') →
                    getEnabled site w' = VBool true).
Proof.
  intros Hone Hen Hcss. unfold toggle, bind, on_state, gets, modify.
  cbn [bind_step fst snd]. rewrite Hen. cbn [negb isEnabled set_isEnabled truthy_value].
  pose proof (setEnabled_document true (set_isEnabled (VBool true) σ, w)) as Hdoc.
  assert (Hst : isEnabled (fst (setEnabled site true (set_isEnabled (VBool true) σ, w)))
                = VBool true
                ∧ cssContent (fst (setEnabled site true (set_isEnabled (VBool true) σ, w)))
                  = cssContent σ).
  { unfold setEnabled. cbn [fst snd]. by destruct (setItem _ _ _). }
  destruct Hst as [Hflag Hc].
  assert (Hls : writable w →
                localStorage (snd (setEnabled site true (set_isEnabled (VBool true) σ, w)))
                = localStorage (snd (setEnabled site true (σ, w)))).
  { intros [Hd Hq]. unfold setEnabled, setItem. cbn [fst snd]. by rewrite Hd, Hq. }
  destruct (setEnabled site true (set_isEnabled (VBool true) σ, w)) as [σ1 w1].
  cbn [fst snd] in *. rewrite Hflag. cbn [truthy_value bind_step fst snd].
  rewrite Hc, (trim_truthy _ Hcss). unfold call.
  destruct (inject_artifact site (cssContent σ) (σ1, w1)) as (Hok & Hfst & el & Hel & _ & Htxt & _);
    [exact Hcss|cbn [snd]; by rewrite Hdoc|].
  pose proof (inject_localStorage (cssContent σ) (σ1, w1)) as Hinj.
  destruct (inject site (cssContent σ) (σ1, w1)) as [ok [σ2 w2]].
  cbn [fst snd bind_step] in *. subst σ2.
  exists (σ1, w2), el. split; [reflexivity|]. cbn [fst snd].
  split; [exact Hflag|]. split; [exact Hel|]. split; [exact Htxt|].
  intros Hw w' Hw'.
  destruct (setEnabled_stored true σ w Hw) as [_ Hget]. apply Hget.
  etransitivity; [exact Hw'|]. by rewrite <- (Hls Hw).
Qed.

(** [init] when the stored flag says disabled. *)
Lemma init_disabled σ w :
  getEnabled site w = VBool false →
  init site (σ, w) = Return tt (set_isEnabled (VBool false) σ, w).
Proof.
  intros H. unfold init, bind, modify, gets. cbn [bind_step fst snd]. by rewrite H.
Qed.

End V4Toggle.

(** X5. The v4.0 toggle, in a document with at most one element bearing the
    artifact id: switching off removes the artifact; switching on with a
    stylesheet already loaded injects that stylesheet; either way it ends at
    once, without a network request, and a writable storage then holds the
    new flag. *)
Theorem X5_toggle_switches_the_style :
  ∀ site σ w,
    V4.at_most_one site (V4.document w) →
    (V4.truthy_value (V4.isEnabled σ) = true →
     ∃ s', V4.toggle site (σ, w) = Return tt s'
           ∧ V4.isEnabled (fst s') = V4.VBool false
           ∧ V4.styleElement site (V4.document (snd s')) = None
           ∧ (V4.writable w →
              ∀ w', V4.localStorage w' = V4.localStorage (snd s') →
                    V4.getEnabled site w' = V4.VBool false))
    ∧ (V4.truthy_value (V4.isEnabled σ) = false →
       trim (default [] (V4.cssContent σ)) ≠ [] →
       ∃ s' el, V4.toggle site (σ, w) = Return tt s'
                ∧ V4.isEnabled (fst s') = V4.VBool true
                ∧ V4.styleElement site (V4.document (snd s')) = Some el
                ∧ textContent el = default [] (V4.cssContent σ)
                ∧ (V4.writable w →
                   ∀ w', V4.localStorage w' = V4.localStorage (snd s') →
                         V4.getEnabled site w' = V4.VBool true)).
Proof.
  intros site σ w Hone. split; [by apply toggle_off|by apply toggle_on].
Qed.

Lemma X5_toggle_switches_the_style_witness :
  (∃ s', V4.toggle V4.chatgpt (V4.initial_state, Examples.fresh4) = Return tt s'
         ∧ V4.isEnabled (fst s') = V4.VBool false
         ∧ V4.styleElement V4.chatgpt (V4.document (snd s')) = None
         ∧ V4.getEnabled V4.chatgpt (snd s') = V4.VBool false)
  ∧ (∃ s' el,
       V4.toggle V4.chatgpt
         (V4.set_isEnabled (V4.VBool false) (fst Examples.after_githack), Examples.fresh4)
       = Return tt s'
       ∧ textContent el = Examples.stylesheet
       ∧ V4.styleElement V4.chatgpt (V4.document (snd s')) = Some el).
Proof.
  destruct (X5_toggle_switches_the_style V4.chatgpt V4.initial_state Examples.fresh4)
    as [Hoff _]; [vm_compute; lia|].
  destruct (X5_toggle_switches_the_style V4.chatgpt
              (V4.set_isEnabled (V4.VBool false) (fst Examples.after_githack))
              Examples.fresh4) as [_ Hon]; [vm_compute; lia|].
  split.
  - destruct (Hoff eq_refl) as (s' & Heq & Hflag & Hnone & Hget).
    exists s'. repeat split; try done. apply Hget; [split; reflexivity|reflexivity].
  - destruct Hon as (s' & el & Heq & _ & Hel & Htxt & _);
      [reflexivity|vm_compute; discriminate|].
    exists s', el. done.
Defined.

(** X6. Switching off persists: after a v4.0 toggle that switched the style
    off with the storage writable, a start-up of the script on the storage
    the toggle left reads the flag, ends at once and leaves the document
    alone; it requests and injects nothing. *)
Theorem X6_disabled_stays_disabled :
  ∀ site (env : environment event V4.world) σ w σ0 w0,
    V4.at_most_one site (V4.document w) →
    V4.truthy_value (V4.isEnabled σ) = true →
    V4.writable w →
    V4.localStorage w0
    = V4.localStorage (snd (snd (run env (V4.toggle site) (σ, w)))) →
    V4.init site (σ0, w0) = Return tt (V4.set_isEnabled (V4.VBool false) σ0, w0).
Proof.
  intros site env σ w σ0 w0 Hone Hen Hw Hls.
  destruct (toggle_off site σ w Hone Hen) as (s' & Heq & _ & _ & Hget).
  apply init_disabled. apply (Hget Hw).
  unfold run in Hls. by rewrite Heq in Hls.
Qed.

Lemma X6_disabled_stays_disabled_witness :
  V4.init V4.chatgpt
    (V4.initial_state,
     snd (snd (run Examples.offline (V4.toggle V4.chatgpt)
                 (V4.initial_state, Examples.fresh4))))
  = Return tt
      (V4.set_isEnabled (V4.VBool false) V4.initial_state,
       snd (snd (run Examples.offline (V4.toggle V4.chatgpt)
                   (V4.initial_state, Examples.fresh4)))).
Proof.
  apply (X6_disabled_stays_disabled V4.chatgpt Examples.offline
           V4.initial_state Examples.fresh4);
    [vm_compute; lia|reflexivity|split; reflexivity|reflexivity].
Defined.

(** ** v4.0: from the fetch to the document *)

Section V4Load.
Import V4.
Variable site : SiteProfile.
Variable G : ∀ X, event X → X → Prop.

(** A property of the document and of the stylesheets that wait for
    DOMContentLoaded, neither of which the fetch cycle touches. *)
Variable P : St → Prop.
Hypothesis P_frame :
  ∀ s s', document (snd s') = document (snd s) →
          pendingInjections (fst s') = pendingInjections (fst s) → P s → P s'.

Lemma lift_keeps_frame {A} (r : exn + A) : preserves G P (lift r).
Proof. destruct r; preserve. Qed.

Lemma saveToCache_document c u s :
  document (snd (saveToCache site c u s)) = document (snd s).
Proof. unfold saveToCache. by destruct (setItem _ _ _). Qed.

Ltac frame :=
  apply preserves_modify; intros [σ w] H;
  eapply P_frame; [| |exact H]; reflexivity.

Lemma fetchFromURL_keeps_frame u m : preserves G P (fetchFromURL u m).
Proof.
  unfold fetchFromURL. preserve; first [apply lift_keeps_frame|frame].
Qed.

Lemma try_methods_keeps_frame u ms : preserves G P (try_methods site u ms).
Proof.
  induction ms as [|m rest IH]; cbn [try_methods]; [apply preserves_ret|].
  apply preserves_bind; [|intros [c|]; [apply preserves_ret|exact IH]].
  apply preserves_catch; [|intros e; apply preserves_ret].
  apply preserves_bind;
    [apply preserves_awaited, fetchFromURL_keeps_frame|intros [c successURL]].
  destruct (truthy (Some c)); [|apply preserves_ret].
  apply preserves_bind; [|intros _].
  { apply preserves_modify. intros s H. eapply P_frame; [| |exact H].
    - apply saveToCache_document.
    - by rewrite saveToCache_fst. }
  do 2 (apply preserves_bind; [frame|intros _]). apply preserves_ret.
Qed.

Lemma try_urls_keeps_frame urls : preserves G P (try_urls site urls).
Proof.
  induction urls as [|u rest IH]; cbn [try_urls]; [apply preserves_ret|].
  apply preserves_bind; [apply try_methods_keeps_frame|].
  intros [c|]; [apply preserves_ret|exact IH].
Qed.

Lemma try_passes_keeps_frame urls retries :
  preserves G P (try_passes site urls retries).
Proof.
  induction retries as [|retry rest IH]; cbn [try_passes]; [apply preserves_ret|].
  apply preserves_bind; [apply try_urls_keeps_frame|].
  intros [c|]; [apply preserves_ret|].
  apply preserves_bind; [|intros _; exact IH].
  destruct (retry <? MAX_RETRIES - 1)%nat; [apply preserves_await|apply preserves_ret].
Qed.

Lemma fetchCSS_keeps_frame : preserves G P (fetchCSS site).
Proof.
  unfold fetchCSS.
  apply preserves_bind; [apply preserves_gets|]. intros [|]; [apply preserves_ret|].
  do 2 (apply preserves_bind; [frame|intros _]).
  apply preserves_bind.
  { apply preserves_call. intros s H.
    destruct (getFromCache_state site s) as [o Ho]. rewrite Ho.
    eapply P_frame; [| |exact H]; [reflexivity|].
    cbn [fst snd]. by destruct o. }
  intros cached. destruct (truthy cached).
  - do 2 (apply preserves_bind; [frame|intros _]). apply preserves_ret.
  - apply preserves_bind; [apply preserves_gets|]. intros urls.
    apply preserves_bind; [apply try_passes_keeps_frame|].
    intros [c|]; [apply preserves_ret|].
    apply preserves_bind; [frame|intros _; apply preserves_ret].
Qed.

End V4Load.

Section V4LoadRun.
Import V4.
Variable site : SiteProfile.

(** The run of [loadAndApplyCSS] when the fetch cycle returns a stylesheet:
    the cycle, a turn, then [inject] or its registration for
    DOMContentLoaded. *)
Lemma loadAndApplyCSS_run (env : environment event world) s c :
  fst (run env (fetchCSS site) s) = Ok (Some c) →
  truthy (Some c) = true →
  ∃ w, document w
       = document (snd (env (length (events_from env 0 (fetchCSS site s))) unit Tick
                          (snd (snd (run env (fetchCSS site) s)))))
  ∧ run env (loadAndApplyCSS site) s
    = (Ok tt,
       let σ := set_cssContent (Some c) (fst (snd (run env (fetchCSS site) s))) in
       match ready (document w) with
       | loading => (set_pendingInjections (pendingInjections σ ++ [c]) σ, w)
       | _ => snd (inject site (Some c) (σ, w))
       end).
Proof.
  intros Hok Hc. eexists. split; [reflexivity|]. unfold run in *.
  unfold loadAndApplyCSS, try_catch, bind, awaited.
  rewrite run_from_catch, run_from_bind, run_from_awaited_eq.
  rewrite Hok. cbn [fst snd Nat.add]. rewrite Hc.
  unfold on_state, modify, gets, call, ret. cbn [bind_step fst snd].
  destruct (ready _); [reflexivity| |].
  all: cbn [bind_step]; by destruct (inject site _ _).
Qed.

Lemma ready_appendChild t e d : ready (appendChild t e d) = ready d.
Proof. by destruct t. Qed.

Lemma inject_ready c s :
  ready (document (snd (snd (inject site c s)))) = ready (document (snd s)).
Proof.
  unfold inject. destruct (negb (truthy c) || _); [reflexivity|].
  cbn -[remove appendChild]. rewrite ready_appendChild. cbn -[remove].
  unfold remove. by destruct (styleElement site _).
Qed.

Lemma inject_pendingInjections c s :
  pendingInjections (fst (snd (inject site c s))) = pendingInjections (fst s).
Proof. unfold inject. by destruct (negb (truthy c) || _). Qed.

(** What the fetch cycle of a run leaves of a property of the document and
    of the stylesheets that wait; the environment keeps the property. *)
Lemma fetchCSS_run_frame (P : St → Prop) (env : environment event world) s :
  (∀ s s', document (snd s') = document (snd s) →
           pendingInjections (fst s') = pendingInjections (fst s) → P s → P s') →
  (∀ n X ev σ w, P (σ, w) → P (σ, snd (env n X ev w))) →
  P s →
  P (fst (snd (run env (fetchCSS site) s)),
     snd (env (length (events_from env 0 (fetchCSS site s))) unit Tick
            (snd (snd (run env (fetchCSS site) s))))).
Proof.
  intros Hframe Henv Hs. apply Henv.
  pose proof (always_run anything (λ _, P) P (λ _, P) (λ _, P)
                env 0 (fetchCSS site s)) as H.
  unfold run. destruct (run_from env 0 (fetchCSS site s)) as [[r|e] [σ' w']].
  all: apply H; [done|exact Henv|by apply fetchCSS_keeps_frame].
Qed.

Lemma loadAndApplyCSS_artifact (env : environment event world) s c :
  at_most_one site (document (snd s)) →
  ready (document (snd s)) ≠ loading →
  (∀ n X ev w, at_most_one site (document w) →
               at_most_one site (document (snd (env n X ev w)))) →
  (∀ n X ev w, ready (document w) ≠ loading →
               ready (document (snd (env n X ev w))) ≠ loading) →
  fst (run env (fetchCSS site) s) = Ok (Some c) →
  trim c ≠ [] →
  fst (run env (loadAndApplyCSS site) s) = Ok tt
  ∧ cssContent (fst (snd (run env (loadAndApplyCSS site) s))) = Some c
  ∧ ∃ el, styleElement site (document (snd (snd (run env (loadAndApplyCSS site) s))))
          = Some el
          ∧ tagName el = STYLE ∧ textContent el = c.
Proof.
  intros Hone Hready Henv1 Henv2 Hok Hc.
  destruct (fetchCSS_run_frame
              (λ s, at_most_one site (document (snd s))
                    ∧ ready (document (snd s)) ≠ loading) env s) as [H1 H2].
  { intros s1 s2 Hd _. by rewrite Hd. }
  { intros n X ev σ w [? ?]. split; [by apply Henv1|by apply Henv2]. }
  { done. }
  cbn [fst snd] in H1, H2.
  destruct (loadAndApplyCSS_run env s c Hok (trim_truthy (Some c) Hc))
    as (w & Hw & ->).
  rewrite <- Hw in H1, H2. cbn [fst snd].
  set (σ := set_cssContent (Some c) (fst (snd (run env (fetchCSS site) s)))).
  destruct (inject_artifact site (Some c) (σ, w))
    as (_ & Hσ & el & Hel & Htag & Htext & _); [exact Hc|exact H1|].
  split; [reflexivity|].
  destruct (ready (document w)); [done| |].
  all: split; [by rewrite Hσ|by exists el].
Qed.

(** The listeners of DOMContentLoaded, one after the other. *)
Lemma fold_inject_at_most_one cs s :
  at_most_one site (document (snd s)) →
  at_most_one site
    (document (snd (fold_left (λ s c, snd (inject site (Some c) s)) cs s))).
Proof.
  revert s. induction cs as [|c cs IH]; intros s Hone; [exact Hone|].
  cbn [fold_left]. apply IH. by apply v4_inject_at_most_one.
Qed.

Lemma onDOMContentLoaded_artifact s cs c :
  pendingInjections (fst s) = cs ++ [c] →
  trim c ≠ [] →
  at_most_one site (document (snd s)) →
  pendingInjections (fst (onDOMContentLoaded site s)) = []
  ∧ ∃ el, styleElement site (document (snd (onDOMContentLoaded site s))) = Some el
          ∧ tagName el = STYLE ∧ textContent el = c.
Proof.
  intros Hp Hc Hone. unfold onDOMContentLoaded. rewrite Hp.
  split; [by destruct (fst _)|]. cbn [snd].
  rewrite fold_left_app. cbn [fold_left].
  destruct (inject_artifact site (Some c)
              (fold_left (λ s c, snd (inject site (Some c) s)) cs s))
    as (_ & _ & el & Hel & Htag & Htext & _);
    [exact Hc|by apply fold_inject_at_most_one|].
  by exists el.
Qed.

Lemma loadAndApplyCSS_pending (env : environment event world) s c :
  fst (run env (fetchCSS site) s) = Ok (Some c) →
  truthy (Some c) = true →
  ready (document (snd (snd (run env (loadAndApplyCSS site) s)))) = loading →
  pendingInjections (fst (snd (run env (loadAndApplyCSS site) s)))
  = pendingInjections (fst s) ++ [c].
Proof.
  intros Hok Hc.
  pose proof (fetchCSS_run_frame
                (λ s', pendingInjections (fst s') = pendingInjections (fst s))
                env s) as Hp.
  cbn [fst snd] in Hp.
  destruct (loadAndApplyCSS_run env s c Hok Hc) as (w & _ & ->). cbn [fst snd].
  set (σ := set_cssContent (Some c) (fst (snd (run env (fetchCSS site) s)))).
  assert (Hσ : pendingInjections σ = pendingInjections (fst s)).
  { subst σ. etransitivity; [|apply Hp; [by intros s1 s2 _ ->|done|done]].
    by destruct (fst _). }
  pose proof (inject_ready (Some c) (σ, w)) as Hr. cbn [snd] in Hr.
  destruct (ready (document w)) eqn:E; [intros _|intros H; congruence..].
  cbn [fst]. rewrite <- Hσ. by destruct σ.
Qed.

End V4LoadRun.

(** X7. v4.0 [loadAndApplyCSS], run on a page that is past loading and has
    at most one element with the artifact id, the page staying so: when its
    fetch cycle returns a stylesheet that is not blank, the call ends
    normally, the script remembers the stylesheet, and the element found by
    the artifact id is a [style] element whose text is that stylesheet. *)
Theorem X7_loaded_stylesheet_is_on_the_page :
  ∀ site (env : environment event V4.world) s c,
    V4.at_most_one site (V4.document (snd s)) →
    ready (V4.document (snd s)) ≠ loading →
    (∀ n X ev w, V4.at_most_one site (V4.document w) →
                 V4.at_most_one site (V4.document (snd (env n X ev w)))) →
    (∀ n X ev w, ready (V4.document w) ≠ loading →
                 ready (V4.document (snd (env n X ev w))) ≠ loading) →
    fst (run env (V4.fetchCSS site) s) = Ok (Some c) →
    trim c ≠ [] →
    fst (run env (V4.loadAndApplyCSS site) s) = Ok tt
    ∧ V4.cssContent (fst (snd (run env (V4.loadAndApplyCSS site) s))) = Some c
    ∧ ∃ el,
        V4.styleElement site
          (V4.document (snd (snd (run env (V4.loadAndApplyCSS site) s)))) = Some el
        ∧ tagName el = STYLE ∧ textContent el = c.
Proof.
  intros site env s c Hone Hready Henv1 Henv2 Hok Hc.
  by apply loadAndApplyCSS_artifact.
Qed.

Lemma X7_loaded_stylesheet_is_on_the_page_witness :
  fst (run (Examples.only Examples.githack) (V4.loadAndApplyCSS V4.chatgpt)
         (V4.initial_state, Examples.fresh4)) = Ok tt
  ∧ V4.cssContent
      (fst (snd (run (Examples.only Examples.githack) (V4.loadAndApplyCSS V4.chatgpt)
                   (V4.initial_state, Examples.fresh4))))
    = Some Examples.stylesheet
  ∧ ∃ el,
      V4.styleElement V4.chatgpt
        (V4.document
           (snd (snd (run (Examples.only Examples.githack)
                        (V4.loadAndApplyCSS V4.chatgpt)
                        (V4.initial_state, Examples.fresh4))))) = Some el
      ∧ tagName el = STYLE ∧ textContent el = Examples.stylesheet.
Proof.
  apply (X7_loaded_stylesheet_is_on_the_page V4.chatgpt
           (Examples.only Examples.githack) (V4.initial_state, Examples.fresh4)
           Examples.stylesheet);
    [vm_compute; lia|discriminate| | |reflexivity|vm_compute; discriminate].
  - intros n X ev w Hw. by destruct ev.
  - intros n X ev w Hw. by destruct ev.
Defined.

(** X8. v4.0 on a page that is still loading when [loadAndApplyCSS] has its
    stylesheet: the stylesheet is added to those that wait for
    DOMContentLoaded.  When that event comes, in a document with at most
    one element bearing the artifact id, nothing is left waiting and the
    element found by the artifact id is a [style] element with the text of
    the stylesheet that was added last. *)
Theorem X8_stylesheet_waits_for_the_page :
  ∀ site (env : environment event V4.world) s c,
    fst (run env (V4.fetchCSS site) s) = Ok (Some c) →
    trim c ≠ [] →
    ready (V4.document (snd (snd (run env (V4.loadAndApplyCSS site) s)))) = loading →
    V4.pendingInjections (fst (snd (run env (V4.loadAndApplyCSS site) s)))
    = V4.pendingInjections (fst s) ++ [c]
    ∧ ∀ s',
        V4.pendingInjections (fst s')
        = V4.pendingInjections (fst (snd (run env (V4.loadAndApplyCSS site) s))) →
        V4.at_most_one site (V4.document (snd s')) →
        V4.pendingInjections (fst (V4.onDOMContentLoaded site s')) = []
        ∧ ∃ el,
            V4.styleElement site (V4.document (snd (V4.onDOMContentLoaded site s')))
            = Some el
            ∧ tagName el = STYLE ∧ textContent el = c.
Proof.
  intros site env s c Hok Hc Hready.
  pose proof (loadAndApplyCSS_pending site env s c Hok
                (trim_truthy (Some c) Hc) Hready) as Hp.
  split; [exact Hp|]. intros s' Hs' Hone.
  apply (onDOMContentLoaded_artifact site s' (V4.pendingInjections (fst s)) c);
    [congruence|exact Hc|exact Hone].
Qed.

Lemma X8_stylesheet_waits_for_the_page_witness :
  V4.pendingInjections
    (fst (snd (run (Examples.only Examples.githack) (V4.loadAndApplyCSS V4.chatgpt)
                 (V4.initial_state, Examples.parsing4))))
  = [Examples.stylesheet]
  ∧ ∃ el,
      V4.styleElement V4.chatgpt
        (V4.document
           (snd (V4.onDOMContentLoaded V4.chatgpt
                   (snd (run (Examples.only Examples.githack)
                           (V4.loadAndApplyCSS V4.chatgpt)
                           (V4.initial_state, Examples.parsing4))))))
      = Some el
      ∧ textContent el = Examples.stylesheet.
Proof.
  destruct (X8_stylesheet_waits_for_the_page V4.chatgpt
              (Examples.only Examples.githack)
              (V4.initial_state, Examples.parsing4) Examples.stylesheet)
    as [Hp Hdom]; [reflexivity|vm_compute; discriminate|reflexivity|].
  split; [exact Hp|].
  destruct (Hdom (snd (run (Examples.only Examples.githack)
                         (V4.loadAndApplyCSS V4.chatgpt)
                         (V4.initial_state, Examples.parsing4))))
    as (_ & el & Hel & _ & Htext); [reflexivity|vm_compute; lia|].
  exists el. split; [exact Hel|exact Htext].
Defined.

(** ** v2.2: the requests of [fetchCSS], and what it caches *)

Section V2Fetch.
Import V2.
Variable site : SiteProfile.
Variable env : environment event world.

(** A property of the world that the environment and the cache read keep. *)
Variable P : world → Prop.
Hypothesis P_kept : ∀ n X ev w, P w → P (snd (env n X ev w)).
Hypothesis P_read : ∀ w, P w → P (snd (getCachedCSS site w)).

(** One turn of the loop over the URLs, run: one request; then either the
    loop returns the body it got, written to the cache a turn after the
    reply, or it goes on with the URLs left. *)
Lemma try_urls_step n u rest s :
  P (snd s) →
  (∃ c w,
     run_from env n (try_urls site (u :: rest) s)
     = (Ok (Some c), (fst s, snd (setCachedCSS site c w)))
     ∧ requests_from env n (try_urls site (u :: rest) s) = [(u, ViaFetch cors no_cache)]
     ∧ P w ∧ truthy (Some c) = true)
  ∨ (∃ k w,
       run_from env n (try_urls site (u :: rest) s)
       = run_from env k (try_urls site rest (fst s, w))
       ∧ requests_from env n (try_urls site (u :: rest) s)
         = (u, ViaFetch cors no_cache)
           :: requests_from env k (try_urls site rest (fst s, w))
       ∧ P w).
Proof.
  intros Hs. unfold requests_from.
  cbn [try_urls]. unfold bind, try_catch, await.
  cbn [bind_step catch_step run_from events_from].
  pose proof (P_kept n response (Request u (ViaFetch cors no_cache)) (snd s) Hs) as Hw'.
  destruct (env n response (Request u (ViaFetch cors no_cache)) (snd s)) as [r w'].
  cbn [fst snd] in *.
  destruct r as [f|status body]; cbn -[trim jslength setCachedCSS truthy].
  { right. eexists _, _. split; [reflexivity|split; [reflexivity|assumption]]. }
  destruct (status_ok status); cbn -[trim jslength setCachedCSS truthy];
    [|right; eexists _, _; split; [reflexivity|split; [reflexivity|assumption]]].
  pose proof (P_kept (S n) unit Tick w' Hw') as Hw2.
  destruct (env (S n) unit Tick w') as [[] w2]. cbn -[trim jslength setCachedCSS truthy] in *.
  destruct (truthy (Some body) && (jslength (trim body) >? 0)) eqn:Hc;
    cbn -[trim jslength setCachedCSS truthy]; [|right; eexists _, _; split; [reflexivity|split; [reflexivity|assumption]]].
  left. exists body, w2. apply andb_true_iff in Hc as [Hc _]. done.
Qed.

(** The loop never throws; it makes the requests for its URLs in order,
    until one gives a stylesheet, which it writes to the cache. *)
Lemma try_urls_requests n urls s :
  P (snd s) →
  requests_from env n (try_urls site urls s) `prefix_of` requests_for urls
  ∧ ∃ r s', run_from env n (try_urls site urls s) = (Ok r, s')
            ∧ match r with
              | None => requests_from env n (try_urls site urls s) = requests_for urls
              | Some c =>
                  truthy (Some c) = true
                  ∧ ∃ w, P w ∧ s' = (fst s, snd (setCachedCSS site c w))
              end.
Proof.
  revert n s. induction urls as [|u rest IH]; intros n s Hs.
  { split; [done|]. by exists None, s. }
  destruct (try_urls_step n u rest s Hs)
    as [(c & w & -> & -> & Hw & Hc)|(k & w & -> & -> & Hw)]; cbn [requests_for map].
  - split; [apply prefix_cons, prefix_nil|].
    exists (Some c), (fst s, snd (setCachedCSS site c w)).
    repeat split; try done. by exists w.
  - destruct (IH k (fst s, w) Hw) as (Hpre & r & s' & Hrun & Hr).
    split; [by apply prefix_cons|].
    exists r, s'. split; [exact Hrun|].
    destruct r as [c|]; [exact Hr|]. unfold requests_for in *. by rewrite Hr.
Qed.

(** The run of [fetchCSS]. *)
Lemma fetchCSS_requests s urls :
  P (snd s) →
  candidates site (isBerryBrowser (fst s)) = Some urls →
  let reqs := requests_from env 0 (fetchCSS site s) in
  reqs `prefix_of` requests_for urls
  ∧ (truthy (fst (getCachedCSS site (snd s))) = true → reqs = [])
  ∧ match run env (fetchCSS site) s with
    | (Thrown e, _) =>
        e = Error "All fetch attempts failed" ∧ reqs = requests_for urls
        ∧ truthy (berryFallbackCSS site) = false
    | (Ok c, s') =>
        truthy (fst (getCachedCSS site (snd s))) = true
        ∨ (reqs = requests_for urls ∧ truthy (berryFallbackCSS site) = true
           ∧ c = default [] (berryFallbackCSS site))
        ∨ (truthy (Some c) = true
           ∧ ∃ w, P w ∧ s' = (fst s, snd (setCachedCSS site c w)))
    end.
Proof.
  intros Hs Hurls. cbv zeta. unfold run.
  unfold fetchCSS, bind, call, gets. cbn [bind_step].
  destruct s as [σ w]. cbn [fst snd] in *.
  pose proof (P_read w Hs) as Hw1.
  destruct (getCachedCSS site w) as [cached w1]. cbn [fst snd bind_step] in *.
  destruct (truthy cached) eqn:Hcached.
  { cbn. split; [apply prefix_nil|]. split; [done|]. by left. }
  cbn [bind_step fst]. rewrite Hurls.
  rewrite run_from_bind, requests_from_bind.
  destruct (try_urls_requests 0 urls (σ, w1) Hw1) as (Hpre & r & s' & Hrun & Hr).
  rewrite Hrun. cbn [fst snd].
  destruct r as [c|].
  - cbn. rewrite app_nil_r. split; [exact Hpre|]. split; [done|].
    right. right. exact Hr.
  - destruct (truthy (berryFallbackCSS site)) eqn:Hfb; cbn; rewrite app_nil_r.
    + split; [exact Hpre|]. split; [done|]. right. left. done.
    + split; [exact Hpre|]. split; [done|]. done.
Qed.

End V2Fetch.

Lemma v2_getCachedCSS_writable site w :
  V2.writable w → V2.writable (snd (V2.getCachedCSS site w)).
Proof.
  intros Hs. unfold V2.getCachedCSS. destruct (getItem _ _) as [e|[t|]]; try done.
  destruct (JSON_parse t) as [e|d]; try done.
  destruct (_ >? _); [|done]. unfold removeItem.
  destruct (denied (V2.localStorage w)) eqn:E; [done|]. destruct Hs as [H1 H2].
  split; cbn; done.
Qed.

(** X9. v2.2 [fetchCSS] asks for its URLs in order, the two configured ones
    and in Berry Browser the two proxied ones, each at most once and all
    with the same kind of request: its requests are the first ones of that
    list.  It makes none when the cache gives a stylesheet, and it has made
    them all when it throws, which it does with its one error and only when
    the profile has no fallback stylesheet. *)
Theorem X9_v2_requests_in_order :
  ∀ site (env : environment event V2.world) s urls,
    V2.candidates site (V2.isBerryBrowser (fst s)) = Some urls →
    let reqs := requests_from env 0 (V2.fetchCSS site s) in
    reqs `prefix_of` V2.requests_for urls
    ∧ (truthy (fst (V2.getCachedCSS site (snd s))) = true → reqs = [])
    ∧ ∀ e, fst (run env (V2.fetchCSS site) s) = Thrown e →
           e = Error "All fetch attempts failed"
           ∧ reqs = V2.requests_for urls
           ∧ truthy (V2.berryFallbackCSS site) = false.
Proof.
  intros site env s urls Hurls. cbv zeta.
  destruct (fetchCSS_requests site env (λ _, True) (λ _ _ _ _ _, I) (λ _ _, I)
              s urls I Hurls) as (Hpre & Hhit & Hend).
  split; [exact Hpre|]. split; [exact Hhit|]. intros e He.
  destruct (run env (V2.fetchCSS site) s) as [[c|e'] s']; [discriminate|].
  cbn in He. injection He as ->. exact Hend.
Qed.

Lemma X9_v2_requests_in_order_witness :
  requests_from Examples.offline 0
    (V2.fetchCSS V2.claude (V2.mkState None false, Examples.fresh2))
  = [(V2.styleURL V2.claude, ViaFetch cors no_cache);
     (V2.backupStyleURL V2.claude, ViaFetch cors no_cache)].
Proof.
  destruct (X9_v2_requests_in_order V2.claude Examples.offline
              (V2.mkState None false, Examples.fresh2)
              [V2.styleURL V2.claude; V2.backupStyleURL V2.claude] eq_refl)
    as (_ & _ & Hthrown).
  destruct (Hthrown (Error "All fetch attempts failed") eq_refl) as (_ & Hall & _).
  exact Hall.
Defined.

(** X10. A stylesheet that v2.2 [fetchCSS] returns after a cache miss, the
    storage being writable and staying so, is the profile's fallback
    stylesheet, all requests having been made, or it is in the cache: a
    call within the cache duration, with the storage as the first call left
    it, returns the same stylesheet at once. *)
Theorem X10_v2_fetched_stylesheet_is_cached :
  ∀ site (env : environment event V2.world) s urls c,
    V2.candidates site (V2.isBerryBrowser (fst s)) = Some urls →
    V2.cache_miss site (snd s) →
    V2.writable (snd s) →
    (∀ n X ev w, V2.writable w → V2.writable (snd (env n X ev w))) →
    fst (run env (V2.fetchCSS site) s) = Ok c →
    (requests_from env 0 (V2.fetchCSS site s) = V2.requests_for urls
     ∧ Some c = V2.berryFallbackCSS site)
    ∨ ∀ σ w,
        V2.localStorage w = V2.localStorage (snd (snd (run env (V2.fetchCSS site) s))) →
        V2.now w - V2.now (snd (snd (run env (V2.fetchCSS site) s)))
        ≤ V2.CACHE_DURATION →
        V2.fetchCSS site (σ, w) = Return c (σ, w).
Proof.
  intros site env s urls c Hurls Hmiss Hs Henv Hok.
  destruct (fetchCSS_requests site env V2.writable Henv
              (v2_getCachedCSS_writable site) s urls Hs Hurls) as (_ & _ & Hend).
  destruct (run env (V2.fetchCSS site) s) as [[c'|e] s']; [|discriminate].
  cbn [fst snd] in *. injection Hok as ->.
  destruct Hend as [Hhit|[(Hall & Hfb & ->)|(Hc & w1 & Hw1 & ->)]].
  - unfold V2.cache_miss in Hmiss. congruence.
  - left. split; [exact Hall|]. by destruct (V2.berryFallbackCSS site).
  - right. intros σ w Hls Hnow. cbn [snd] in *.
    assert (Hset : fst (V2.setCachedCSS site c w1) = true).
    { unfold V2.setCachedCSS, setItem. destruct Hw1 as [-> ->]. reflexivity. }
    destruct (v2_set_stored site c w1 Hset) as [Hst Hrd].
    assert (Hnow1 : V2.now (snd (V2.setCachedCSS site c w1)) = V2.now w1).
    { unfold V2.setCachedCSS. by destruct (setItem _ _ _). }
    pose proof (v2_get_fresh site w (V2.mkCache c (V2.now w1) (V2.styleURL site)))
      as Hget.
    unfold V2.stored, V2.readable in *. rewrite Hls in Hget.
    specialize (Hget Hst Hrd). rewrite Hnow1 in Hnow. specialize (Hget Hnow).
    unfold V2.fetchCSS, bind, call. cbn [bind_step snd fst].
    assert (Hsame : snd (V2.getCachedCSS site w) = w).
    { unfold V2.getCachedCSS in *. destruct (getItem _ _) as [e|[t|]]; try done.
      destruct (JSON_parse t) as [e|d]; try done.
      destruct (_ >? _); [|done]. cbn in Hget. by destruct (removeItem _ _). }
    destruct (V2.getCachedCSS site w) as [cached w']. cbn [fst snd] in *. subst.
    cbn [bind_step V2.css]. rewrite Hc. reflexivity.
Qed.

Lemma X10_v2_fetched_stylesheet_is_cached_witness :
  V2.fetchCSS V2.claude
    (snd (run (Examples.only (V2.backupStyleURL V2.claude)) (V2.fetchCSS V2.claude)
            (V2.mkState None false, Examples.fresh2)))
  = Return Examples.stylesheet
      (snd (run (Examples.only (V2.backupStyleURL V2.claude)) (V2.fetchCSS V2.claude)
              (V2.mkState None false, Examples.fresh2))).
Proof.
  destruct (X10_v2_fetched_stylesheet_is_cached V2.claude
              (Examples.only (V2.backupStyleURL V2.claude))
              (V2.mkState None false, Examples.fresh2)
              [V2.styleURL V2.claude; V2.backupStyleURL V2.claude]
              Examples.stylesheet) as [[_ Hfb]|Hnext];
    [reflexivity|reflexivity|split; reflexivity| |reflexivity|discriminate Hfb|].
  - intros n X ev w Hw. by destruct ev.
  - apply (Hnext (V2.mkState None false)); [reflexivity|vm_compute; discriminate].
Defined.

(** ** v2.2: the style element *)

Section V2Style.
Import V2.
Variable site : SiteProfile.

Lemma elem_of_fold_removeNode l d el :
  el ∈ all_elements (fold_left (λ d x, removeNode (node x) d) l d) ↔
  el ∈ all_elements d ∧ ∀ x, x ∈ l → node el ≠ node x.
Proof.
  pose proof (elem_of_fold_remove (λ _, true) l d el) as H. cbn in H.
  rewrite H. split; intros [H1 H2]; split; auto.
Qed.

(** What [remove] leaves in the document: what was there, without the element
    the script tracks and without the elements that bear its mark. *)
Lemma elem_of_remove_v2 s el :
  el ∈ all_elements (document (snd (remove s))) →
  el ∈ all_elements (document (snd s))
  ∧ injected_by_styler el = false
  ∧ styleElement (fst s) ≠ Some (node el).
Proof.
  unfold remove. cbn [snd document set_document].
  rewrite elem_of_fold_removeNode. intros [Hel Hnot].
  assert (Hin : el ∈ all_elements (document (snd s))
                ∧ styleElement (fst s) ≠ Some (node el)).
  { destruct (styleElement (fst s)) as [n|]; [|done].
    rewrite all_elements_removeNode in Hel. unfold without in Hel.
    apply list_elem_of_filter in Hel as [Hn Hel]. split; [done|]. congruence. }
  destruct Hin as [Hin Htracked]. split; [exact Hin|]. split; [|exact Htracked].
  destruct (injected_by_styler el) eqn:Hinj; [|reflexivity].
  exfalso. apply (Hnot el); [|reflexivity].
  apply list_elem_of_filter. split; [exact Hinj|exact Hel].
Qed.

Lemma set_document_same (w : world) : set_document (document w) w = w.
Proof. by destruct w. Qed.

Lemma remove_twice s : remove (remove s) = remove s.
Proof.
  assert (Hnone : filter (λ el, injected_by_styler el = true)
                    (all_elements (document (snd (remove s)))) = []).
  { apply filter_nil_forall. intros el Hel%elem_of_remove_v2.
    destruct Hel as (_ & -> & _). discriminate. }
  unfold remove at 1. cbn [styleElement fst].
  replace (styleElement (fst (remove s))) with (@None nat) by reflexivity.
  cbv zeta. rewrite Hnone. cbn [fold_left]. rewrite set_document_same.
  unfold remove. reflexivity.
Qed.

(** The element [injectCSS] makes. *)
Lemma injectCSS_element c s :
  fst (injectCSS site c s) = true
  ∧ ∃ el, el ∈ all_elements (document (snd (snd (injectCSS site c s))))
          ∧ styleElement (fst (snd (injectCSS site c s))) = Some (node el)
          ∧ tagName el = STYLE ∧ id el = styleID site ∧ textContent el = c
          ∧ injected_by_styler el = true
          ∧ ∀ el', el' ∈ all_elements (document (snd (snd (injectCSS site c s)))) →
                   el' = el ∨ el' ∈ all_elements (document (snd s)).
Proof.
  unfold injectCSS. cbn -[appendChild]. split; [reflexivity|].
  exists (mkElement (fresh (document (snd s))) STYLE (styleID site) [] c
            (list_to_map [(js "type", js "text/css");
                          (js "data-injected-by", js "ai-styler")])).
  split; [|split; [reflexivity|]].
  - apply elem_of_appendChild.
    destruct (berryInjectionPoint site); cbn;
      match goal with |- available (if ?b then _ else _) _ = true =>
        destruct b eqn:E end; done.
  - repeat split; try reflexivity.
    intros el' [->|Hel']%elem_of_appendChild_inv; [by left|by right].
Qed.

(** [applyBerryFallback] returns [true] only with its element in the
    document. *)
Lemma applyBerryFallback_always G s :
  always G (λ _ _, True) (λ _, True)
    (λ (b : bool) s', b = true →
       ∃ el, el ∈ all_elements (document (snd s'))
             ∧ styleElement (fst s') = Some (node el)
             ∧ tagName el = STYLE ∧ textContent el ≠ [])
    (λ _ _, True) (applyBerryFallback site s).
Proof.
  unfold applyBerryFallback, bind, gets. cbn [bind_step].
  destruct (_ || _); [done|].
  destruct (berryFallbackCSS site) as [[|x c]|] eqn:Hfb; cbn -[appendChild]; try done.
  destruct (bool_decide (is_Some (body (document (snd s))))) eqn:Hbody;
    cbn -[appendChild]; [|done].
  intros _.
  exists (mkElement (fresh (document (snd s))) STYLE [] [] (x :: c) ∅).
  split; [|done]. by apply elem_of_appendChild.
Qed.

(** [apply] returns [true] only with the element it tracks in the document,
    a [style] element with a text that is not empty. *)
Lemma apply_always s :
  always anything (λ _ _, True) (λ _, True)
    (λ (b : bool) s', b = true →
       ∃ el, el ∈ all_elements (document (snd s'))
             ∧ styleElement (fst s') = Some (node el)
             ∧ tagName el = STYLE ∧ textContent el ≠ [])
    (λ _ _, False) (apply site s).
Proof.
  unfold apply, bind. cbn [modify bind_step].
  eapply always_bind; [apply v2_wait_total|]. intros _ s1 _.
  unfold try_catch. eapply always_catch with (R := λ _ _, True); [|by intros].
  eapply always_bind
    with (Q := λ fetched s',
            match fetched with
            | inl b => b = true →
                ∃ el, el ∈ all_elements (document (snd s'))
                      ∧ styleElement (fst s') = Some (node el)
                      ∧ tagName el = STYLE ∧ textContent el ≠ []
            | inr _ => True
            end).
  - eapply always_catch with (R := λ _ _, True).
    + eapply always_bind; [apply always_trivial|]. by intros.
    + intros e s2 _. unfold gets. cbn [bind_step].
      destruct (_ && _); [|done].
      eapply always_bind; [apply applyBerryFallback_always|].
      intros b s3 Hb. exact Hb.
  - intros [b|c] s2 H; [exact H|].
    destruct (negb (truthy (Some c)) || _) eqn:Hblank; [done|].
    unfold call. destruct (injectCSS_element c s2)
      as (_ & el & Hel & Htracked & Htag & _ & Htext & _).
    destruct (injectCSS site c s2) as [b s3]. cbn [fst snd] in *. intros _.
    exists el. repeat split; try done. rewrite Htext.
    apply orb_false_iff in Hblank as [Hc _]. by destruct c.
Qed.

End V2Style.

(** X11. v2.2 [remove] leaves no element that bears the script's mark and
    not the element the script tracked, and a second [remove] changes
    nothing.  [injectCSS] after [remove] leaves exactly one element with the
    mark: the [style] element it made, which holds the stylesheet and is the
    one the script tracks from then on. *)
Theorem X11_v2_reapplying_does_not_stack :
  ∀ site c s,
    V2.remove (V2.remove s) = V2.remove s
    ∧ (∀ el, el ∈ all_elements (V2.document (snd (V2.remove s))) →
             V2.injected_by_styler el = false
             ∧ V2.styleElement (fst s) ≠ Some (node el))
    ∧ ∃ el,
        el ∈ all_elements
               (V2.document (snd (snd (V2.injectCSS site c (V2.remove s)))))
        ∧ V2.styleElement (fst (snd (V2.injectCSS site c (V2.remove s))))
          = Some (node el)
        ∧ tagName el = STYLE ∧ textContent el = c
        ∧ ∀ el',
            el' ∈ all_elements
                    (V2.document (snd (snd (V2.injectCSS site c (V2.remove s))))) →
            V2.injected_by_styler el' = true → el' = el.
Proof.
  intros site c s. split; [apply remove_twice|]. split.
  - intros el Hel%elem_of_remove_v2. tauto.
  - destruct (injectCSS_element site c (V2.remove s))
      as (_ & el & Hel & Htracked & Htag & _ & Htext & _ & Hothers).
    exists el. repeat split; try done.
    intros el' [->|Hel']%Hothers Hmark; [reflexivity|].
    apply elem_of_remove_v2 in Hel' as (_ & Hno & _). congruence.
Qed.

(** X12. v2.2 [apply] never throws, and when it returns [true] the element
    the script tracks is in the document: a [style] element whose text is
    not empty. *)
Theorem X12_v2_apply_leaves_its_element :
  ∀ site (env : environment event V2.world) s,
    ∃ b, fst (run env (V2.apply site) s) = Ok b
         ∧ (b = true →
            ∃ el,
              el ∈ all_elements
                     (V2.document (snd (snd (run env (V2.apply site) s))))
              ∧ V2.styleElement (fst (snd (run env (V2.apply site) s)))
                = Some (node el)
              ∧ tagName el = STYLE ∧ textContent el ≠ []).
Proof.
  intros site env s.
  pose proof (always_run anything (λ _ _, True) (λ _, True) _ _ env 0 _
                (λ _ _ _ _, I) (λ _ _ _ _ _ _, I) (apply_always site s)) as H.
  unfold run. destruct (run_from env 0 (V2.apply site s)) as [[b|e] s']; [|done].
  exists b. split; [reflexivity|exact H].
Qed.

(** ** v3.0: what the fetch returns is remembered and cached *)

Section V3Fetched.
Import V3.
Variable site : SiteProfile.
Variable G : ∀ X, event X → X → Prop.

(** A property of the world alone, kept while the fetch waits. *)
Variable P : St → Prop.
Hypothesis P_script : ∀ s σ', P s → P (σ', snd s).

Lemma awaited_sound t : sound_fetcher G P t → sound_fetcher G P (awaited t).
Proof.
  intros Ht s Hs. unfold awaited.
  eapply always_weaken;
    [apply always_awaited; [by apply Ht|by intros ? ? [? _]|done]| |]; cbn.
  - intros c s' (s0 & [_ Hc] & Hs'). done.
  - intros e s' (s0 & _ & Hs'). done.
Qed.

Lemma fetchViaGM_sound : sound_fetcher G P (fetchViaGM site).
Proof.
  intros s Hs. unfold fetchViaGM, bind, await. cbn [bind_step].
  split; [exact Hs|]. intros r s' _ Hs'.
  destruct r as [[]|status body]; cbn -[trim jslength truthy]; try exact Hs'.
  destruct (status_ok status); [|exact Hs'].
  destruct (truthy (Some body) && _) eqn:Hc; [|exact Hs'].
  apply andb_true_iff in Hc as [Hc _]. done.
Qed.

Lemma fetchDirect_sound : sound_fetcher G P (fetchDirect site).
Proof.
  intros s Hs. unfold fetchDirect, bind, await. cbn [bind_step].
  split; [exact Hs|]. intros r s' _ Hs'.
  destruct (ok_text_of r) as [e|c]; cbn -[trim jslength truthy]; [exact Hs'|].
  split; [exact Hs'|]. intros _ s'' _ Hs''.
  destruct (negb (truthy (Some c)) || _) eqn:Hc; [exact Hs''|].
  apply orb_false_iff in Hc as [Hc%negb_false_iff _]. done.
Qed.

Lemma fetchGitHubFallback_sound : sound_fetcher G P (fetchGitHubFallback site).
Proof.
  intros s Hs. unfold fetchGitHubFallback.
  destruct (negb (truthy (fallbackURL site))); [exact Hs|].
  unfold bind, await. cbn [bind_step].
  split; [exact Hs|]. intros r s' _ Hs'.
  destruct (ok_text_of r) as [e|c]; cbn -[trim jslength truthy]; [exact Hs'|].
  split; [exact Hs'|]. intros _ s'' _ Hs''.
  destruct (negb (truthy (Some c)) || _) eqn:Hc; [exact Hs''|].
  apply orb_false_iff in Hc as [Hc%negb_false_iff _]. done.
Qed.

(** The loops: they keep [P], and what they return is truthy. *)
Lemma berry_strategies_sound l s :
  P s →
  always G (λ _, P) P
    (λ r s', P s' ∧ ∀ c, r = Some c → truthy (Some c) = true) (λ _, P)
    (berry_strategies site l s).
Proof.
  revert s. induction l as [|[mode cache] rest IH]; intros s Hs; [done|].
  cbn [berry_strategies]. unfold bind, try_catch, await. cbn [bind_step catch_step].
  split; [exact Hs|]. intros r s' _ Hs'.
  destruct (text_of r) as [e|c]; cbn -[trim jslength truthy]; [by apply IH|].
  split; [exact Hs'|]. intros _ s'' _ Hs''.
  destruct (truthy (Some c) && _) eqn:Hc; cbn; [|by apply IH].
  apply andb_true_iff in Hc as [Hc _]. split; [done|]. by intros ? [= <-].
Qed.

Lemma fetchForBerryBrowser_sound : sound_fetcher G P (fetchForBerryBrowser site).
Proof.
  intros s Hs. unfold fetchForBerryBrowser, bind, on_state, modify. cbn [bind_step].
  eapply always_bind; [apply berry_strategies_sound; by apply P_script|].
  intros [c|] s1 [Hs1 Hc]; [by split; [|apply Hc]|].
  destruct (truthy (fallbackURL site)); [|exact Hs1].
  unfold try_catch, await. cbn [bind_step catch_step].
  split; [exact Hs1|]. intros r s' _ Hs'.
  destruct (text_of r) as [e|c]; cbn -[trim jslength truthy]; [exact Hs'|].
  split; [exact Hs'|]. intros _ s'' _ Hs''.
  destruct (truthy (Some c) && _) eqn:Hc'; cbn; [|exact Hs''].
  apply andb_true_iff in Hc' as [Hc' _]. split; [by apply P_script|done].
Qed.

Lemma fetchProxied_sound u s :
  P s →
  always G (λ _, P) P
    (λ r s', P s' ∧ ∀ c, r = Some c → truthy (Some c) = true) (λ _, P)
    (fetchProxied u s).
Proof.
  intros Hs. unfold fetchProxied, bind, await. cbn [bind_step].
  split; [exact Hs|]. intros r s' _ Hs'.
  destruct (ok_text_of r) as [e|c]; cbn -[trim jslength truthy]; [exact Hs'|].
  split; [exact Hs'|]. intros _ s'' _ Hs''.
  destruct (truthy (Some c) && _) eqn:Hc; cbn; [|done].
  apply andb_true_iff in Hc as [Hc _]. split; [done|]. by intros ? [= <-].
Qed.

Lemma primary_proxies_sound l s :
  P s →
  always G (λ _, P) P
    (λ r s', P s' ∧ ∀ c, r = Some c → truthy (Some c) = true) (λ _, P)
    (primary_proxies l s).
Proof.
  revert s. induction l as [|u rest IH]; intros s Hs; [done|].
  cbn [primary_proxies]. unfold bind, try_catch.
  eapply always_bind.
  - eapply always_catch; [by apply fetchProxied_sound|]. intros e s' Hs'. done.
  - intros [c|] s' [Hs' Hc]; [done|]. by apply IH.
Qed.

Lemma fallback_proxies_sound l s :
  P s →
  always G (λ _, P) P
    (λ r s', P s' ∧ ∀ c, r = Some c → truthy (Some c) = true) (λ _, P)
    (fallback_proxies l s).
Proof.
  revert s. induction l as [|u rest IH]; intros s Hs; [done|].
  cbn [fallback_proxies]. unfold bind, try_catch.
  eapply always_bind.
  - eapply always_catch; [by apply fetchProxied_sound|]. intros e s' Hs'.
    destruct rest; done.
  - intros [c|] s' [Hs' Hc]; [done|]. by apply IH.
Qed.

Lemma fetchViaCORSProxy_sound : sound_fetcher G P (fetchViaCORSProxy site).
Proof.
  intros s Hs. unfold fetchViaCORSProxy.
  destruct (encodeURIComponent (styleURL site)) as [target|]; [|exact Hs].
  unfold bind. eapply always_bind; [by apply primary_proxies_sound|].
  intros [c|] s1 [Hs1 Hc]; [by split; [|apply Hc]|].
  eapply always_bind
    with (Q := λ r s', P s' ∧ ∀ c, r = Some c → truthy (Some c) = true).
  - destruct (truthy (fallbackURL site)); [|done].
    destruct (encodeURIComponent _); [by apply fallback_proxies_sound|exact Hs1].
  - intros [c|] s2 [Hs2 Hc']; [by split; [|apply Hc']|exact Hs2].
Qed.

(** What a stage returns it has written to the cache, and the script
    remembers it. *)
Lemma stage_sound fetcher status s :
  sound_fetcher G P fetcher → P s →
  always G (λ _, P) P
    (λ r s', match r with
             | None => P s'
             | Some c =>
                 truthy (Some c) = true ∧ cssContent (fst s') = Some c
                 ∧ ∃ s0, P s0 ∧ snd s' = snd (setCachedCSS site c (snd s0))
             end)
    (λ _ _, False) (stage site fetcher status s).
Proof.
  intros Hf Hs. unfold stage, try_catch, bind.
  eapply always_catch; [|intros e s' Hs'; exact Hs'].
  eapply always_bind; [by apply Hf|].
  intros c s1 [Hs1 Hc]. unfold on_world, on_state, modify. cbn [bind_step].
  destruct status as [st|]; cbn; (split; [exact Hc|]); (split; [reflexivity|]);
    by exists s1.
Qed.

(** What [fetchExternalCSS] returns is truthy and remembered; it came from
    the cache, or it has just been written there. *)
Lemma fetchExternalCSS_sound s :
  P s →
  always G (λ _, P) P
    (λ c s', truthy (Some c) = true ∧ cssContent (fst s') = Some c
             ∧ ((getCachedCSS site (snd s) = Some c ∧ snd s' = snd s)
                ∨ (truthy (getCachedCSS site (snd s)) = false
                   ∧ ∃ s0, P s0 ∧ snd s' = snd (setCachedCSS site c (snd s0)))))
    (λ _, P) (fetchExternalCSS site s).
Proof.
  intros Hs. unfold fetchExternalCSS, bind, on_state, modify, gets.
  cbn [bind_step fst snd].
  destruct (truthy (getCachedCSS site (snd s))) eqn:Hmiss.
  { destruct (getCachedCSS site (snd s)) as [[|x c]|]; try discriminate.
    cbn. split; [done|]. split; [done|]. by left. }
  set (s1 := (set_fetchAttempts _ _, _)).
  assert (Hs1 : P s1) by (by apply P_script). clearbody s1.
  set (Q := λ (r : option jsstring) (s' : St),
              match r with
              | None => P s'
              | Some c =>
                  truthy (Some c) = true ∧ cssContent (fst s') = Some c
                  ∧ ∃ s0, P s0 ∧ snd s' = snd (setCachedCSS site c (snd s0))
              end).
  assert (Hstage : ∀ (b : bool) fetcher status s',
            sound_fetcher G P fetcher → P s' →
            always G (λ _, P) P Q (λ _, P)
              ((if b then stage site fetcher status else ret None) s')).
  { intros b fetcher status s' Hf Hs'. destruct b; [|exact Hs'].
    eapply always_weaken; [by apply stage_sound|done|done]. }
  assert (Hnext : ∀ r k,
            (∀ s', P s' → always G (λ _, P) P Q (λ _, P) (r s')) →
            (∀ s', P s' →
                   always G (λ _, P) P
                     (λ c s', truthy (Some c) = true ∧ cssContent (fst s') = Some c
                              ∧ ((getCachedCSS site (snd s) = Some c ∧ snd s' = snd s)
                                 ∨ (false = false
                                    ∧ ∃ s0, P s0
                                            ∧ snd s' = snd (setCachedCSS site c (snd s0)))))
                     (λ _, P) (k s')) →
            ∀ s', P s' →
                  always G (λ _, P) P
                    (λ c s', truthy (Some c) = true ∧ cssContent (fst s') = Some c
                             ∧ ((getCachedCSS site (snd s) = Some c ∧ snd s' = snd s)
                                ∨ (false = false
                                   ∧ ∃ s0, P s0
                                           ∧ snd s' = snd (setCachedCSS site c (snd s0)))))
                    (λ _, P)
                    (bind_step (r s') (λ r, match r with
                                            | Some c => ret c
                                            | None => k
                                            end))).
  { intros r k Hr Hk s' Hs'. eapply always_bind; [by apply Hr|].
    intros [c|] s2 H2; [|by apply Hk].
    destruct H2 as (? & ? & ?). split; [done|]. split; [done|]. by right. }
  revert s1 Hs1. apply Hnext.
  { intros s'. apply Hstage, fetchViaGM_sound. }
  intros s2 Hs2. cbn [bind_step]. revert s2 Hs2. apply Hnext.
  { intros s'. apply Hstage, awaited_sound, fetchForBerryBrowser_sound. }
  apply Hnext.
  { intros s'. apply (Hstage true), awaited_sound, fetchDirect_sound. }
  apply Hnext.
  { intros s'. apply Hstage, awaited_sound, fetchGitHubFallback_sound. }
  apply Hnext.
  { intros s'. apply (Hstage true), awaited_sound, fetchViaCORSProxy_sound. }
  intros s' Hs'. exact Hs'.
Qed.
End V3Fetched.

Lemma v3_set_fresh site c w0 w :
  V3.writable w0 →
  V3.localStorage w = V3.localStorage (snd (V3.setCachedCSS site c w0)) →
  V3.GM_values w = V3.GM_values (snd (V3.setCachedCSS site c w0)) →
  V3.now w - V3.now w0 ≤ V3.CACHE_DURATION →
  V3.getCachedCSS site w = Some c.
Proof.
  intros [Hden Hquota] Hls Hgm Hnow.
  assert (Hset : fst (V3.setCachedCSS site c w0) = true).
  { unfold V3.setCachedCSS, V3.setValue, setItem. unfold V3.active_store in *.
    destruct (V3.GM_values w0); cbn in *; by rewrite Hden, Hquota. }
  destruct (v3_set_stored site c w0 Hset) as [Hst Hrd].
  apply (v3_get_fresh site w
           (V3.mkCache c (V3.now w0) (V3.styleURL site) (V3.version site) (jslength c)));
    try done.
  - unfold V3.stored, V3.active_store in *. by rewrite Hls, Hgm.
  - unfold V3.readable, V3.active_store in *. by rewrite Hls, Hgm.
Qed.

Lemma v3_setCachedCSS_now site c w :
  V3.now (snd (V3.setCachedCSS site c w)) = V3.now w.
Proof.
  unfold V3.setCachedCSS, V3.setValue.
  destruct (V3.GM_values w); by destruct (setItem _ _ _).
Qed.

(** X13. What v3.0 [fetchExternalCSS] returns is a stylesheet that is not
    the empty string, and the script remembers it as its stylesheet.  With
    the store in use writable, and staying so, the cache read then gives
    that stylesheet; when it was not in the cache before, the cache read
    gives it for the whole cache duration, the stores being left as they
    are. *)
Theorem X13_v3_fetched_stylesheet_is_remembered :
  ∀ site (env : environment event V3.world) s c,
    V3.writable (snd s) →
    (∀ n X ev w, V3.writable w → V3.writable (snd (env n X ev w))) →
    fst (run env (V3.fetchExternalCSS site) s) = Ok c →
    truthy (Some c) = true
    ∧ V3.cssContent (fst (snd (run env (V3.fetchExternalCSS site) s))) = Some c
    ∧ V3.getCachedCSS site (snd (snd (run env (V3.fetchExternalCSS site) s))) = Some c
    ∧ (V3.cache_miss site (snd s) →
       ∀ w,
         V3.localStorage w
         = V3.localStorage (snd (snd (run env (V3.fetchExternalCSS site) s))) →
         V3.GM_values w
         = V3.GM_values (snd (snd (run env (V3.fetchExternalCSS site) s))) →
         V3.now w - V3.now (snd (snd (run env (V3.fetchExternalCSS site) s)))
         ≤ V3.CACHE_DURATION →
         V3.getCachedCSS site w = Some c).
Proof.
  intros site env s c Hs Henv Hok.
  pose proof (always_run anything (λ _ s', V3.writable (snd s'))
                (λ s', V3.writable (snd s')) _ _ env 0 _
                (λ _ _ _ _, I) (λ n X ev σ w Hw, Henv n X ev w Hw)
                (fetchExternalCSS_sound site anything (λ s', V3.writable (snd s'))
                   (λ _ _ H, H) s Hs)) as H.
  unfold run in *.
  destruct (run_from env 0 (V3.fetchExternalCSS site s)) as [[c'|e] s']; [|discriminate].
  cbn [fst snd] in *. injection Hok as ->.
  destruct H as (Hc & Hcss & [[Hhit Hsame]|[Hmiss (s0 & Hs0 & Hsaved)]]).
  - split; [exact Hc|]. split; [exact Hcss|]. rewrite Hsame. split; [exact Hhit|].
    intros Hmiss. unfold V3.cache_miss in Hmiss. rewrite Hhit in Hmiss. congruence.
  - split; [exact Hc|]. split; [exact Hcss|]. rewrite Hsaved.
    rewrite v3_setCachedCSS_now. split.
    + apply (v3_set_fresh site c (snd s0)); try done.
      rewrite v3_setCachedCSS_now. unfold V3.CACHE_DURATION. lia.
    + intros _ w Hls Hgm Hnow. by apply (v3_set_fresh site c (snd s0)).
Qed.

Lemma X13_v3_fetched_stylesheet_is_remembered_witness :
  V3.cssContent
    (fst (snd (run Examples.online3 (V3.fetchExternalCSS V3.chatgpt) Examples.start3)))
  = Some Examples.stylesheet
  ∧ V3.getCachedCSS V3.chatgpt
      (snd (snd (run Examples.online3 (V3.fetchExternalCSS V3.chatgpt) Examples.start3)))
    = Some Examples.stylesheet.
Proof.
  destruct (X13_v3_fetched_stylesheet_is_remembered V3.chatgpt Examples.online3
              Examples.start3 Examples.stylesheet) as (_ & Hcss & Hget & _);
    [split; reflexivity| |reflexivity|].
  - intros n X ev w Hw. by destruct ev.
  - split; [exact Hcss|exact Hget].
Defined.

(** ** v3.0: clearing the cache *)

Lemma startsWith_app (p s : jsstring) : startsWith (p ++ s) p = true.
Proof. induction p as [|c p IH]; [reflexivity|]. cbn. by rewrite N.eqb_refl. Qed.

Section V3Clear.
Import V3.
Variable site : SiteProfile.

Lemma removeItems_items ks (ls : Storage value) :
  denied ls = false →
  ∃ ls', removeItems ks ls = inr ls'
         ∧ denied ls' = false
         ∧ ∀ k, items ls' !! k = if decide (k ∈ ks) then None else items ls !! k.
Proof.
  revert ls. induction ks as [|k0 ks IH]; intros ls Hden.
  { exists ls. split; [reflexivity|]. split; [exact Hden|]. intros k.
    destruct (decide _) as [[]%elem_of_nil|]; reflexivity. }
  cbn [removeItems]. unfold removeItem. rewrite Hden.
  destruct (IH (mkStorage (delete k0 (items ls)) false (quotaExceeded ls)) eq_refl)
    as (ls' & -> & Hden' & Hitems).
  exists ls'. split; [reflexivity|]. split; [exact Hden'|]. intros k.
  rewrite Hitems. cbn [items].
  destruct (decide (k ∈ ks)) as [Hin|Hnin].
  - rewrite decide_True; [reflexivity|by right].
  - destruct (decide (k = k0)) as [->|Hne].
    + rewrite decide_True; [|by left]. apply lookup_delete_eq.
    + rewrite decide_False; [by rewrite lookup_delete_ne|].
      by intros [?|?]%elem_of_cons.
Qed.

(** [clearCache] on a localStorage that can be reached. *)
Lemma clearCache_cleared w :
  denied (localStorage w) = false →
  ∃ keys ls,
    clearCache w = inr (length keys, set_localStorage ls w)
    ∧ NoDup keys
    ∧ (∀ k, k ∈ keys ↔ startsWith k CACHE_KEY_PREFIX = true
                        ∧ is_Some (items (localStorage w) !! k))
    ∧ denied ls = false
    ∧ ∀ k, items ls !! k
           = if startsWith k CACHE_KEY_PREFIX then None
             else items (localStorage w) !! k.
Proof.
  intros Hden. unfold clearCache, Object_keys. rewrite Hden.
  set (keys := filter (λ k, startsWith k CACHE_KEY_PREFIX = true)
                 (map fst (map_to_list (items (localStorage w))))).
  assert (Hkeys : ∀ k, k ∈ keys ↔ startsWith k CACHE_KEY_PREFIX = true
                                   ∧ is_Some (items (localStorage w) !! k)).
  { intros k. subst keys. rewrite list_elem_of_filter, list_elem_of_fmap.
    split.
    - intros [Hp ([k' v] & -> & Hin%elem_of_map_to_list)]. split; [done|by exists v].
    - intros [Hp [v Hv]]. split; [done|]. exists (k, v). split; [done|].
      by apply elem_of_map_to_list. }
  destruct (removeItems_items keys (localStorage w) Hden) as (ls & -> & Hden' & Hitems).
  exists keys, ls. split; [reflexivity|]. split.
  { apply NoDup_filter, NoDup_fst_map_to_list. }
  split; [exact Hkeys|]. split; [exact Hden'|]. intros k. rewrite Hitems.
  destruct (startsWith k CACHE_KEY_PREFIX) eqn:Hp.
  - destruct (decide (k ∈ keys)) as [|Hnin]; [reflexivity|].
    destruct (items (localStorage w) !! k) eqn:Hk; [|reflexivity].
    destruct Hnin. apply Hkeys. by rewrite Hk.
  - rewrite decide_False; [reflexivity|]. intros [Hp' _]%Hkeys. congruence.
Qed.

End V3Clear.

(** X14. v3.0 [utils.clearCache] works on localStorage: it throws when
    localStorage cannot be reached; otherwise it removes the keys that start
    with the cache prefix, returns how many they were, and leaves every
    other key and the rest of the world as they are.  The cache read
    afterwards gives nothing when the script keeps its values in
    localStorage, and what it gave before when it keeps them in the
    userscript manager's store. *)
Theorem X14_clearCache_clears_localStorage_only :
  ∀ site w,
    (denied (V3.localStorage w) = true →
     V3.clearCache w = inl (StorageError "SecurityError"))
    ∧ (denied (V3.localStorage w) = false →
       ∃ keys w',
         V3.clearCache w = inr (length keys, w')
         ∧ NoDup keys
         ∧ (∀ k, k ∈ keys ↔ startsWith k V3.CACHE_KEY_PREFIX = true
                             ∧ is_Some (items (V3.localStorage w) !! k))
         ∧ (∀ k, items (V3.localStorage w') !! k
                 = if startsWith k V3.CACHE_KEY_PREFIX then None
                   else items (V3.localStorage w) !! k)
         ∧ V3.GM_values w' = V3.GM_values w
         ∧ V3.document w' = V3.document w
         ∧ V3.getCachedCSS site w'
           = match V3.GM_values w with
             | Some _ => V3.getCachedCSS site w
             | None => None
             end).
Proof.
  intros site w. split.
  - intros Hden. unfold V3.clearCache, V3.Object_keys. by rewrite Hden.
  - intros Hden.
    destruct (clearCache_cleared w Hden) as (keys & ls & Hclear & Hnodup & Hkeys & Hden' & Hitems).
    exists keys, (V3.set_localStorage ls w).
    split; [exact Hclear|]. split; [exact Hnodup|]. split; [exact Hkeys|].
    split; [exact Hitems|]. split; [reflexivity|]. split; [reflexivity|].
    unfold V3.getCachedCSS, V3.getValue. cbn [V3.GM_values V3.set_localStorage V3.now].
    destruct (V3.GM_values w) as [g|]; [reflexivity|].
    unfold getItem. change (V3.localStorage (V3.set_localStorage ls w)) with ls.
    rewrite Hden', Hitems.
    unfold V3.cacheKey. by rewrite startsWith_app.
Qed.

Lemma X14_clearCache_clears_localStorage_only_witness :
  ∃ w', V3.clearCache (Examples.world3 Examples.record3 1000) = inr (1%nat, w')
        ∧ V3.getCachedCSS V3.chatgpt w' = None.
Proof.
  destruct (X14_clearCache_clears_localStorage_only V3.chatgpt
              (Examples.world3 Examples.record3 1000)) as [_ H].
  destruct (H eq_refl) as (keys & w' & Hclear & _ & _ & _ & _ & _ & Hget).
  exists w'. split; [|exact Hget].
  rewrite Hclear. f_equal. f_equal.
  pose proof Hclear as Hc. vm_compute in Hc. injection Hc as Hn _.
  symmetry. exact Hn.
Defined.

(** ** v3.0: the menu's toggle *)

Section V3Toggle.
Import V3.
Variable site : SiteProfile.

(** The flag as [setCurrentSiteEnabled] leaves it in a writable store. *)
Lemma setCurrentSiteEnabled_stored b w :
  writable w →
  getCurrentSiteEnabled site (snd (setCurrentSiteEnabled site b w)) = VBool b.
Proof.
  intros [Hden Hquota]. unfold getCurrentSiteEnabled.
  apply v3_getValue_stored.
  - unfold setCurrentSiteEnabled, setValue, setItem, active_store in *.
    destruct (GM_values w) as [g|] eqn:Hgm; cbn in *; rewrite Hden, Hquota; cbn;
      rewrite ?Hgm; cbn; apply lookup_insert_eq.
  - unfold readable, setCurrentSiteEnabled, setValue, setItem, active_store in *.
    destruct (GM_values w) as [g|] eqn:Hgm; cbn in *; rewrite Hden, Hquota; cbn;
      rewrite ?Hgm; done.
Qed.

Lemma setCurrentSiteEnabled_denied b w :
  denied (active_store w) = true → setCurrentSiteEnabled site b w = (false, w).
Proof.
  unfold setCurrentSiteEnabled, setValue, setItem, active_store.
  destruct (GM_values w) as [g|]; cbn; by intros ->.
Qed.

Lemma remove_getCurrentSiteEnabled s :
  getCurrentSiteEnabled site (snd (remove site s)) = getCurrentSiteEnabled site (snd s).
Proof. reflexivity. Qed.

Lemma v3_toggle_off σ w :
  truthy_value (getCurrentSiteEnabled site w) = true →
  toggleCurrentSiteStyles site (σ, w)
  = Return tt (remove site (σ, snd (setCurrentSiteEnabled site false w))).
Proof.
  intros Hon. unfold toggleCurrentSiteStyles, bind, gets, on_world, modify.
  cbn [bind_step fst snd]. rewrite Hon. reflexivity.
Qed.

Lemma v3_toggle_on σ w :
  truthy_value (getCurrentSiteEnabled site w) = false →
  toggleCurrentSiteStyles site (σ, w)
  = bind_step (apply site (σ, snd (setCurrentSiteEnabled site true w))) (λ _, ret tt).
Proof.
  intros Hoff. unfold toggleCurrentSiteStyles, bind, gets, on_world, modify.
  cbn [bind_step fst snd]. rewrite Hoff. reflexivity.
Qed.

End V3Toggle.

(** X15. The v3.0 menu toggle.  With the styles enabled it returns at once:
    the flag is written as false, which is what is read afterwards when the
    store in use is writable, and [remove] has run, so that no element
    bears the artifact id when the ones that did were tagged by the
    injector.  With the styles disabled and a writable store it writes the
    flag as true and starts [apply], which then finds the styles enabled.
    When the store cannot be reached the styles count as enabled, so the
    toggle only ever removes the style, and writes nothing. *)
Theorem X15_v3_toggle_switches_the_style :
  ∀ site σ w,
    (V3.truthy_value (V3.getCurrentSiteEnabled site w) = true →
     ∃ s', V3.toggleCurrentSiteStyles site (σ, w) = Return tt s'
           ∧ (V3.writable w → V3.getCurrentSiteEnabled site (snd s') = V3.VBool false)
           ∧ (V3.artifacts_tagged site (V3.document w) →
              V3.isApplied site (snd s') = false))
    ∧ (V3.truthy_value (V3.getCurrentSiteEnabled site w) = false →
       V3.writable w →
       ∃ w', V3.toggleCurrentSiteStyles site (σ, w)
             = bind_step (V3.apply site (σ, w')) (λ _, ret tt)
             ∧ V3.getCurrentSiteEnabled site w' = V3.VBool true
             ∧ V3.document w' = V3.document w)
    ∧ (denied (V3.active_store w) = true →
       V3.toggleCurrentSiteStyles site (σ, w) = Return tt (V3.remove site (σ, w))).
Proof.
  intros site σ w. split; [|split].
  - intros Hon.
    exists (V3.remove site (σ, snd (V3.setCurrentSiteEnabled site false w))).
    split; [by apply v3_toggle_off|]. split.
    + intros Hw. rewrite remove_getCurrentSiteEnabled. cbn [snd].
      by apply setCurrentSiteEnabled_stored.
    + intros Htag. apply remove_clears. cbn [snd].
      unfold V3.setCurrentSiteEnabled. by rewrite setValue_document.
  - intros Hoff Hw. exists (snd (V3.setCurrentSiteEnabled site true w)).
    split; [by apply v3_toggle_on|]. split.
    + by apply setCurrentSiteEnabled_stored.
    + unfold V3.setCurrentSiteEnabled. by rewrite setValue_document.
  - intros Hden. rewrite v3_toggle_off.
    + by rewrite setCurrentSiteEnabled_denied.
    + unfold V3.getCurrentSiteEnabled. by rewrite v3_getValue_denied.
Qed.

Lemma X15_v3_toggle_switches_the_style_witness :
  (∃ s', V3.toggleCurrentSiteStyles V3.chatgpt Examples.start3 = Return tt s'
         ∧ V3.getCurrentSiteEnabled V3.chatgpt (snd s') = V3.VBool false)
  ∧ ∃ s' w',
      V3.toggleCurrentSiteStyles V3.chatgpt Examples.start3 = Return tt s'
      ∧ V3.toggleCurrentSiteStyles V3.chatgpt s'
        = bind_step (V3.apply V3.chatgpt (fst s', w')) (λ _, ret tt)
      ∧ V3.getCurrentSiteEnabled V3.chatgpt w' = V3.VBool true.
Proof.
  destruct (X15_v3_toggle_switches_the_style V3.chatgpt (fst Examples.start3)
              (snd Examples.start3)) as (Hoff & _ & _).
  destruct (Hoff eq_refl) as (s' & Hrun & Hflag & _).
  specialize (Hflag (conj eq_refl eq_refl)).
  split; [by exists s'|].
  destruct (X15_v3_toggle_switches_the_style V3.chatgpt (fst s') (snd s'))
    as (_ & Hon & _).
  destruct Hon as (w' & Hrun' & Hflag' & _).
  - by rewrite Hflag.
  - assert (Hs' : s' = V3.remove V3.chatgpt
                         (fst Examples.start3,
                          snd (V3.setCurrentSiteEnabled V3.chatgpt false
                                 (snd Examples.start3)))).
    { change (V3.toggleCurrentSiteStyles V3.chatgpt Examples.start3)
        with (Return (E := event) tt
                (V3.remove V3.chatgpt
                   (fst Examples.start3,
                    snd (V3.setCurrentSiteEnabled V3.chatgpt false
                           (snd Examples.start3))))) in Hrun.
      by injection Hrun as <-. }
    rewrite Hs'. split; reflexivity.
  - exists s', w'. destruct s' as [σ' w1]. done.
Defined.

(** ** v3.0: the throttled function *)

Section Throttle.
Import V3.
Context {A : Type}.
Variable delay : Z.

Lemma history_app (hs1 hs2 : list (happening A)) t :
  history delay (hs1 ++ hs2) t
  = (fst (history delay hs2 (fst (history delay hs1 t))),
     snd (history delay hs1 t) ++ snd (history delay hs2 (fst (history delay hs1 t)))).
Proof.
  revert t. induction hs1 as [|h hs1 IH]; intros t; cbn [app history].
  { cbn [fst snd app]. by destruct (history delay hs2 t). }
  destruct (happens delay h t) as [t' out]. rewrite IH.
  destruct (history delay hs1 t') as [t1 o1]. cbn [fst snd].
  by destruct out.
Qed.

Lemma history_snoc (hs : list (happening A)) h t :
  history delay (hs ++ [h]) t
  = (fst (happens delay h (fst (history delay hs t))),
     snd (history delay hs t)
     ++ match snd (happens delay h (fst (history delay hs t))) with
        | Some a => [a]
        | None => []
        end).
Proof.
  rewrite history_app. cbn [history].
  destruct (happens delay h _) as [t' [a|]]; reflexivity.
Qed.

Lemma calls_snoc (hs : list (happening A)) h :
  calls (hs ++ [h])
  = calls hs ++ match h with Called _ args => [args] | Fired => [] end.
Proof. unfold calls. rewrite omap_app. by destruct h. Qed.

(** What was executed and what waits, after a history: the timer that is
    set belongs to the last call, and the calls executed so far are among
    the ones before it, in order. *)
Lemma history_invariant (hs : list (happening A)) :
  match timeoutId (fst (history delay hs throttle)) with
  | Some tm =>
      Called (currentTime tm) (args tm) ∈ hs
      ∧ ∃ cs, calls hs = cs ++ [args tm]
              ∧ snd (history delay hs throttle) `sublist_of` cs
  | None =>
      snd (history delay hs throttle) `sublist_of` calls hs
      ∧ last (snd (history delay hs throttle)) = last (calls hs)
  end
  ∧ (lastExecTime (fst (history delay hs throttle)) = 0
     ∨ ∃ a, Called (lastExecTime (fst (history delay hs throttle))) a ∈ hs).
Proof.
  induction hs as [|h hs IH] using rev_ind; [by split; [split|left]|].
  rewrite history_snoc, calls_snoc.
  destruct (history delay hs throttle) as [t outs]. cbn [fst snd] in *.
  destruct IH as [IH Hlast].
  assert (Hsub : outs `sublist_of` calls hs).
  { destruct (timeoutId t) as [tm|]; [|tauto].
    destruct IH as (_ & cs & -> & Hcs). by apply sublist_inserts_r. }
  assert (Hlast' : ∀ t' : throttled A, lastExecTime t' = lastExecTime t →
            lastExecTime t' = 0 ∨ ∃ a, Called (lastExecTime t') a ∈ hs ++ [h]).
  { intros t' ->. destruct Hlast as [?|[a Ha]]; [by left|right].
    exists a. apply elem_of_app. by left. }
  destruct h as [time args|]; cbn [happens].
  - unfold throttled_call, execute. destruct (_ >? _); cbn [fst snd timeoutId].
    + split.
      * split; [by apply sublist_app|]. by rewrite !last_snoc.
      * right. exists args. cbn. apply elem_of_app. right. by left.
    + rewrite app_nil_r. split; [|by apply Hlast'].
      split; [apply elem_of_app; right; by left|]. by exists (calls hs).
  - unfold timer_fires, execute. rewrite app_nil_r.
    destruct (timeoutId t) as [tm|] eqn:Htimer; cbn [fst snd timeoutId].
    + destruct IH as (Hin & cs & -> & Hcs). split.
      * split; [by apply sublist_app|]. by rewrite !last_snoc.
      * right. exists (args tm). cbn. apply elem_of_app. by left.
    + rewrite Htimer, app_nil_r. split; [exact IH|by apply Hlast'].
Qed.

End Throttle.

(** X16. The function [throttle] returns, whatever the calls made and the
    times its timer fires: [func] is called with arguments of calls made,
    in their order; the last call made is never lost, its arguments are
    those of the last execution or of the timer that is set; and when the
    clock has not gone back, the timer of a call that is put off is set
    with a delay between zero and [delay]. *)
Theorem X16_throttle_keeps_the_last_call :
  ∀ (A : Type) delay (hs : list (V3.happening A)),
    let t := fst (V3.history delay hs V3.throttle) in
    let outs := snd (V3.history delay hs V3.throttle) in
    outs `sublist_of` V3.calls hs
    ∧ (∀ a, last (V3.calls hs) = Some a →
            (∃ tm, V3.timeoutId t = Some tm ∧ V3.args tm = a)
            ∨ (V3.timeoutId t = None ∧ last outs = Some a))
    ∧ ∀ time a,
        (∀ time' a', V3.Called time' a' ∈ hs → time' ≤ time) →
        0 ≤ time →
        match V3.timeoutId (fst (V3.throttled_call delay time a t)) with
        | Some tm => 0 ≤ V3.timeout tm ≤ delay
        | None => True
        end.
Proof.
  intros A delay hs. cbv zeta.
  destruct (history_invariant delay hs) as [Hinv Hlast].
  split; [|split].
  - destruct (V3.timeoutId _) as [tm|]; [|tauto].
    destruct Hinv as (_ & cs & -> & Hcs). by apply sublist_inserts_r.
  - intros a Ha. destruct (V3.timeoutId _) as [tm|].
    + destruct Hinv as (_ & cs & Hcalls & _). left. exists tm. split; [done|].
      rewrite Hcalls, last_snoc in Ha. congruence.
    + right. destruct Hinv as [_ ->]. done.
  - intros time a Htimes Htime. unfold V3.throttled_call.
    destruct (_ >? _) eqn:Hgt; [exact I|]. cbn [fst V3.timeoutId V3.timeout].
    rewrite Z.gtb_ltb in Hgt. apply Z.ltb_ge in Hgt.
    destruct Hlast as [H0|[a' Ha%Htimes]]; lia.
Qed.

Lemma X16_throttle_keeps_the_last_call_witness :
  match V3.timeoutId
          (fst (V3.throttled_call 500 1200 3%nat
                  (fst (V3.history 500 [V3.Called 1000 1%nat; V3.Called 1100 2%nat]
                          V3.throttle))))
  with
  | Some tm => 0 ≤ V3.timeout tm ≤ 500
  | None => True
  end.
Proof.
  destruct (X16_throttle_keeps_the_last_call nat 500
              [V3.Called 1000 1%nat; V3.Called 1100 2%nat]) as (_ & _ & H).
  apply (H 1200 3%nat); [|lia].
  intros time' a' Hin. repeat apply elem_of_cons in Hin as [[= -> _]|Hin]; [lia..|].
  by apply elem_of_nil in Hin.
Defined.

(** ** v3.0: the time of the last apply *)

Section V3Debounce.
Import V3.
Variable site : SiteProfile.
Variable G : ∀ X, event X → X → Prop.
Variable t : Z.

(** Steps that leave [lastApplyTime] alone. *)
Ltac leaf :=
  first [ apply preserves_modify; intros ? H; exact H
        | apply preserves_call; intros ? H; exact H
        | match goal with |- preserves _ _ (lift ?r) => destruct r end ].

Ltac keep := repeat first [preserve_step | leaf].

Lemma berry_strategies_keeps_time l :
  preserves G (λ s, lastApplyTime (fst s) = t) (berry_strategies site l).
Proof.
  induction l as [|[mode cache] rest IH]; cbn [berry_strategies]; keep. exact IH.
Qed.

Lemma primary_proxies_keeps_time l :
  preserves G (λ s, lastApplyTime (fst s) = t) (primary_proxies l).
Proof.
  induction l as [|u rest IH]; cbn [primary_proxies]; unfold fetchProxied; keep.
  exact IH.
Qed.

Lemma fallback_proxies_keeps_time l :
  preserves G (λ s, lastApplyTime (fst s) = t) (fallback_proxies l).
Proof.
  induction l as [|u rest IH]; cbn [fallback_proxies]; unfold fetchProxied; keep.
  exact IH.
Qed.

Lemma fetchExternalCSS_keeps_time :
  preserves G (λ s, lastApplyTime (fst s) = t) (fetchExternalCSS site).
Proof.
  unfold fetchExternalCSS, stage, fetchViaGM, fetchForBerryBrowser, fetchDirect,
    fetchGitHubFallback, fetchViaCORSProxy, on_state, on_world.
  keep;
    first [ apply berry_strategies_keeps_time
          | apply primary_proxies_keeps_time
          | apply fallback_proxies_keeps_time ].
Qed.

Lemma try_injections_keeps_time ms :
  preserves G (λ s, lastApplyTime (fst s) = t) (try_injections site ms).
Proof.
  induction ms as [|m rest IH]; cbn [try_injections]; [apply preserves_ret|].
  apply preserves_bind; [|intros [|]; [apply preserves_ret|exact IH]].
  destruct m; cbn [injector];
    unfold injectViaBlob, injectViaStyle, injectViaExternalLink, on_state, on_world;
    keep.
Qed.

(** [apply], once past its guards, leaves the time it started at as the time
    of the last apply. *)
Lemma apply_sets_time s :
  truthy_value (getCurrentSiteEnabled site (snd s)) = true →
  isLoading (fst s) = false →
  (now (snd s) - lastApplyTime (fst s) <? 500) = false →
  t = now (snd s) →
  always G (λ _ s', lastApplyTime (fst s') = t) (λ s', lastApplyTime (fst s') = t)
    (λ _ s', lastApplyTime (fst s') = t) (λ _ s', lastApplyTime (fst s') = t)
    (apply site s).
Proof.
  intros Hon Hidle Hlate Ht. unfold apply, bind, gets. cbn [bind_step].
  rewrite Hon, Hidle. cbn [negb orb bind_step]. rewrite Hlate.
  cbn [bind_step on_state modify fst snd].
  set (s1 := (set_isLoading true _, _)).
  assert (H1 : lastApplyTime (fst s1) = t) by (by rewrite Ht).
  revert H1. generalize s1. clear s1.
  change (preserves G (λ s', lastApplyTime (fst s') = t)
            (try_catch
               (let* _ := awaited (waitForPageReady site) in
                let* c := gets (λ s : St, cssContent (fst s)) in
                let* _ := if negb (truthy c)
                          then let* _ := awaited (fetchExternalCSS site) in ret tt
                          else ret tt in
                let* c := gets (λ s : St, cssContent (fst s)) in
                if negb (truthy c) || (jslength (trim (default [] c)) =? 0)
                then throw (Error "No CSS content available")
                else
                  let* done := try_injections site
                                 [blob_link; style_element; external_link] in
                  if done : bool then ret true
                  else throw (Error "All injection methods failed"))
               (λ _, let* _ := on_state (set_isLoading false) in ret false))).
  apply preserves_catch; [|intros e; unfold on_state; keep].
  apply preserves_bind; [apply preserves_awaited; unfold waitForPageReady; keep|].
  intros _. apply preserves_bind; [apply preserves_gets|]. intros c.
  apply preserves_bind.
  { destruct (negb (truthy c)); [|apply preserves_ret].
    apply preserves_bind; [|intros _; apply preserves_ret].
    apply preserves_awaited, fetchExternalCSS_keeps_time. }
  intros _. apply preserves_bind; [apply preserves_gets|]. intros c'.
  destruct (negb (truthy c') || _); [apply preserves_throw|].
  apply preserves_bind; [apply try_injections_keeps_time|].
  intros [|]; [apply preserves_ret|apply preserves_throw].
Qed.

End V3Debounce.

(** X17. v3.0 [apply] that goes past its guards (styles enabled, no apply in
    progress, 500 ms or more since the last one) ends with the time it
    started at recorded as the time of the last apply, whatever happens
    while it waits; an [apply] called less than 500 ms after that time
    returns false at once and changes nothing. *)
Theorem X17_v3_apply_is_debounced :
  ∀ site (env : environment event V3.world) s,
    V3.truthy_value (V3.getCurrentSiteEnabled site (snd s)) = true →
    V3.isLoading (fst s) = false →
    500 ≤ V3.now (snd s) - V3.lastApplyTime (fst s) →
    V3.lastApplyTime (fst (snd (run env (V3.apply site) s))) = V3.now (snd s)
    ∧ ∀ w, V3.now w - V3.now (snd s) < 500 →
           V3.apply site (fst (snd (run env (V3.apply site) s)), w)
           = Return false (fst (snd (run env (V3.apply site) s)), w).
Proof.
  intros site env s Hon Hidle Hlate.
  assert (Htime : V3.lastApplyTime (fst (snd (run env (V3.apply site) s)))
                  = V3.now (snd s)).
  { pose proof (always_run anything
                  (λ _ s', V3.lastApplyTime (fst s') = V3.now (snd s))
                  (λ s', V3.lastApplyTime (fst s') = V3.now (snd s)) _ _ env 0 _
                  (λ _ _ _ _, I) (λ _ _ _ _ _ H, H)
                  (apply_sets_time site anything (V3.now (snd s)) s Hon Hidle
                     (proj2 (Z.ltb_ge _ _) Hlate) eq_refl)) as H.
    unfold run. by destruct (run_from env 0 (V3.apply site s)) as [[b|e] s']. }
  split; [exact Htime|]. intros w Hw.
  revert Htime. generalize (fst (snd (run env (V3.apply site) s))). intros σ' Htime.
  unfold V3.apply, bind, gets. cbn [bind_step fst snd].
  destruct (negb _ || _); [reflexivity|]. cbn [bind_step fst snd].
  by rewrite Htime, (proj2 (Z.ltb_lt _ _) Hw).
Qed.

Lemma X17_v3_apply_is_debounced_witness :
  V3.apply V3.chatgpt
    (fst (snd (run Examples.online3 (V3.apply V3.chatgpt) Examples.start3)),
     Examples.fresh3)
  = Return false
      (fst (snd (run Examples.online3 (V3.apply V3.chatgpt) Examples.start3)),
       Examples.fresh3).
Proof.
  apply (X17_v3_apply_is_debounced V3.chatgpt Examples.online3 Examples.start3);
    [reflexivity|reflexivity|vm_compute; discriminate|vm_compute; reflexivity].
Defined.

(** ** v3.0: the requests of the fetch *)

Section Asks.
Context {V W : Type}.
Variable env : environment event W.

Lemma asks_for_Raise {A} (gives : A → bool) n e (s : V * W) :
  asks_for gives env n (Raise e s) [].
Proof. by split. Qed.

Lemma asks_for_awaited {A} (gives : A → bool) n (p : step event (V * W) A) plan :
  asks_for gives env n p plan → asks_for gives env n (a_turn_later p) plan.
Proof.
  unfold asks_for. rewrite requests_from_awaited.
  by destruct (run_from_awaited env n p) as [-> _].
Qed.

(** A part that gave nothing, followed by another. *)
Lemma asks_for_then {A B} (gives : B → bool) (J : V * W → Prop) n
    (p : step event (V * W) (option A))
    (found : A → task event (V * W) B) (q : task event (V * W) B) l1 l2 :
  asks_for (λ r, bool_decide (is_Some r)) env n p l1 →
  (∀ c s, ∃ b, found c s = Return b s ∧ gives b = true) →
  (∀ e, fst (run_from env n p) ≠ Thrown e) →
  J (snd (run_from env n p)) →
  (∀ n' s', J s' → asks_for gives env n' (q s') l2) →
  asks_for gives env n
    (bind_step p (λ r, match r with Some c => found c | None => q end)) (l1 ++ l2).
Proof.
  intros [Hpre Hend] Hfound Hnothrow HJ Hq. unfold asks_for.
  rewrite run_from_bind, requests_from_bind.
  destruct (run_from env n p) as [[[c|]|e] s1]; cbn [fst snd] in *.
  - destruct (Hfound c s1) as (b & -> & Hb). cbn. rewrite app_nil_r.
    split; [by apply prefix_app_r|]. congruence.
  - rewrite (Hend eq_refl).
    destruct (Hq (n + length (events_from env n p))%nat s1 HJ) as [Hpre' Hend'].
    split; [by apply prefix_app|].
    destruct (run_from env _ (q s1)) as [[b|e] s2]; cbn [fst] in *.
    + intros Hb. by rewrite Hend'.
    + by rewrite Hend'.
  - by destruct (Hnothrow e).
Qed.

(** The last part: when it gave nothing, the call throws. *)
Lemma asks_for_last {A B} (gives : B → bool) n (p : step event (V * W) (option A))
    (found : A → task event (V * W) B) e l :
  asks_for (λ r, bool_decide (is_Some r)) env n p l →
  (∀ c s, ∃ b, found c s = Return b s ∧ gives b = true) →
  asks_for gives env n
    (bind_step p (λ r, match r with Some c => found c | None => throw e end)) l.
Proof.
  intros [Hpre Hend] Hfound. unfold asks_for.
  rewrite run_from_bind, requests_from_bind.
  destruct (run_from env n p) as [[[c|]|e'] s1]; cbn [fst snd] in *.
  - destruct (Hfound c s1) as (b & -> & Hb). cbn. rewrite app_nil_r.
    split; [exact Hpre|]. congruence.
  - cbn. rewrite app_nil_r. split; [exact Hpre|]. by apply Hend.
  - rewrite app_nil_r. done.
Qed.

(** An error that is thrown again. *)
Lemma asks_for_rethrow {A} (gives : A → bool) n (p : step event (V * W) A) l :
  asks_for gives env n p l →
  asks_for gives env n (catch_step p (λ err, throw err)) l.
Proof.
  intros [Hpre Hend]. unfold asks_for.
  rewrite run_from_catch, requests_from_catch.
  destruct (run_from env n p) as [[a|e] s1]; cbn [fst snd] in *;
    rewrite app_nil_r; done.
Qed.

Lemma bind_no_throw {A B} n (p : step event (V * W) A) (f : A → task event (V * W) B) :
  (∀ e, fst (run_from env n p) ≠ Thrown e) →
  (∀ a n' s' e, fst (run_from env n' (f a s')) ≠ Thrown e) →
  ∀ e, fst (run_from env n (bind_step p f)) ≠ Thrown e.
Proof.
  intros Hp Hf e. rewrite run_from_bind.
  destruct (run_from env n p) as [[a|e'] s1]; cbn [fst snd]; [apply Hf|].
  by destruct (Hp e').
Qed.

End Asks.

Section V3Asks.
Import V3.
Variable site : SiteProfile.
Variable env : environment event world.

(** Runs the environment's answers through the goal. *)
Ltac answer :=
  repeat match goal with
    | |- context [env ?n ?X ?ev ?w] =>
        let r := fresh "r" in let w' := fresh "w" in
        destruct (env n X ev w) as [r w']; cbn -[trim jslength truthy]
    | |- context [match ?x with Failed _ => _ | Http _ _ => _ end] =>
        destruct x as [[]|? ?]; cbn -[trim jslength truthy]
    | |- context [if ?b then _ else _] =>
        destruct b; cbn -[trim jslength truthy]
    | |- context [match ?x with inl _ => _ | inr _ => _ end] =>
        destruct x; cbn -[trim jslength truthy]
    end.

Lemma fetchViaGM_asks n s :
  asks_for (λ _, true) env n (fetchViaGM site s) [(styleURL site, ViaGM)].
Proof.
  unfold asks_for, requests_from, fetchViaGM, bind, await.
  cbn -[trim jslength truthy]. answer; done.
Qed.

Lemma fetchDirect_asks n s :
  asks_for (λ _, true) env n (fetchDirect site s)
    [(styleURL site, ViaFetch cors no_store)].
Proof.
  unfold asks_for, requests_from, fetchDirect, bind, await, lift, ok_text_of.
  cbn -[trim jslength truthy]. answer; done.
Qed.

Lemma fetchGitHubFallback_asks n s :
  asks_for (λ _, true) env n (fetchGitHubFallback site s)
    (if truthy (fallbackURL site)
     then [(default [] (fallbackURL site), ViaFetch cors no_store)] else []).
Proof.
  unfold asks_for, requests_from, fetchGitHubFallback, bind, await, lift, ok_text_of.
  destruct (truthy (fallbackURL site)); cbn -[trim jslength truthy]; [|done].
  answer; done.
Qed.

Lemma fetchProxied_asks n u s :
  asks_for (λ r, bool_decide (is_Some r)) env n (fetchProxied u s)
    [(u, ViaFetch cors no_cache)].
Proof.
  unfold asks_for, requests_from, fetchProxied, bind, await, lift, ok_text_of.
  cbn -[trim jslength truthy]. answer; done.
Qed.

(** An attempt whose error is caught: one request, and no throw. *)
Lemma attempt_asks {A} n (body : Task (option A)) s plan :
  asks_for (λ r, bool_decide (is_Some r)) env n (body s) plan →
  asks_for (λ r, bool_decide (is_Some r)) env n
    (catch_step (body s) (λ _, ret None)) plan
  ∧ ∀ e, fst (run_from env n (catch_step (body s) (λ _, ret None))) ≠ Thrown e.
Proof.
  intros [Hpre Hend]. unfold asks_for.
  rewrite run_from_catch, requests_from_catch.
  destruct (run_from env n (body s)) as [[r|e] s']; cbn [fst snd] in *;
    unfold ret; rewrite ?requests_from_Return, app_nil_r; cbn [run_from fst];
    repeat split; done.
Qed.

Lemma berry_attempt_asks n mode cache s :
  asks_for (λ r, bool_decide (is_Some r)) env n
    (((let* r := await (Request (styleURL site) (ViaFetch mode cache)) in
      let* c := lift (text_of r) in
      let* _ := await Tick in
      if truthy (Some c) && (jslength (trim c) >? 10) then ret (Some c)
      else ret None) : Task (option jsstring)) s)
    [(styleURL site, ViaFetch mode cache)].
Proof.
  unfold asks_for, requests_from, bind, await, lift, text_of.
  cbn -[trim jslength truthy]. answer; done.
Qed.

Lemma berry_strategies_asks n l s :
  asks_for (λ r, bool_decide (is_Some r)) env n (berry_strategies site l s)
    (map (λ '(mode, cache), (styleURL site, ViaFetch mode cache)) l)
  ∧ ∀ e, fst (run_from env n (berry_strategies site l s)) ≠ Thrown e.
Proof.
  revert n s. induction l as [|[mode cache] rest IH]; intros n s; [by repeat split|].
  cbn [berry_strategies map].
  destruct (attempt_asks n _ s _ (berry_attempt_asks n mode cache s)) as [Hask Hno].
  unfold bind, try_catch in *. split.
  - apply (asks_for_then env _ (λ _, True) n _ (λ c, ret (Some c))
             (berry_strategies site rest) [_] _ Hask); [by eexists|exact Hno|done|].
    intros n' s' _. apply IH.
  - apply bind_no_throw; [exact Hno|]. intros [c|] n' s' e; [done|apply IH].
Qed.

Lemma fetchForBerryBrowser_asks n s :
  asks_for (λ _, true) env n (fetchForBerryBrowser site s) (berry_plan site).
Proof.
  unfold fetchForBerryBrowser, bind, on_state, modify. cbn [bind_step].
  destruct (berry_strategies_asks n strategies
              (set_cdnStatus (js "berry_optimized") (fst s), snd s)) as [Hask Hno].
  apply (asks_for_then env _ (λ _, True) n _ ret _ _ _ Hask);
    [by eexists|exact Hno|done|].
  intros n' s' _. destruct (truthy (fallbackURL site)).
  - apply asks_for_last; [|by eexists].
    apply attempt_asks.
    unfold asks_for, requests_from, bind, await, lift, text_of, on_state, modify.
    cbn -[trim jslength truthy]. answer; done.
  - by split.
Qed.

Lemma primary_proxies_asks n l s :
  asks_for (λ r, bool_decide (is_Some r)) env n (primary_proxies l s) (proxied l)
  ∧ ∀ e, fst (run_from env n (primary_proxies l s)) ≠ Thrown e.
Proof.
  revert n s. induction l as [|u rest IH]; intros n s; [by repeat split|].
  cbn [primary_proxies proxied map].
  destruct (attempt_asks n _ s _ (fetchProxied_asks n u s)) as [Hask Hno].
  unfold bind, try_catch in *. split.
  - apply (asks_for_then env _ (λ _, True) n _ (λ c, ret (Some c))
             (primary_proxies rest) [_] _ Hask); [by eexists|exact Hno|done|].
    intros n' s' _. apply IH.
  - apply bind_no_throw; [exact Hno|]. intros [c|] n' s' e; [done|apply IH].
Qed.

Lemma fallback_proxies_asks n l s :
  asks_for (λ r, bool_decide (is_Some r)) env n (fallback_proxies l s) (proxied l).
Proof.
  revert n s. induction l as [|u rest IH]; intros n s; [by split|].
  cbn [fallback_proxies proxied map]. unfold bind, try_catch.
  destruct rest as [|u' rest].
  - pose proof (asks_for_rethrow env _ n _ _ (fetchProxied_asks n u s)) as [Hpre Hend].
    unfold asks_for. rewrite run_from_bind, requests_from_bind.
    destruct (run_from env n (catch_step _ _)) as [[[c|]|e] s1]; cbn [fst snd] in *;
      rewrite ?app_nil_r; cbn; rewrite ?app_nil_r; done.
  - destruct (attempt_asks n _ s _ (fetchProxied_asks n u s)) as [Hask Hno].
    unfold bind, try_catch in *.
    apply (asks_for_then env _ (λ _, True) n _ (λ c, ret (Some c))
             (fallback_proxies (u' :: rest)) [_] _ Hask); [by eexists|exact Hno|done|].
    intros n' s' _. apply IH.
Qed.

Lemma fetchViaCORSProxy_asks n s :
  asks_for (λ _, true) env n (fetchViaCORSProxy site s) (proxy_plan site).
Proof.
  unfold fetchViaCORSProxy, proxy_plan.
  destruct (encodeURIComponent (styleURL site)) as [target|]; [|by split].
  unfold bind.
  destruct (primary_proxies_asks n (proxies target ++ [styleURL site]) s) as [Hask Hno].
  apply (asks_for_then env _ (λ _, True) n _ ret _ _ _ Hask);
    [by eexists|exact Hno|done|].
  intros n' s' _. destruct (truthy (fallbackURL site)); [|by split].
  destruct (encodeURIComponent (default [] (fallbackURL site))) as [target'|];
    [|by split].
  apply asks_for_last; [apply fallback_proxies_asks|by eexists].
Qed.

(** A stage asks for what its fetcher asks for, and never throws. *)
Lemma stage_run n fetcher status s plan :
  asks_for (λ _, true) env n (fetcher s) plan →
  asks_for (λ r, bool_decide (is_Some r)) env n (stage site fetcher status s) plan
  ∧ ∀ e, fst (run_from env n (stage site fetcher status s)) ≠ Thrown e.
Proof.
  intros [Hpre Hend]. unfold asks_for, stage, try_catch, bind.
  rewrite run_from_catch, requests_from_catch, run_from_bind, requests_from_bind.
  destruct (run_from env n (fetcher s)) as [[c|e] s1]; cbn [fst snd] in *.
  - unfold on_world, on_state, modify. destruct status; cbn; rewrite !app_nil_r; done.
  - cbn. rewrite !app_nil_r. done.
Qed.

Lemma stage_asks n fetcher status s plan :
  asks_for (λ _, true) env n (fetcher s) plan →
  asks_for (λ r, bool_decide (is_Some r)) env n (stage site fetcher status s) plan.
Proof. intros H. by apply stage_run. Qed.

Lemma stage_no_throw n fetcher status s plan e :
  asks_for (λ _, true) env n (fetcher s) plan →
  fst (run_from env n (stage site fetcher status s)) ≠ Thrown e.
Proof. intros H. by apply (stage_run n fetcher status s plan). Qed.

(** The first stage leaves the script's flags as they are. *)
Lemma stage_fetchViaGM_state n status s :
  isBerryBrowser (fst (snd (run_from env n (stage site (fetchViaGM site) status s))))
  = isBerryBrowser (fst s).
Proof.
  unfold stage, fetchViaGM, try_catch, bind, await, on_world, on_state, modify.
  cbn -[trim jslength truthy]. answer; by destruct status.
Qed.

Lemma waterfall_length viaGM berry : (length (waterfall site viaGM berry) ≤ 15)%nat.
Proof.
  unfold waterfall, berry_plan, proxy_plan, proxied, proxies, strategies.
  destruct viaGM, berry, (truthy (fallbackURL site)),
    (encodeURIComponent (styleURL site)),
    (encodeURIComponent (default [] (fallbackURL site)));
    rewrite ?length_app, ?length_map; cbn; lia.
Qed.

Lemma fetchExternalCSS_asks s :
  requests_from env 0 (fetchExternalCSS site s)
  `prefix_of` waterfall site (hasGrants (fst s) && GM_xmlhttpRequest (snd s))
                (isBerryBrowser (fst s))
  ∧ (truthy (getCachedCSS site (snd s)) = true →
     requests_from env 0 (fetchExternalCSS site s) = [])
  ∧ ∀ e, fst (run env (fetchExternalCSS site) s) = Thrown e →
         requests_from env 0 (fetchExternalCSS site s)
         = waterfall site (hasGrants (fst s) && GM_xmlhttpRequest (snd s))
             (isBerryBrowser (fst s)).
Proof.
  unfold run, fetchExternalCSS, bind, on_state, modify, gets.
  cbn [bind_step fst snd].
  destruct (truthy (getCachedCSS site (snd s))) eqn:Hmiss.
  { cbn. split; [apply prefix_nil|]. split; done. }
  cbn [bind_step fst snd].
  set (s1 := (set_fetchAttempts _ _, _)).
  assert (Hgoal : asks_for (λ _ : jsstring, true) env 0
            (bind_step
               ((if hasGrants (fst s) && GM_xmlhttpRequest (snd s)
                 then stage site (fetchViaGM site) (Some (js "jsdelivr_via_gm"))
                 else ret None) s1)
               (λ r, match r with
                     | Some c => ret c
                     | None => λ s2,
                         bind_step
                           ((if isBerryBrowser (fst s2)
                             then stage site (awaited (fetchForBerryBrowser site)) None
                             else ret None) s2)
                           (λ r, match r with
                                 | Some c => ret c
                                 | None => λ s3,
                                     bind_step
                                       (stage site (awaited (fetchDirect site))
                                          (Some (js "jsdelivr_direct")) s3)
                                       (λ r, match r with
                                             | Some c => ret c
                                             | None => λ s4,
                                                 bind_step
                                                   ((if truthy (fallbackURL site)
                                                     then stage site
                                                            (awaited (fetchGitHubFallback site))
                                                            (Some (js "github_fallback"))
                                                     else ret None) s4)
                                                   (λ r, match r with
                                                         | Some c => ret c
                                                         | None => λ s5,
                                                             bind_step
                                                               (stage site
                                                                  (awaited (fetchViaCORSProxy site))
                                                                  (Some (js "cors_proxy")) s5)
                                                               (λ r, match r with
                                                                     | Some c => ret c
                                                                     | None =>
                                                                         throw (Error "Could not fetch CSS from any source")
                                                                     end)
                                                         end)
                                             end)
                                 end)
                     end))
            (waterfall site (hasGrants (fst s) && GM_xmlhttpRequest (snd s))
               (isBerryBrowser (fst s)))).
  { unfold waterfall.
    apply (asks_for_then env _
             (λ s', isBerryBrowser (fst s') = isBerryBrowser (fst s)) 0).
    - destruct (_ && _); [apply stage_asks, fetchViaGM_asks|by split].
    - by eexists.
    - intros e. destruct (_ && _); [|done].
      eapply stage_no_throw, fetchViaGM_asks.
    - destruct (_ && _); [by rewrite stage_fetchViaGM_state|reflexivity].
    - intros n2 s2 ->.
      apply (asks_for_then env _ (λ _, True) n2).
      + destruct (isBerryBrowser (fst s));
          [apply stage_asks, asks_for_awaited, fetchForBerryBrowser_asks|by split].
      + by eexists.
      + intros e. destruct (isBerryBrowser (fst s)); [|done].
        eapply stage_no_throw, asks_for_awaited, fetchForBerryBrowser_asks.
      + done.
      + intros n3 s3 _.
        apply (asks_for_then env _ (λ _, True) n3 _ ret _ [_]).
        * apply stage_asks, asks_for_awaited, fetchDirect_asks.
        * by eexists.
        * intros e. eapply stage_no_throw, asks_for_awaited, fetchDirect_asks.
        * done.
        * intros n4 s4 _.
          pose proof (fetchGitHubFallback_asks n4 s4) as Hgh.
          apply (asks_for_then env _ (λ _, True) n4).
          -- destruct (truthy (fallbackURL site)); [|by split].
             by apply stage_asks, asks_for_awaited.
          -- by eexists.
          -- intros e. destruct (truthy (fallbackURL site)); [|done].
             eapply stage_no_throw, asks_for_awaited, Hgh.
          -- done.
          -- intros n5 s5 _. apply asks_for_last; [|by eexists].
             apply stage_asks, asks_for_awaited, fetchViaCORSProxy_asks. }
  destruct Hgoal as [Hpre Hend]. split; [exact Hpre|]. split; [done|].
  intros e He.
  destruct (run_from env 0 _) as [[c|e'] s']; [discriminate|exact Hend].
Qed.

End V3Asks.

(** X18. v3.0 [fetchExternalCSS] goes through its fetch methods in one
    order: the userscript manager's request when it is granted, the Berry
    strategies in Berry Browser, the direct request, the fallback URL, the
    proxies.  Its requests are the first ones of that list, which has 15
    entries at most; it makes none when the cache gives a stylesheet, and
    it has made them all when it throws. *)
Theorem X18_v3_requests_in_order :
  ∀ site (env : environment event V3.world) s,
    let plan := V3.waterfall site (V3.hasGrants (fst s) && V3.GM_xmlhttpRequest (snd s))
                  (V3.isBerryBrowser (fst s)) in
    let reqs := requests_from env 0 (V3.fetchExternalCSS site s) in
    reqs `prefix_of` plan
    ∧ (length plan ≤ 15)%nat
    ∧ (truthy (V3.getCachedCSS site (snd s)) = true → reqs = [])
    ∧ ∀ e, fst (run env (V3.fetchExternalCSS site) s) = Thrown e → reqs = plan.
Proof.
  intros site env s. cbv zeta.
  destruct (fetchExternalCSS_asks site env s) as (Hpre & Hhit & Hall).
  split; [exact Hpre|]. split; [apply waterfall_length|]. split; [exact Hhit|exact Hall].
Qed.

Lemma X18_v3_requests_in_order_witness :
  length (requests_from Examples.offline 0
            (V3.fetchExternalCSS V3.chatgpt Examples.start3)) = 9%nat.
Proof.
  destruct (X18_v3_requests_in_order V3.chatgpt Examples.offline Examples.start3)
    as (_ & _ & _ & Hall).
  rewrite (Hall (Error "Could not fetch CSS from any source")); reflexivity.
Defined.
